(** * Catalog mirror and usage miner of the querylog package

    A shallow embedding of the parts of [create_table_structure.py],
    [add_usage_data.py] and [run_query.py] that decide staleness of the
    preview artifact, render previews, rank table usage and gate the
    query runner on its dry-run estimate.

    Conventions of the embedding.
    - A Python [str] is a Rocq [string]; a character is a code point
      below 256, and strings are compared code point by code point as
      Python does.
    - The filesystem is a finite map from paths (lists of components) to
      nodes; an operation that raises [OSError] in Python returns [None].
      The content of a file is the text that reading it returns; the
      translation of carriage returns that text mode performs and
      encoding errors are left out.
    - The remote services (BigQuery catalogue, sample rows, dry run) are
      parameters of the functions that call them. *)

From Stdlib Require Import ZArith Ascii String List Sorting.Sorted Permutation.
From Stdlib Require QArith.
From stdpp Require Import base gmap strings list pretty.

Local Open Scope Z_scope.

(** ** Python string methods *)

Module PyStr.

(** [str.isspace] on one character, for code points below 256. *)
Definition is_space (c : ascii) : bool :=
  match c with
  | "009" | "010" | "011" | "012" | "013"
  | "028" | "029" | "030" | "031" | " " | "133" | "160" => true
  | _ => false
  end%char.

(** The line feed. *)
Definition nl : string := String "010" EmptyString.

(** [s.lstrip()]. *)
Fixpoint lstrip (s : string) : string :=
  match s with
  | EmptyString => EmptyString
  | String c s' => if is_space c then lstrip s' else s
  end.

(** [s.rstrip()]: a character is dropped when it is white space and
    everything after it has been dropped. *)
Fixpoint rstrip (s : string) : string :=
  match s with
  | EmptyString => EmptyString
  | String c s' =>
      match rstrip s' with
      | EmptyString => if is_space c then EmptyString else String c EmptyString
      | r => String c r
      end
  end.

(** [s.strip()]. *)
Definition strip (s : string) : string := rstrip (lstrip s).

(** [s.startswith(p)]. *)
Definition startswith (s p : string) : bool := String.prefix p s.

(** [c.lower()] on one character, for code points below 256: the
    letters A to Z and the capital letters of Latin-1. *)
Definition lower_char (c : ascii) : ascii :=
  let n := nat_of_ascii c in
  if ((65 <=? n) && (n <=? 90)
      || (192 <=? n) && (n <=? 214)
      || (216 <=? n) && (n <=? 222))%nat
  then ascii_of_nat (n + 32)
  else c.

(** [s.lower()]. *)
Fixpoint lower (s : string) : string :=
  match s with
  | EmptyString => EmptyString
  | String c s' => String (lower_char c) (lower s')
  end.

(** [sep.join(ls)]. *)
Definition join (sep : string) (ls : list string) : string :=
  String.concat sep ls.

(** [c * n] for a one-character string [c]. *)
Fixpoint repeat_char (c : ascii) (n : nat) : string :=
  match n with
  | O => EmptyString
  | S n' => String c (repeat_char c n')
  end.

(** [format(s, "<w")]: left-aligned in a field of width [w], padded
    with spaces and never cut. *)
Definition ljust (w : nat) (s : string) : string :=
  s +:+ repeat_char " " (w - String.length s).

(** [format(s, ">w")], as in [f"{i:2d}"]. *)
Definition rjust (w : nat) (s : string) : string :=
  repeat_char " " (w - String.length s) +:+ s.

(** [s.endswith(p)]. *)
Definition endswith (s p : string) : bool :=
  String.prefix (String.rev p) (String.rev s).

(** [s.replace(old, new)] for a non-empty [old]: every occurrence is
    replaced, scanning from the left; [skip] counts the characters of
    an occurrence still to be passed over. *)
Fixpoint replace_go (old new : string) (skip : nat) (s : string) : string :=
  match s with
  | EmptyString => EmptyString
  | String c s' =>
      match skip with
      | S k => replace_go old new k s'
      | O =>
          if String.prefix old s
          then new +:+ replace_go old new (String.length old - 1) s'
          else String c (replace_go old new 0 s')
      end
  end.

Definition replace (old new s : string) : string := replace_go old new 0 s.

(** [s[:m]] for an [int] [m]: a negative bound counts from the end. *)
Definition slice_to (s : string) (m : Z) : string :=
  if 0 <=? m then String.substring 0 (Z.to_nat m) s
  else String.substring 0 (String.length s - Z.to_nat (- m)) s.

End PyStr.

(** ** The filesystem *)

Module FS.

(** A path is the list of its components below the working directory. *)
Definition path := list string.

Inductive node :=
| Dir
| File (content : string).

#[global] Instance node_eq_dec : EqDecision node.
Proof. solve_decision. Defined.

Abbreviation fs := (gmap path node).

(** The working directory itself always exists. *)
Definition is_dir (m : fs) (p : path) : bool :=
  match p with
  | [] => true
  | _ => match m !! p with Some Dir => true | _ => false end
  end.

Definition is_file (m : fs) (p : path) : bool :=
  match m !! p with Some (File _) => true | _ => false end.

(** [Path.exists()]. *)
Definition exists_ (m : fs) (p : path) : bool :=
  match p with
  | [] => true
  | _ => match m !! p with Some _ => true | None => false end
  end.

(** [open(p).read()]: [None] stands for the exception raised when [p]
    is not a regular file. *)
Definition read_file (m : fs) (p : path) : option string :=
  match m !! p with
  | Some (File c) => Some c
  | _ => None
  end.

(** The directory holding [p]. *)
Definition parent (p : path) : path := removelast p.

(** [open(p, "w").write(c)]: the parent must be a directory and [p]
    must not be one; [None] stands for the exception. *)
Definition write_file (m : fs) (p : path) (c : string) : option fs :=
  match p with
  | [] => None
  | _ =>
      if is_dir m (parent p) && negb (is_dir m p)
      then Some (<[p := File c]> m)
      else None
  end.

(** The non-empty prefixes of a path, shortest first. *)
Fixpoint prefixes (p : path) : list path :=
  match p with
  | [] => []
  | c :: p' => [c] :: map (cons c) (prefixes p')
  end.

Definition ensure_dir (m : fs) (q : path) : fs :=
  match m !! q with
  | None => <[q := Dir]> m
  | Some _ => m
  end.

(** [Path.mkdir(parents=True, exist_ok=True)]: raises, changing
    nothing, when a component of the path is a regular file; otherwise
    creates the missing directories. *)
Definition mkdir_parents (m : fs) (p : path) : option fs :=
  if existsb (is_file m) (prefixes p) then None
  else Some (foldl ensure_dir m (prefixes p)).

(** [Path.mkdir(exist_ok=True)]: the parent must already be a
    directory. *)
Definition mkdir (m : fs) (p : path) : option fs :=
  match m !! p with
  | Some Dir => Some m
  | Some (File _) => None
  | None =>
      match p with
      | [] => Some m
      | _ => if is_dir m (parent p) then Some (<[p := Dir]> m) else None
      end
  end.

End FS.

(** ** create_table_structure.py *)

Module CreateTableStructure.
Import PyStr FS.

(** *** Data from BigQuery *)

(** A row of [INFORMATION_SCHEMA.TABLES] as the query selects it.  A
    cell is [None] when [pd.isna] holds of it. *)
Record info_schema_row := {
  is_table_catalog : option string;
  is_table_schema : option string;
  is_table_name : option string;
  is_ddl : option string
}.

(** A row of the DataFrame that [fetch_tables_from_bigquery] returns. *)
Record catalog_row := {
  table_catalog : option string;
  table_schema : option string;
  table_name : option string;
  wildcard_table_name : option string;
  ddl : option string
}.

(** A value of a sampled row.  [_format_preview_value] looks at a
    value only through [is None] and [str]; a value of another type
    (float, bytes, date, record) is its [VStr] with the text of [str]. *)
Inductive bq_value :=
| VNone
| VInt (z : Z)
| VBool (b : bool)
| VStr (s : string).

Record bq_field := { field_name : string; field_type : string }.

(** What [client.get_table] and [client.list_rows] give for a table. *)
Record table_data := {
  num_rows : option Z;
  schema : list bq_field;
  rows : list (list bq_value)
}.

(** The sample-row interface: the table id and the row limit give
    either the text of the exception raised or the data. *)
Definition bq_client := string -> Z -> string + table_data.

(** The process environment and the remote catalogue. *)
Record remote := {
  env_project_id : option string;
  information_schema_tables : option (list info_schema_row);
  client : bq_client
}.

(** [config.get_billing_project]: [None] stands for the [ValueError]
    when [PROJECT_ID] is unset or empty. *)
Definition get_billing_project (r : remote) : option string :=
  match env_project_id r with
  | Some (String c s) => Some (String c s)
  | _ => None
  end.

(** [fetch_tables_from_bigquery]: the query result with the column
    [wildcard_table_name] added as a copy of [table_name]; [None]
    stands for the exception, which is raised again. *)
Definition fetch_tables_from_bigquery (r : remote) : option (list catalog_row) :=
  match information_schema_tables r with
  | None => None
  | Some df =>
      Some (map (fun x =>
                   {| table_catalog := is_table_catalog x;
                      table_schema := is_table_schema x;
                      table_name := is_table_name x;
                      wildcard_table_name := is_table_name x;
                      ddl := is_ddl x |}) df)
  end.

(** *** Rendering a preview *)

Definition truncation_marker : string := "... [TRUNCATED]".

(** [str(value)] for a value that is not [None]. *)
Definition py_str (v : bq_value) : string :=
  match v with
  | VNone => "None"
  | VInt z => pretty z
  | VBool true => "True"
  | VBool false => "False"
  | VStr s => s
  end.

Definition is_geo (field_type : string) : bool :=
  bool_decide (field_type = "GEOGRAPHY") || bool_decide (field_type = "GEOMETRY").

(** [_format_preview_value]. *)
Definition _format_preview_value (value : bq_value) (field_type : string)
    (max_length : Z) : string :=
  match value with
  | VNone => "NULL"
  | _ =>
      let str_value := py_str value in
      if is_geo field_type || (max_length <? Z.of_nat (String.length str_value))
      then slice_to str_value max_length +:+ truncation_marker
      else str_value
  end.

Definition default_max_length : Z := 100.

(** [zip(row, field_types, strict=True)] mapped through
    [_format_preview_value]; [inl] carries the text of the
    [ValueError]. *)
Fixpoint format_row (row : list bq_value) (field_types : list string)
    : string + list string :=
  match row, field_types with
  | [], [] => inr []
  | [], _ :: _ => inl "zip() argument 2 is longer than argument 1"
  | _ :: _, [] => inl "zip() argument 2 is shorter than argument 1"
  | v :: row', t :: types' =>
      match format_row row' types' with
      | inl e => inl e
      | inr vs => inr (_format_preview_value v t default_max_length :: vs)
      end
  end.

(** [("{!s:<20} " * n).format( *values)] for [n] values. *)
Definition format_fields (values : list string) : string :=
  String.concat EmptyString (map (fun v => ljust 20 v +:+ " ") values).

(** The body lines, one for each row; the first row whose length
    differs from the schema's raises. *)
Fixpoint format_rows (rs : list (list bq_value)) (field_types : list string)
    : string + list string :=
  match rs with
  | [] => inr []
  | row :: rs' =>
      match format_row row field_types with
      | inl e => inl e
      | inr row_values =>
          match format_rows rs' field_types with
          | inl e => inl e
          | inr ls => inr (("-- " +:+ format_fields row_values) :: ls)
          end
      end
  end.

Definition str_num_rows (n : option Z) : string :=
  match n with
  | Some z => pretty z
  | None => "None"
  end.

Definition error_sentinel : string := "-- Error retrieving preview".

Definition error_preview (table_id e : string) : string :=
  error_sentinel +:+ " for " +:+ table_id +:+ ": " +:+ e +:+ nl.

Definition no_data_preview : string :=
  "-- No data available in this table" +:+ nl.

(** The lines of a preview before they are joined. *)
Definition preview_header (table_id : string) (t : table_data) : list string :=
  [ "-- Preview of table: " +:+ table_id;
    "-- Total rows in table: " +:+ str_num_rows (num_rows t);
    "-- Showing first " +:+ pretty (length (rows t)) +:+ " rows";
    EmptyString;
    "-- " +:+ format_fields (map field_name (schema t));
    "-- " +:+ repeat_char "-" (20 * length (schema t)) ].

Definition preview_lines (table_id : string) (t : table_data)
    : string + list string :=
  match format_rows (rows t) (map field_type (schema t)) with
  | inl e => inl e
  | inr body => inr (preview_header table_id t ++ body)
  end.

(** [get_table_preview]. *)
Definition get_table_preview (c : bq_client) (table_id : string)
    (max_results : Z) : string :=
  match c table_id max_results with
  | inl e => error_preview table_id e
  | inr t =>
      match rows t with
      | [] => no_data_preview
      | _ =>
          match preview_lines table_id t with
          | inl e => error_preview table_id e
          | inr ls => join nl ls +:+ nl
          end
      end
  end.

(** *** Staleness of the preview *)

(** [should_update_preview]. *)
Definition should_update_preview (m : fs) (ddl_file_path preview_file_path : path)
    (current_ddl : string) : bool :=
  if negb (exists_ m preview_file_path) then true
  else
    match read_file m preview_file_path with
    | None => true
    | Some content =>
        if startswith (strip content) error_sentinel then true
        else if exists_ m ddl_file_path then
          match read_file m ddl_file_path with
          | None => true
          | Some content' =>
              negb (bool_decide (strip content' = strip current_ddl))
          end
        else false
    end.

(** *** The loop over the catalogue *)

(** What the loop carries from row to row. *)
Record sync_state := {
  st_fs : fs;
  preview_tasks : list (string * path);
  created_tables : nat
}.

Definition table_id_of (catalog schema table : string) : string :=
  catalog +:+ "." +:+ schema +:+ "." +:+ table.

(** [base_path / catalog / schema / wildcard_table_name]; the three
    names are taken as single path components. *)
Definition table_dir_of (base_path : path) (catalog schema wildcard : string) : path :=
  base_path ++ [catalog; schema; wildcard].

Definition ddl_path_of (table_dir : path) : path := table_dir ++ ["ddl.sql"].
Definition preview_path_of (table_dir : path) : path := table_dir ++ ["preview.sql"].

(** The body of the [for] loop of [create_table_structure]: a row with
    a missing cell is skipped, and an exception leaves the loop body
    where it is raised. *)
Definition process_row (base_path : path) (enable_preview : bool)
    (st : sync_state) (row : catalog_row) : sync_state :=
  match table_catalog row, table_schema row, table_name row,
        wildcard_table_name row, ddl row with
  | Some c, Some s, Some t, Some w, Some d =>
      let catalog := strip c in
      let schema := strip s in
      let table := strip t in
      let wildcard := strip w in
      let ddl_text := strip d in
      let table_dir := table_dir_of base_path catalog schema wildcard in
      match mkdir_parents (st_fs st) table_dir with
      | None => st
      | Some m1 =>
          let ddl_file_path := ddl_path_of table_dir in
          match write_file m1 ddl_file_path ddl_text with
          | None =>
              {| st_fs := m1;
                 preview_tasks := preview_tasks st;
                 created_tables := created_tables st |}
          | Some m2 =>
              let preview_file_path := preview_path_of table_dir in
              let table_id := table_id_of catalog schema table in
              let tasks :=
                if enable_preview
                   && should_update_preview m2 ddl_file_path preview_file_path ddl_text
                then preview_tasks st ++ [(table_id, preview_file_path)]
                else preview_tasks st in
              {| st_fs := m2;
                 preview_tasks := tasks;
                 created_tables := S (created_tables st) |}
          end
      end
  | _, _, _, _, _ => st
  end.

Definition sync_rows (base_path : path) (enable_preview : bool) (m : fs)
    (df : list catalog_row) : sync_state :=
  foldl (process_row base_path enable_preview)
        {| st_fs := m; preview_tasks := []; created_tables := 0 |} df.

(** *** The preview pool *)

(** [fetch_and_save_preview]: the filesystem afterwards and whether the
    file was written. *)
Definition fetch_and_save_preview (c : bq_client) (m : fs) (table_id : string)
    (preview_file_path : path) (max_preview_rows : Z) : fs * bool :=
  let preview_content := get_table_preview c table_id max_preview_rows in
  match write_file m preview_file_path preview_content with
  | Some m' => (m', true)
  | None => (m, false)
  end.

(** The tasks of the pool.  A worker calls the remote interface and
    then writes one file, so a run of the pool comes to the writes in
    the order in which the tasks complete; they are taken here in the
    order of the queue. *)
Definition run_pool (c : bq_client) (max_preview_rows : Z) (m : fs)
    (tasks : list (string * path)) : fs :=
  foldl (fun m' task =>
           fst (fetch_and_save_preview c m' (fst task) (snd task) max_preview_rows))
        m tasks.

(** *** The run *)

Inductive completion :=
| Returned
| Raised.

(** The part of [create_table_structure] before the pool: how it ends
    and what the loop leaves.  The filter expressions only shape the
    query, whose result is [information_schema_tables]; the DataFrame
    that [fetch_tables_from_bigquery] returns always has the five
    required columns. *)
Definition synchronize (r : remote) (m : fs) (output_dir : path)
    (enable_preview : bool) : completion * sync_state :=
  let st0 := {| st_fs := m; preview_tasks := []; created_tables := 0 |} in
  match get_billing_project r with
  | None => (Raised, st0)
  | Some _ =>
      match fetch_tables_from_bigquery r with
      | None => (Returned, st0)
      | Some [] => (Returned, st0)
      | Some df =>
          match mkdir m output_dir with
          | None => (Raised, st0)
          | Some m0 => (Returned, sync_rows output_dir enable_preview m0 df)
          end
      end
  end.

(** [create_table_structure]: the loop, then the pool over the tasks
    that the loop has queued. *)
Definition create_table_structure (r : remote) (m : fs) (output_dir : path)
    (enable_preview : bool) (max_preview_rows : Z) : completion * fs :=
  let '(c, st) := synchronize r m output_dir enable_preview in
  (c, run_pool (client r) max_preview_rows (st_fs st) (preview_tasks st)).

(** The command line of [main]. *)
Record args := {
  output : path;
  skip_preview : bool;
  max_preview_rows_arg : Z
}.

(** [exit(main())]: the exit status of the process and the filesystem
    it leaves.  An exception that nothing catches ends the process with
    status 1. *)
Definition main (r : remote) (m : fs) (a : args) : Z * fs :=
  match create_table_structure r m (output a) (negb (skip_preview a))
          (max_preview_rows_arg a) with
  | (Returned, m') => (0, m')
  | (Raised, m') => (1, m')
  end.

End CreateTableStructure.

(** ** add_usage_data.py *)

Module AddUsageData.
Import PyStr FS.

(** A record of [data]: the dictionary that
    [query_information_schema_jobs] builds for a table, its values
    typed as that function fills them.  A field is [None] when the key
    is absent. *)
Record usage_record := {
  table_catalog : option string;
  table_schema : option string;
  table_name : option string;
  top_queries : option (list string);
  total_queries : option Z
}.

(** An entry of the list of high usage tables. *)
Record table_info := {
  ti_table_catalog : string;
  ti_table_schema : string;
  ti_table_name : string;
  ti_total_queries : Z;
  full_table_name : string
}.

(** [record.get(key, "")]. *)
Definition get_str (v : option string) : string :=
  match v with
  | Some s => s
  | None => EmptyString
  end.

(** *** Ranking *)

(** The sort key [(-x["total_queries"], x["full_table_name"])]. *)
Definition sort_key (t : table_info) : Z * string :=
  (- ti_total_queries t, full_table_name t).

(** Python's order on the key tuples. *)
Definition key_leb (a b : Z * string) : bool :=
  (fst a <? fst b) || ((fst a =? fst b) && String.leb (snd a) (snd b)).

(** [list.sort(key=...)] is stable; so is this insertion sort, which
    puts an element in front of the first one that does not come
    before it. *)
Fixpoint insert_sorted (x : table_info) (l : list table_info) : list table_info :=
  match l with
  | [] => [x]
  | y :: l' =>
      if key_leb (sort_key x) (sort_key y) then x :: y :: l'
      else y :: insert_sorted x l'
  end.

Fixpoint sort_by_key (l : list table_info) : list table_info :=
  match l with
  | [] => []
  | x :: l' => insert_sorted x (sort_by_key l')
  end.

(** The entry built for a record, when it has the key
    [total_queries]. *)
Definition table_info_of (record : usage_record) : option table_info :=
  match total_queries record with
  | None => None
  | Some n =>
      Some {| ti_table_catalog := get_str (table_catalog record);
              ti_table_schema := get_str (table_schema record);
              ti_table_name := get_str (table_name record);
              ti_total_queries := n;
              full_table_name :=
                get_str (table_catalog record) +:+ "." +:+
                get_str (table_schema record) +:+ "." +:+
                get_str (table_name record) |}
  end.

(** [create_high_usage_tables_list]. *)
Definition create_high_usage_tables_list (data : list usage_record)
    : list table_info :=
  sort_by_key (omap table_info_of data).

(** *** The leaderboard document *)

(** The line [f"{i:2d}. **{full_table_name}** - {total_queries} queries"]. *)
Definition leaderboard_line (i : nat) (t : table_info) : string :=
  rjust 2 (pretty i) +:+ ". **" +:+ full_table_name t +:+ "** - " +:+
  pretty (ti_total_queries t) +:+ " queries".

(** The tables that the document lists. *)
Definition listed_tables (high_usage_tables : list table_info) : list table_info :=
  firstn 200 high_usage_tables.

(** [markdown_lines] of [save_high_usage_tables_list]. *)
Definition markdown_lines (high_usage_tables : list table_info) : list string :=
  [ "# High Usage Tables - Query Analysis"; EmptyString ] ++
  match high_usage_tables with
  | [] => []
  | _ =>
      [ "## Top 200 Most Used Tables"; EmptyString ] ++
      imap (fun i t => leaderboard_line (S i) t) (listed_tables high_usage_tables) ++
      [ EmptyString ]
  end.

(** The rewriting of the extension of [output_file], on the file name. *)
Definition md_file_name (output_file : string) : string :=
  let f := if endswith output_file ".json"
           then replace ".json" ".md" output_file
           else output_file in
  if endswith f ".md" then f else f +:+ ".md".

(** [save_high_usage_tables_list]: an exception while writing is
    caught and leaves the filesystem as it was.  The grouping by
    catalogue and schema that the function builds first is not used for
    the document. *)
Definition save_high_usage_tables_list (m : fs)
    (high_usage_tables : list table_info) (dir : path) (output_file : string) : fs :=
  match write_file m (dir ++ [md_file_name output_file])
          (join nl (markdown_lines high_usage_tables)) with
  | Some m' => m'
  | None => m
  end.

(** *** The usage artifact *)

(** The lines that [format_usage_queries] adds for the [i]-th query. *)
Definition usage_query_lines (i : nat) (query : string) : list string :=
  [ "-- Query " +:+ pretty i +:+ ":";
    "-- " +:+ repeat_char "-" 50;
    EmptyString;
    strip query;
    EmptyString;
    "-- " +:+ repeat_char "=" 80;
    EmptyString ].

(** [format_usage_queries]. *)
Definition format_usage_queries (queries : list string) : string :=
  match queries with
  | [] => "-- No usage queries found for this table" +:+ nl
  | _ =>
      join nl
        ([ "-- Usage queries for this table";
           "-- Total queries found: " +:+ pretty (length queries);
           EmptyString ] ++
         concat (imap (fun i q => usage_query_lines (S i) q) queries))
  end.

(** The counters that [process_usage_data] reports. *)
Record usage_state := {
  us_fs : fs;
  processed_tables : nat;
  skipped_tables : nat;
  updated_tables : nat
}.

Definition skip_record (st : usage_state) : usage_state :=
  {| us_fs := us_fs st;
     processed_tables := processed_tables st;
     skipped_tables := S (skipped_tables st);
     updated_tables := updated_tables st |}.

(** The body of the loop of [process_usage_data]. *)
Definition process_record (base_path : path) (st : usage_state)
    (record : usage_record) : usage_state :=
  match table_catalog record, table_schema record, table_name record with
  | Some c, Some s, Some t =>
      let catalog := strip c in
      let schema := strip s in
      let table := strip t in
      let queries := match top_queries record with
                     | Some qs => qs
                     | None => []
                     end in
      let total := match total_queries record with
                   | Some n => n
                   | None => Z.of_nat (length queries)
                   end in
      let table_dir := base_path ++ [catalog; schema; table] in
      if negb (exists_ (us_fs st) table_dir) then skip_record st
      else
        let usage_file_path := table_dir ++ ["usage.sql"] in
        let usage_content := format_usage_queries queries in
        let usage_content :=
          if total =? 0 then usage_content
          else replace
                 ("-- Total queries found: " +:+ pretty (length queries))
                 ("-- Total queries found: " +:+ pretty total +:+
                  " (showing top " +:+ pretty (length queries) +:+ ")")
                 usage_content in
        match write_file (us_fs st) usage_file_path usage_content with
        | None => skip_record st
        | Some m' =>
            {| us_fs := m';
               processed_tables := S (processed_tables st);
               skipped_tables := skipped_tables st;
               updated_tables := S (updated_tables st) |}
        end
  | _, _, _ => skip_record st
  end.

(** [process_usage_data]: the leaderboard is written first, from all
    of [data]; the usage artifacts follow when the directory of the
    tables exists. *)
Definition process_usage_data (m : fs) (data : list usage_record)
    (tables_dir : path) : usage_state :=
  let high_usage_tables := create_high_usage_tables_list data in
  let m1 := save_high_usage_tables_list m high_usage_tables tables_dir
              "HIGH_USAGE_TABLES.md" in
  let st0 := {| us_fs := m1; processed_tables := 0;
                skipped_tables := 0; updated_tables := 0 |} in
  if negb (exists_ m1 tables_dir) then st0
  else foldl (process_record tables_dir) st0 data.

(** The process environment and the audit log: [jobs] is the result of
    the query on [INFORMATION_SCHEMA.JOBS], [None] when it raises. *)
Record remote := {
  env_project_id : option string;
  jobs : option (list usage_record)
}.

(** [exit(main())]: every exception is caught and gives status 1. *)
Definition main (r : remote) (m : fs) (arg_project_id : option string)
    (tables_dir : path) : Z * fs :=
  let project :=
    match arg_project_id with
    | Some (String c s) => Some (String c s)
    | _ => match env_project_id r with
           | Some (String c s) => Some (String c s)
           | _ => None
           end
    end in
  match project with
  | None => (1, m)
  | Some _ =>
      match jobs r with
      | None => (1, m)
      | Some data => (0, us_fs (process_usage_data m data tables_dir))
      end
  end.

End AddUsageData.

(** ** run_query.py *)

Module RunQuery.
Import PyStr.

(** What the run does to the world outside, in order: the dry-run
    job, the question put to the user, the query job, the results file
    written and the diagnostics file written. *)
Inductive event :=
| EvDryRun
| EvPrompt
| EvExecute
| EvSaveResults
| EvSaveStats.

#[global] Instance event_eq_dec : EqDecision event.
Proof. solve_decision. Defined.

(** What the run finds outside.  [total_bytes_processed] of the dry-run
    job is an INT64 or [None]. *)
Record world := {
  sql_file : option string;
  client_ok : bool;
  dry_run_job : option (option Z);
  stdin : list string;
  query_ok : bool;
  save_results_ok : bool;
  save_stats_ok : bool
}.

Record args := {
  output_file : option string;
  force : bool
}.

(** How a function ends: it returns a value or the process exits. *)
Inductive result (A : Type) :=
| Ret (a : A)
| Exit (status : Z).
Arguments Ret {A} a.
Arguments Exit {A} status.

(** [float(bytes_processed) / float(1024**3)], as an exact rational:
    dividing by a power of two is exact, and on the INT64 range the
    rounding of [float(bytes_processed)] does not move it across the
    threshold that it is compared with. *)
Definition gb_of_bytes (bytes_processed : Z) : QArith_base.Q :=
  QArith_base.Qdiv (QArith_base.inject_Z bytes_processed)
                   (QArith_base.inject_Z (1024 ^ 3)).

(** [(bytes_processed, gb_processed)] of [perform_dry_run]:
    [sys.exit(1)] when the dry run raises. *)
Definition perform_dry_run (w : world) : result (Z * QArith_base.Q) :=
  match dry_run_job w with
  | None => Exit 1
  | Some None => Ret (0, gb_of_bytes 0)
  | Some (Some b) => Ret (b, gb_of_bytes b)
  end.

(** [gb_processed > 100]. *)
Definition exceeds_threshold (gb_processed : QArith_base.Q) : bool :=
  negb (QArith_base.Qle_bool gb_processed (QArith_base.inject_Z 100)).

(** The [while True] loop of [ask_user_confirmation] over the lines
    that [input] reads; [None] stands for the [EOFError] at the end of
    the input. *)
Fixpoint confirmation_loop (lines : list string) : option bool :=
  match lines with
  | [] => None
  | line :: lines' =>
      let response := lower (strip line) in
      if bool_decide (response = "y") || bool_decide (response = "yes")
      then Some true
      else if bool_decide (response = "n") || bool_decide (response = "no")
              || bool_decide (response = EmptyString)
      then Some false
      else confirmation_loop lines'
  end.

(** [ask_user_confirmation]: the answer and whether the user was
    asked. *)
Definition ask_user_confirmation (gb_processed : QArith_base.Q)
    (lines : list string) : option bool * list event :=
  if exceeds_threshold gb_processed
  then (confirmation_loop lines, [EvPrompt])
  else (Some true, []).

(** The part of [main] after the gate: [run_bigquery_query] and
    [save_results] exit with status 1 when they fail, and
    [save_query_plan_and_stats] only warns. *)
Definition execute_and_persist (w : world) (a : args) : Z * list event :=
  if negb (query_ok w) then (1, [EvExecute])
  else
    let save :=
      match output_file a with
      | Some (String _ _) => true
      | _ => false
      end in
    if save && negb (save_results_ok w) then (1, [EvExecute])
    else
      (0, [EvExecute] ++ (if save then [EvSaveResults] else [])
            ++ (if save_stats_ok w then [EvSaveStats] else [])).

(** [main]: the exit status and the events of the run.  An
    [EOFError] that nothing catches ends the process with status 1. *)
Definition main (w : world) (a : args) : Z * list event :=
  match sql_file w with
  | None => (1, [])
  | Some _ =>
      if negb (client_ok w) then (1, [])
      else if force a then execute_and_persist w a
      else
        match perform_dry_run w with
        | Exit status => (status, [EvDryRun])
        | Ret (_, gb_processed) =>
            match ask_user_confirmation gb_processed (stdin w) with
            | (None, evs) => (1, EvDryRun :: evs)
            | (Some false, evs) => (0, EvDryRun :: evs)
            | (Some true, evs) =>
                let '(status, evs') := execute_and_persist w a in
                (status, EvDryRun :: evs ++ evs')
            end
        end
  end.

End RunQuery.

(** ** config.py and the filters of the catalogue query *)

Module Config.
Import PyStr.

(** The variables that [config.py] reads besides [PROJECT_ID]; a
    variable that is not set is [None]. *)
Record environ := {
  env_bq_region : option string;
  env_dataset_filter_regex : option string;
  env_table_filter_regex : option string
}.

(** The truth value of an optional string: [None] and the empty string
    are false. *)
Definition truthy (v : option string) : bool :=
  match v with
  | Some (String _ _) => true
  | _ => false
  end.

(** [a or b]. *)
Definition py_or (a b : option string) : option string :=
  if truthy a then a else b.

(** [get_bq_region]: [os.getenv("BQ_REGION", "EU")]. *)
Definition get_bq_region (e : environ) : string :=
  match env_bq_region e with
  | Some s => s
  | None => "EU"
  end.

(** [regex if regex and regex.strip() else None]. *)
Definition filter_of_env (regex : option string) : option string :=
  match regex with
  | Some s => if truthy (Some s) && truthy (Some (strip s)) then Some s else None
  | None => None
  end.

(** [get_dataset_filter_regex] and [get_table_filter_regex]. *)
Definition get_dataset_filter_regex (e : environ) : option string :=
  filter_of_env (env_dataset_filter_regex e).

Definition get_table_filter_regex (e : environ) : option string :=
  filter_of_env (env_table_filter_regex e).

(** The two filter options of the command line of both tools; an
    option that is not given is [None]. *)
Record filter_args := {
  dataset_filter : option string;
  table_filter : option string
}.

(** [args.dataset_filter or get_dataset_filter_regex()] and
    [args.table_filter or get_table_filter_regex()] of [main]. *)
Definition dataset_filter_regex_of (a : filter_args) (e : environ) : option string :=
  py_or (dataset_filter a) (get_dataset_filter_regex e).

Definition table_filter_regex_of (a : filter_args) (e : environ) : option string :=
  py_or (table_filter a) (get_table_filter_regex e).

(** [where_conditions] of [fetch_tables_from_bigquery]. *)
Definition where_conditions (dataset_filter_regex table_filter_regex : option string)
    : list string :=
  (if truthy dataset_filter_regex
   then [ "REGEXP_CONTAINS(table_schema, r'" +:+
          default EmptyString dataset_filter_regex +:+ "')" ]
   else []) ++
  (if truthy table_filter_regex
   then [ "REGEXP_CONTAINS(table_name, r'" +:+
          default EmptyString table_filter_regex +:+ "')" ]
   else []).

(** [where_clause] of [fetch_tables_from_bigquery]. *)
Definition where_clause (dataset_filter_regex table_filter_regex : option string)
    : string :=
  match where_conditions dataset_filter_regex table_filter_regex with
  | [] => EmptyString
  | conditions => "WHERE " +:+ join " AND " conditions
  end.

(** [region] of [fetch_tables_from_bigquery]:
    [f"region-{location.lower()}"]. *)
Definition tables_region (e : environ) : string :=
  "region-" +:+ lower (get_bq_region e).

(** [region] of [add_usage_data.main]:
    [args.region or get_bq_region().lower()]; the query names
    [f"region-{region}"]. *)
Definition usage_region (arg_region : option string) (e : environ) : string :=
  match arg_region with
  | Some (String c s) => String c s
  | _ => lower (get_bq_region e)
  end.

Definition jobs_region (arg_region : option string) (e : environ) : string :=
  "region-" +:+ usage_region arg_region e.

End Config.

(** ** Vocabulary of the properties *)

Module Vocabulary.
Import PyStr FS CreateTableStructure.

(** What one turn of the loop leaves of the files that were there. *)
Definition previews_kept (m m' : fs) : Prop :=
  forall dir content,
    read_file m (preview_path_of dir) = Some content ->
    read_file m' (preview_path_of dir) = Some content.

(** The preview of a row is up to date when it is a file whose
    stripped content does not begin with the sentinel. *)
Definition preview_up_to_date (m : fs) (base : path) (row : catalog_row) : Prop :=
  match table_catalog row, table_schema row, wildcard_table_name row with
  | Some c, Some s, Some w =>
      exists content,
        read_file m (preview_path_of (table_dir_of base (strip c) (strip s) (strip w)))
          = Some content /\
        startswith (strip content) error_sentinel = false
  | _, _, _ => True
  end.

(** Nothing turns a directory into a file or a file into a directory,
    and nothing is removed. *)
Definition kinds_kept (m m' : fs) : Prop :=
  forall p,
    (m !! p = Some Dir -> m' !! p = Some Dir) /\
    (is_file m p = true -> is_file m' p = true).


(** The body line of a preview for a sampled row. *)
Definition render_row (field_types : list string) (row : list bq_value) : string :=
  "-- " +:+
  format_fields
    (zip_with (fun v ty => _format_preview_value v ty default_max_length)
       row field_types).

(** [a] does not come after [b] in the ranking. *)
Definition ranks_before (a b : AddUsageData.table_info) : Prop :=
  AddUsageData.key_leb (AddUsageData.sort_key a) (AddUsageData.sort_key b) = true.

End Vocabulary.

(** * Properties *)

(** ** Strings *)

Section StringFacts.
Import PyStr.

Lemma append_cons (a : ascii) (s t : string) :
  String a s +:+ t = String a (s +:+ t).
Proof. reflexivity. Qed.

Lemma append_nil_l (t : string) : EmptyString +:+ t = t.
Proof. reflexivity. Qed.

Lemma append_assoc (s t u : string) : (s +:+ t) +:+ u = s +:+ (t +:+ u).
Proof.
  induction s as [|a s IH]; [done|].
  by rewrite !append_cons, IH.
Qed.

Lemma prefix_app (p s : string) :
  String.prefix p s = true <-> exists r, s = p +:+ r.
Proof.
  revert s. induction p as [|a p IH]; intros s; simpl.
  - destruct s; simpl; split; eauto.
  - destruct s as [|b s]; simpl.
    + split; [discriminate|]. intros [r Hr]. discriminate.
    + destruct (ascii_dec a b) as [->|Hne].
      * rewrite IH. split; intros [r Hr]; exists r.
        -- by rewrite Hr.
        -- by injection Hr.
      * split; [discriminate|]. intros [r Hr]. injection Hr. congruence.
Qed.



Lemma rstrip_cons_nonempty (c : ascii) (s : string) :
  rstrip s <> EmptyString -> rstrip (String c s) = String c (rstrip s).
Proof. simpl. by destruct (rstrip s). Qed.

Lemma rstrip_cons_empty (c : ascii) (s : string) :
  rstrip s = EmptyString ->
  rstrip (String c s) = if is_space c then EmptyString else String c EmptyString.
Proof. simpl. by intros ->. Qed.

Lemma prefix_nonempty (p s : string) :
  p <> EmptyString -> String.prefix p s = true -> s <> EmptyString.
Proof. destruct p, s; done. Qed.

Lemma rstrip_keeps_prefix (p s : string) :
  p <> EmptyString -> rstrip p = p ->
  String.prefix p s = true -> String.prefix p (rstrip s) = true.
Proof.
  revert s. induction p as [|a p IH]; intros s Hne Hp Hs; [done|].
  destruct s as [|b s]; [done|].
  cbn [String.prefix] in Hs.
  destruct (ascii_dec a b) as [<-|]; [|done].
  destruct (decide (rstrip p = EmptyString)) as [Hpe|Hpn].
  - rewrite (rstrip_cons_empty _ _ Hpe) in Hp.
    destruct (is_space a) eqn:Ea; [done|]. injection Hp as <-.
    destruct (decide (rstrip s = EmptyString)) as [Hse|Hsn].
    + rewrite (rstrip_cons_empty _ _ Hse), Ea. cbn.
      by destruct (ascii_dec a a).
    + rewrite (rstrip_cons_nonempty _ _ Hsn). cbn.
      destruct (ascii_dec a a); [|done]. by destruct (rstrip s).
  - rewrite (rstrip_cons_nonempty _ _ Hpn) in Hp. injection Hp as Hp.
    assert (p <> EmptyString) as Hp0 by (intros ->; done).
    specialize (IH s Hp0 Hp Hs).
    rewrite rstrip_cons_nonempty by (eapply prefix_nonempty; eauto).
    cbn. by destruct (ascii_dec a a).
Qed.
(** [rstrip] is [lstrip] read from the other end. *)
Lemma rev_app_append (s acc : string) :
  String.rev_app s acc = String.rev s +:+ acc.
Proof.
  unfold String.rev. revert acc. induction s as [|a s IH]; intros acc; [done|].
  simpl. rewrite (IH (String a acc)), (IH (String a EmptyString)).
  by rewrite append_assoc.
Qed.

Lemma rev_cons (a : ascii) (s : string) :
  String.rev (String a s) = String.rev s +:+ String a EmptyString.
Proof. unfold String.rev at 1. simpl. apply rev_app_append. Qed.

Lemma rev_snoc (a : ascii) (s : string) :
  String.rev (s +:+ String a EmptyString) = String a (String.rev s).
Proof.
  induction s as [|b s IH]; [done|].
  by rewrite append_cons, !rev_cons, IH.
Qed.

Lemma rev_involutive (s : string) : String.rev (String.rev s) = s.
Proof.
  induction s as [|a s IH]; [done|]. by rewrite rev_cons, rev_snoc, IH.
Qed.

Lemma rstrip_snoc (a : ascii) (s : string) :
  rstrip (s +:+ String a EmptyString)
  = if is_space a then rstrip s else s +:+ String a EmptyString.
Proof.
  induction s as [|b s IH].
  - simpl. by destruct (is_space a).
  - rewrite append_cons. cbn [rstrip]. rewrite IH.
    destruct (is_space a); [done|].
    by destruct (s +:+ String a EmptyString) eqn:E; [destruct s|].
Qed.

Lemma rstrip_rev (s : string) :
  rstrip s = String.rev (lstrip (String.rev s)).
Proof.
  rewrite <- (rev_involutive s) at 1.
  induction (String.rev s) as [|a t IH]; [done|].
  rewrite rev_cons, rstrip_snoc. simpl.
  destruct (is_space a); [exact IH|by rewrite rev_cons].
Qed.

End StringFacts.

(** ** The filesystem *)

Section FSFacts.
Import FS.
Implicit Types (m : gmap path node) (p q : path).

Lemma ensure_dir_lookup_some m q p x :
  m !! p = Some x -> ensure_dir m q !! p = Some x.
Proof.
  intros Hp. unfold ensure_dir. destruct (m !! q) eqn:Hq; [done|].
  rewrite lookup_insert_ne; [done|]. congruence.
Qed.

Lemma foldl_ensure_dir_lookup_some qs m p x :
  m !! p = Some x -> foldl ensure_dir m qs !! p = Some x.
Proof.
  revert m. induction qs as [|q qs IH]; intros m Hp; [done|].
  simpl. by apply IH, ensure_dir_lookup_some.
Qed.

(** Creating directories leaves every existing node as it is. *)
Lemma mkdir_parents_lookup_some m m' q p x :
  mkdir_parents m q = Some m' -> m !! p = Some x -> m' !! p = Some x.
Proof.
  unfold mkdir_parents. destruct (existsb _ _); [done|].
  intros [= <-]. apply foldl_ensure_dir_lookup_some.
Qed.

Lemma in_prefixes_self p : p <> [] -> In p (prefixes p).
Proof.
  induction p as [|c p IH]; [done|]. intros _.
  simpl. destruct p as [|c' p]; [by left|].
  right. apply in_map. by apply IH.
Qed.

Lemma foldl_ensure_dir_creates qs m q :
  existsb (is_file m) qs = false -> In q qs ->
  foldl ensure_dir m qs !! q = Some Dir.
Proof.
  revert m. induction qs as [|q0 qs IH]; intros m Hno Hin; [done|].
  simpl in Hno. apply orb_false_iff in Hno as [Hq0 Hno].
  assert (ensure_dir m q0 !! q0 = Some Dir) as Hd.
  { unfold ensure_dir, is_file in *.
    destruct (m !! q0) as [[|c]|] eqn:E; [done|done|].
    apply lookup_insert_eq. }
  simpl. destruct Hin as [->|Hin].
  - by apply foldl_ensure_dir_lookup_some.
  - apply IH; [|done].
    clear -Hno. induction qs as [|q1 qs IH]; [done|].
    simpl in *. apply orb_false_iff in Hno as [H1 Hno].
    rewrite IH by done. rewrite orb_false_r.
    unfold is_file, ensure_dir in *.
    destruct (m !! q0) eqn:E0; [done|].
    destruct (decide (q0 = q1)) as [->|Hne].
    + by rewrite lookup_insert_eq.
    + by rewrite lookup_insert_ne.
Qed.

(** What [ensure_dir] adds is a directory at one of the given paths. *)
Lemma foldl_ensure_dir_lookup_inv qs m p x :
  foldl ensure_dir m qs !! p = Some x ->
  m !! p = Some x \/ (x = Dir /\ In p qs).
Proof.
  revert m. induction qs as [|q qs IH]; intros m H; [by left|].
  simpl in H. apply IH in H as [H|[-> Hin]]; [|right; split; [done|by right]].
  unfold ensure_dir in H. destruct (m !! q) eqn:Hq; [by left|].
  destruct (decide (q = p)) as [->|Hne].
  - rewrite lookup_insert_eq in H. injection H as <-.
    right. split; [done|by left].
  - rewrite lookup_insert_ne in H by done. by left.
Qed.

(** After [mkdir(parents=True)] the path is a directory. *)
Lemma mkdir_parents_is_dir m m' p :
  p <> [] -> mkdir_parents m p = Some m' -> m' !! p = Some Dir.
Proof.
  unfold mkdir_parents. intros Hp.
  destruct (existsb _ _) eqn:Hex; [done|]. intros [= <-].
  apply foldl_ensure_dir_creates; [done|]. by apply in_prefixes_self.
Qed.

Lemma mkdir_lookup_some m m' q p x :
  mkdir m q = Some m' -> m !! p = Some x -> m' !! p = Some x.
Proof.
  unfold mkdir. destruct (m !! q) as [[|c]|] eqn:Hq; [by intros [= <-]|done|].
  destruct q; [by intros [= <-]|].
  destruct (is_dir _ _); [|done]. intros [= <-] Hp.
  rewrite lookup_insert_ne; [done|]. congruence.
Qed.

Lemma write_file_lookup_eq m m' p c :
  write_file m p c = Some m' -> m' !! p = Some (File c).
Proof.
  unfold write_file. destruct p; [done|].
  destruct (_ && _); [|done]. intros [= <-]. apply lookup_insert_eq.
Qed.

Lemma write_file_lookup_ne m m' p c q :
  write_file m p c = Some m' -> q <> p -> m' !! q = m !! q.
Proof.
  unfold write_file. destruct p; [done|].
  destruct (_ && _); [|done]. intros [= <-] Hne.
  by rewrite lookup_insert_ne.
Qed.

Lemma read_file_lookup m p c : read_file m p = Some c <-> m !! p = Some (File c).
Proof.
  unfold read_file. destruct (m !! p) as [[|c']|]; split; congruence.
Qed.

Lemma read_file_exists m p c : read_file m p = Some c -> exists_ m p = true.
Proof.
  rewrite read_file_lookup. unfold exists_. intros ->. by destruct p.
Qed.

End FSFacts.

(** ** Staleness of the preview *)

(** Case analysis on the five cells of a row; [tac] closes the cases
    in which a cell is missing. *)
Ltac row_cells row tac :=
  destruct (CreateTableStructure.table_catalog row) as [?c|]; [|tac];
  destruct (CreateTableStructure.table_schema row) as [?s|]; [|tac];
  destruct (CreateTableStructure.table_name row) as [?t|]; [|tac];
  destruct (CreateTableStructure.wildcard_table_name row) as [?w|]; [|tac];
  destruct (CreateTableStructure.ddl row) as [?d|]; [|tac].

Section Staleness.
Import PyStr FS CreateTableStructure Vocabulary.
Implicit Types (m : gmap path node) (p : path).

(** A preview that begins with the sentinel still does once stripped. *)
Lemma sentinel_survives_strip (content : string) :
  startswith content error_sentinel = true ->
  startswith (strip content) error_sentinel = true.
Proof.
  unfold startswith, strip. intros H.
  assert (lstrip content = content) as ->.
  { apply prefix_app in H as [r ->]. reflexivity. }
  apply rstrip_keeps_prefix; [done|reflexivity|done].
Qed.


(** The decision, case by case. *)
Lemma should_update_preview_spec m ddl_file_path preview_file_path current_ddl :
  should_update_preview m ddl_file_path preview_file_path current_ddl = false <->
  exists content,
    read_file m preview_file_path = Some content /\
    startswith (strip content) error_sentinel = false /\
    (exists_ m ddl_file_path = false \/
     exists content',
       read_file m ddl_file_path = Some content' /\
       strip content' = strip current_ddl).
Proof.
  unfold should_update_preview.
  destruct (exists_ m preview_file_path) eqn:Hex; simpl.
  - destruct (read_file m preview_file_path) as [content|] eqn:Hrd.
    + destruct (startswith (strip content) error_sentinel) eqn:Hst.
      * split; [done|]. intros (c & [= <-] & ? & _). congruence.
      * destruct (exists_ m ddl_file_path) eqn:Hexd.
        -- destruct (read_file m ddl_file_path) as [content'|] eqn:Hrd'.
           ++ rewrite negb_false_iff, bool_decide_eq_true. split.
              ** intros Heq. exists content. eauto 10.
              ** intros (c & _ & _ & [?|(c' & [= <-] & ?)]); done.
           ++ split; [done|].
              intros (c & _ & _ & [?|(c' & ? & ?)]); done.
        -- split; [|done]. intros _. exists content. eauto.
    + split; [done|]. intros (c & ? & _). done.
  - split; [done|]. intros (c & Hc & _).
    apply read_file_exists in Hc. congruence.
Qed.

(** The schema file and the preview of two directories never share a
    path. *)
Lemma preview_path_ne_ddl_path (dir dir' : path) :
  preview_path_of dir <> ddl_path_of dir'.
Proof.
  unfold preview_path_of, ddl_path_of. intros H.
  apply app_inj_tail in H as [_ H]. discriminate.
Qed.

Lemma previews_kept_refl m : previews_kept m m.
Proof. by intros dir content. Qed.

Lemma previews_kept_trans m1 m2 m3 :
  previews_kept m1 m2 -> previews_kept m2 m3 -> previews_kept m1 m3.
Proof. intros H12 H23 dir content H. by apply H23, H12. Qed.

Lemma mkdir_parents_previews_kept m m' q :
  mkdir_parents m q = Some m' -> previews_kept m m'.
Proof.
  intros H dir content. rewrite !read_file_lookup.
  by apply mkdir_parents_lookup_some with (q := q).
Qed.

Lemma write_ddl_previews_kept m m' dir' c :
  write_file m (ddl_path_of dir') c = Some m' -> previews_kept m m'.
Proof.
  intros H dir content. unfold read_file.
  rewrite (write_file_lookup_ne _ _ _ _ _ H); [done|].
  apply preview_path_ne_ddl_path.
Qed.

Lemma process_row_previews_kept base enable st row :
  previews_kept (st_fs st) (st_fs (process_row base enable st row)).
Proof.
  unfold process_row. row_cells row ltac:(apply previews_kept_refl).
  cbv zeta.
  destruct (mkdir_parents _ _) as [m1|] eqn:Hmk; [|apply previews_kept_refl].
  destruct (write_file m1 _ _) as [m2|] eqn:Hwr; cbn [st_fs];
    eauto using previews_kept_trans, mkdir_parents_previews_kept,
      write_ddl_previews_kept.
Qed.

(** Such a row is never queued, whatever the schema file held: the
    schema file is compared after it has been written. *)
Lemma process_row_keeps_queue base enable st row :
  preview_up_to_date (st_fs st) base row ->
  preview_tasks (process_row base enable st row) = preview_tasks st.
Proof.
  unfold preview_up_to_date, process_row. row_cells row ltac:(done).
  intros (content & Hrd & Hst). cbv zeta.
  destruct (mkdir_parents _ _) as [m1|] eqn:Hmk; [|done].
  destruct (write_file m1 _ _) as [m2|] eqn:Hwr; [|done].
  cbn [preview_tasks].
  match goal with
  | |- context [should_update_preview ?a ?b ?c ?e] =>
      assert (should_update_preview a b c e = false) as ->
  end; [|by rewrite andb_false_r].
  apply should_update_preview_spec. exists content. split; [|split; [done|]].
  - eapply write_ddl_previews_kept; [exact Hwr|].
    eapply mkdir_parents_previews_kept; [exact Hmk|]. exact Hrd.
  - right. exists (strip d). split; [|done].
    apply read_file_lookup. eapply write_file_lookup_eq, Hwr.
Qed.

Lemma preview_up_to_date_kept m m' base row :
  previews_kept m m' ->
  preview_up_to_date m base row -> preview_up_to_date m' base row.
Proof.
  unfold preview_up_to_date. intros Hk.
  destruct (table_catalog row); [|done].
  destruct (table_schema row); [|done].
  destruct (wildcard_table_name row); [|done].
  intros (content & Hrd & Hst). exists content. split; [|done].
  by apply Hk.
Qed.

Lemma foldl_process_row_keeps_queue base enable df st :
  Forall (preview_up_to_date (st_fs st) base) df ->
  preview_tasks (foldl (process_row base enable) st df) = preview_tasks st.
Proof.
  revert st. induction df as [|row df IH]; intros st Hall; [done|].
  apply Forall_cons in Hall as [Hrow Hall]. simpl.
  rewrite IH; [by apply process_row_keeps_queue|].
  eapply Forall_impl; [exact Hall|]. intros row'.
  apply preview_up_to_date_kept, process_row_previews_kept.
Qed.

(** A run over previews that are all up to date queues nothing. *)
Lemma sync_rows_queues_nothing base enable m df :
  Forall (preview_up_to_date m base) df ->
  preview_tasks (sync_rows base enable m df) = [].
Proof.
  intros Hall. unfold sync_rows.
  by rewrite foldl_process_row_keeps_queue.
Qed.

End Staleness.

(** ** From one run to the next *)

Section TwoRuns.
Import PyStr FS CreateTableStructure Vocabulary.
Implicit Types (m : gmap path node) (p q : path) (st : sync_state).

(** *** Kinds of nodes are kept *)

Lemma kinds_kept_refl m : kinds_kept m m.
Proof. by intros p. Qed.

Lemma kinds_kept_trans m1 m2 m3 :
  kinds_kept m1 m2 -> kinds_kept m2 m3 -> kinds_kept m1 m3.
Proof.
  intros H12 H23 p. destruct (H12 p) as [Hd Hf], (H23 p) as [Hd' Hf']. auto.
Qed.

Lemma kinds_kept_of_lookup m m' :
  (forall p x, m !! p = Some x -> m' !! p = Some x) -> kinds_kept m m'.
Proof.
  intros H p. split; [apply H|].
  unfold is_file. destruct (m !! p) as [[|c]|] eqn:E; try done.
  by rewrite (H _ _ E).
Qed.

Lemma mkdir_parents_kinds_kept m m' q :
  mkdir_parents m q = Some m' -> kinds_kept m m'.
Proof.
  intros H. apply kinds_kept_of_lookup. intros p x.
  by apply mkdir_parents_lookup_some with (q := q).
Qed.

Lemma mkdir_kinds_kept m m' q : mkdir m q = Some m' -> kinds_kept m m'.
Proof.
  intros H. apply kinds_kept_of_lookup. intros p x.
  by apply mkdir_lookup_some with (q := q).
Qed.

Lemma write_file_kinds_kept m m' p c :
  write_file m p c = Some m' -> kinds_kept m m'.
Proof.
  intros H q. destruct (decide (q = p)) as [->|Hne].
  - pose proof (write_file_lookup_eq _ _ _ _ H) as Hp.
    split; [|by unfold is_file; rewrite Hp].
    revert H. unfold write_file. destruct p as [|a p]; [done|].
    unfold is_dir at 2. intros H Hd. rewrite Hd in H.
    by rewrite andb_false_r in H.
  - unfold is_file. by rewrite (write_file_lookup_ne _ _ _ _ _ H Hne).
Qed.

Lemma process_row_kinds_kept base enable st row :
  kinds_kept (st_fs st) (st_fs (process_row base enable st row)).
Proof.
  unfold process_row. row_cells row ltac:(apply kinds_kept_refl).
  cbv zeta.
  destruct (mkdir_parents _ _) as [m1|] eqn:Hmk; [|apply kinds_kept_refl].
  destruct (write_file m1 _ _) as [m2|] eqn:Hwr; cbn [st_fs];
    eauto using kinds_kept_trans, mkdir_parents_kinds_kept,
      write_file_kinds_kept.
Qed.

Lemma foldl_process_row_kinds_kept base enable df st :
  kinds_kept (st_fs st) (st_fs (foldl (process_row base enable) st df)).
Proof.
  revert st. induction df as [|row df IH]; intros st; [apply kinds_kept_refl|].
  simpl. eapply kinds_kept_trans; [apply process_row_kinds_kept|apply IH].
Qed.

Lemma foldl_process_row_previews_kept base enable df st :
  previews_kept (st_fs st) (st_fs (foldl (process_row base enable) st df)).
Proof.
  revert st. induction df as [|row df IH]; intros st; [apply previews_kept_refl|].
  simpl. eapply previews_kept_trans; [apply process_row_previews_kept|apply IH].
Qed.

Lemma fetch_and_save_preview_kinds_kept (c : bq_client) m table_id p max_rows :
  kinds_kept m (fst (fetch_and_save_preview c m table_id p max_rows)).
Proof.
  unfold fetch_and_save_preview.
  destruct (write_file _ _ _) as [m'|] eqn:Hwr; simpl.
  - eapply write_file_kinds_kept, Hwr.
  - apply kinds_kept_refl.
Qed.

Lemma run_pool_kinds_kept (c : bq_client) max_rows tasks m :
  kinds_kept m (run_pool c max_rows m tasks).
Proof.
  revert m. induction tasks as [|task tasks IH]; intros m; [apply kinds_kept_refl|].
  simpl. eapply kinds_kept_trans; [|apply IH].
  apply fetch_and_save_preview_kinds_kept.
Qed.

(** *** A row that can be processed could be processed before *)

Lemma mkdir_parents_fails_later m m' q :
  kinds_kept m m' -> mkdir_parents m q = None -> mkdir_parents m' q = None.
Proof.
  intros Hk. unfold mkdir_parents.
  destruct (existsb (is_file m) (prefixes q)) eqn:E; [|done]. intros _.
  apply existsb_exists in E as (x & Hin & Hx).
  assert (existsb (is_file m') (prefixes q) = true) as ->; [|done].
  apply existsb_exists. exists x. split; [done|]. by apply Hk.
Qed.

Lemma parent_ddl_path (dir : path) : parent (ddl_path_of dir) = dir.
Proof. unfold parent, ddl_path_of. apply removelast_last. Qed.

Lemma parent_preview_path (dir : path) : parent (preview_path_of dir) = dir.
Proof. unfold parent, preview_path_of. apply removelast_last. Qed.

Lemma write_file_fails_iff m p c :
  p <> [] -> is_dir m (parent p) = true ->
  write_file m p c = None <-> m !! p = Some Dir.
Proof.
  intros Hp Hpar. unfold write_file. destruct p as [|a p]; [done|].
  rewrite Hpar. unfold is_dir.
  destruct (m !! _) as [[|c']|]; simpl; split; done.
Qed.

Lemma row_processed_earlier m m' dir text text' m1' m2' :
  kinds_kept m m' -> dir <> [] ->
  mkdir_parents m' dir = Some m1' ->
  write_file m1' (ddl_path_of dir) text' = Some m2' ->
  exists m1 m2,
    mkdir_parents m dir = Some m1 /\
    write_file m1 (ddl_path_of dir) text = Some m2.
Proof.
  intros Hk Hdir Hmk' Hwr'.
  destruct (mkdir_parents m dir) as [m1|] eqn:Hmk.
  2: { apply (mkdir_parents_fails_later _ _ _ Hk) in Hmk. congruence. }
  exists m1.
  destruct (write_file m1 (ddl_path_of dir) text) as [m2|] eqn:Hwr; [by eauto|].
  exfalso.
  assert (ddl_path_of dir <> []) as Hne by (unfold ddl_path_of; by destruct dir).
  apply write_file_fails_iff in Hwr; [|done|].
  2: { rewrite parent_ddl_path. unfold is_dir.
       rewrite (mkdir_parents_is_dir _ _ _ Hdir Hmk). by destruct dir. }
  assert (m1' !! ddl_path_of dir = Some Dir) as Hd'.
  { revert Hmk Hmk' Hwr. unfold mkdir_parents.
    destruct (existsb (is_file m) _); [done|].
    destruct (existsb (is_file m') _) eqn:E'; [done|].
    intros [= <-] [= <-] Hwr.
    apply foldl_ensure_dir_lookup_inv in Hwr as [Hwr|[_ Hin]].
    - apply foldl_ensure_dir_lookup_some. by apply Hk.
    - by apply foldl_ensure_dir_creates. }
  assert (write_file m1' (ddl_path_of dir) text' = None); [|congruence].
  apply write_file_fails_iff; [done| |done].
  rewrite parent_ddl_path. unfold is_dir.
  rewrite (mkdir_parents_is_dir _ _ _ Hdir Hmk'). by destruct dir.
Qed.

(** *** The queue only grows *)

Lemma process_row_queue_grows base enable st row task :
  task ∈ preview_tasks st -> task ∈ preview_tasks (process_row base enable st row).
Proof.
  unfold process_row. row_cells row ltac:(done).
  cbv zeta.
  destruct (mkdir_parents _ _); [|done].
  destruct (write_file _ _ _); [|done].
  cbn [preview_tasks]. destruct (_ && _); [|done].
  intros H. apply elem_of_app. by left.
Qed.

Lemma foldl_process_row_queue_grows base enable df st task :
  task ∈ preview_tasks st ->
  task ∈ preview_tasks (foldl (process_row base enable) st df).
Proof.
  revert st. induction df as [|row df IH]; intros st H; [done|].
  simpl. by apply IH, process_row_queue_grows.
Qed.

(** *** What the pool writes *)


Lemma write_file_read m m' p c q :
  write_file m p c = Some m' ->
  read_file m' q = if decide (q = p) then Some c else read_file m q.
Proof.
  intros H. unfold read_file. destruct (decide (q = p)) as [->|Hne].
  - by rewrite (write_file_lookup_eq _ _ _ _ H).
  - by rewrite (write_file_lookup_ne _ _ _ _ _ H Hne).
Qed.



(** *** What the first run leaves *)

Lemma table_dir_nonempty (base : path) (catalog schema wildcard : string) :
  table_dir_of base catalog schema wildcard <> [].
Proof. unfold table_dir_of. by destruct base. Qed.

Lemma preview_path_nonempty (dir : path) : preview_path_of dir <> [].
Proof. unfold preview_path_of. by destruct dir. Qed.

Lemma is_dir_lookup m p : m !! p = Some Dir -> is_dir m p = true.
Proof. unfold is_dir. intros ->. by destruct p. Qed.


End TwoRuns.

(** ** The order of the pool *)

Section PoolOrder.
Import PyStr FS CreateTableStructure Vocabulary.
Implicit Types (m : gmap path node) (p q : path).

Lemma write_file_is_dir m m' p c q :
  write_file m p c = Some m' -> is_dir m' q = is_dir m q.
Proof.
  unfold write_file. destruct p as [|a p]; [done|].
  destruct (is_dir m (parent (a :: p))); [|done].
  destruct (is_dir m (a :: p)) eqn:Hp; [done|]. simpl. intros [= <-].
  unfold is_dir in *. destruct q as [|b q]; [done|].
  destruct (decide (a :: p = b :: q)) as [<-|Hne].
  - rewrite lookup_insert_eq. by destruct (m !! _) as [[|c']|].
  - by rewrite lookup_insert_ne.
Qed.

(** Two previews written to different paths can be written in either
    order. *)
Lemma fetch_and_save_preview_commute (c : bq_client) max_rows m id1 p id2 q :
  p <> q ->
  fst (fetch_and_save_preview c
         (fst (fetch_and_save_preview c m id1 p max_rows)) id2 q max_rows)
  = fst (fetch_and_save_preview c
           (fst (fetch_and_save_preview c m id2 q max_rows)) id1 p max_rows).
Proof.
  intros Hne. unfold fetch_and_save_preview.
  set (c1 := get_table_preview c id1 max_rows).
  set (c2 := get_table_preview c id2 max_rows).
  assert (forall m0 p0 c0 m0',
            write_file m0 p0 c0 = Some m0' -> m0' = <[p0 := File c0]> m0) as Hins.
  { intros m0 p0 c0 m0'. unfold write_file. destruct p0; [done|].
    destruct (_ && _); [|done]. by intros [= <-]. }
  assert (forall m0 m0' p0 c0 q0 d0,
            write_file m0 p0 c0 = Some m0' ->
            write_file m0' q0 d0 = None <-> write_file m0 q0 d0 = None) as Hsame.
  { intros m0 m0' p0 c0 q0 d0 H. unfold write_file. destruct q0 as [|b q0]; [done|].
    by rewrite !(write_file_is_dir _ _ _ _ _ H); destruct (_ && _). }
  destruct (write_file m p c1) as [m1|] eqn:H1;
    destruct (write_file m q c2) as [m2|] eqn:H2; cbn [fst].
  - destruct (write_file m1 q c2) as [m12|] eqn:H12.
    2: { apply (Hsame _ _ _ _ _ _ H1) in H12. congruence. }
    destruct (write_file m2 p c1) as [m21|] eqn:H21.
    2: { apply (Hsame _ _ _ _ _ _ H2) in H21. congruence. }
    cbn [fst].
    rewrite (Hins _ _ _ _ H12), (Hins _ _ _ _ H21),
      (Hins _ _ _ _ H1), (Hins _ _ _ _ H2).
    by apply insert_insert_ne.
  - rewrite H1. destruct (write_file m1 q c2) as [m12|] eqn:H12; [|done].
    assert (write_file m1 q c2 = None) by (by apply (Hsame _ _ _ _ _ _ H1)).
    congruence.
  - rewrite H2. destruct (write_file m2 p c1) as [m21|] eqn:H21; [|done].
    assert (write_file m2 p c1 = None) by (by apply (Hsame _ _ _ _ _ _ H2)).
    congruence.
  - by rewrite H1, H2.
Qed.

(** The order in which the pool completes its tasks does not show in
    the filesystem when the tasks write different files. *)
Lemma run_pool_order_irrelevant (c : bq_client) max_rows tasks tasks' m :
  Permutation tasks tasks' -> NoDup (map snd tasks) ->
  run_pool c max_rows m tasks = run_pool c max_rows m tasks'.
Proof.
  intros Hperm. revert m.
  induction Hperm as [|t l l' Hperm IH|t1 t2 l|l l' l'' H1 IH1 H2 IH2];
    intros m Hnd.
  - done.
  - simpl. apply IH. by apply NoDup_cons in Hnd as [_ ?].
  - simpl. f_equal. destruct t1 as [id1 p], t2 as [id2 q]. simpl.
    apply fetch_and_save_preview_commute.
    simpl in Hnd. apply NoDup_cons in Hnd as [Hnin _].
    intros ->. apply Hnin. by left.
  - rewrite IH1 by done. apply IH2.
    assert (map snd l ≡ₚ map snd l') as Hmap by (by apply Permutation_map).
    by rewrite <- Hmap.
Qed.

End PoolOrder.

(** ** The mirror build: claims on the schema file and the preview *)

Section MirrorClaims.
Import PyStr FS CreateTableStructure Vocabulary.
Implicit Types (m : gmap path node) (p : path).

(** A first run over an empty directory writes both schema files and
    queues both previews. *)
Example first_run_on_empty_directory :
  let df := [ {| table_catalog := Some "p"; table_schema := Some "d";
                 table_name := Some "a"; wildcard_table_name := Some "a";
                 ddl := Some "D_A" |};
              {| table_catalog := Some "p"; table_schema := Some "d";
                 table_name := Some "b"; wildcard_table_name := Some "b";
                 ddl := Some "D_B" |} ] in
  let st := sync_rows ["tables"] true (<[ ["tables"] := Dir ]> ∅) df in
  preview_tasks st
  = [ ("p.d.a", ["tables"; "p"; "d"; "a"; "preview.sql"]);
      ("p.d.b", ["tables"; "p"; "d"; "b"; "preview.sql"]) ] /\
  read_file (st_fs st) ["tables"; "p"; "d"; "a"; "ddl.sql"] = Some "D_A" /\
  read_file (st_fs st) ["tables"; "p"; "d"; "b"; "ddl.sql"] = Some "D_B" /\
  created_tables st = 2%nat.
Proof. repeat split; reflexivity. Qed.

(** C5, as amended.  [should_update_preview] returns [True] whenever
    the preview artifact is absent, or its content begins with the
    error sentinel (whatever the schema file holds), or the persisted
    [ddl.sql] content and the current definition text differ once
    leading and trailing white space is stripped from both. *)
Theorem should_update_preview_any_observation
    m ddl_file_path preview_file_path current_ddl :
  exists_ m preview_file_path = false \/
  (exists content,
     read_file m preview_file_path = Some content /\
     startswith content error_sentinel = true) \/
  (exists content',
     read_file m ddl_file_path = Some content' /\
     strip content' <> strip current_ddl) ->
  should_update_preview m ddl_file_path preview_file_path current_ddl = true.
Proof.
  intros H. apply not_false_iff_true. intros Hf.
  apply should_update_preview_spec in Hf as (content & Hrd & Hst & Hddl).
  destruct H as [Habs|[(c & Hc & Hs)|(c' & Hc' & Hne)]].
  - apply read_file_exists in Hrd. congruence.
  - assert (c = content) as -> by congruence.
    apply sentinel_survives_strip in Hs. congruence.
  - destruct Hddl as [Hex|(c'' & Hc'' & Heq)].
    + apply read_file_exists in Hc'. congruence.
    + assert (c'' = c') as -> by congruence. done.
Qed.

Lemma should_update_preview_any_observation_witness :
  let m : gmap path node :=
    <[ ["tables"; "p"; "d"; "t"; "preview.sql"] := File "-- Preview of table: p.d.t" ]>
    (<[ ["tables"; "p"; "d"; "t"; "ddl.sql"] := File "CREATE TABLE t (x INT64);" ]> ∅) in
  (exists content',
     read_file m ["tables"; "p"; "d"; "t"; "ddl.sql"] = Some content' /\
     strip content' <> strip "CREATE TABLE t (x INT64, y STRING);") /\
  should_update_preview m ["tables"; "p"; "d"; "t"; "ddl.sql"]
    ["tables"; "p"; "d"; "t"; "preview.sql"]
    "CREATE TABLE t (x INT64, y STRING);" = true.
Proof.
  intros m.
  assert (exists content',
     read_file m ["tables"; "p"; "d"; "t"; "ddl.sql"] = Some content' /\
     strip content' <> strip "CREATE TABLE t (x INT64, y STRING);") as H.
  { exists "CREATE TABLE t (x INT64);". split; [reflexivity|]. vm_compute. discriminate. }
  split; [exact H|].
  apply should_update_preview_any_observation. right. right. exact H.
Defined.

(** C5, as stated, fails: a schema file that differs from the current
    definition text only by a trailing line feed is not a reason to
    refresh. *)
Lemma should_update_preview_blind_to_outer_whitespace :
  let m : gmap path node :=
    <[ ["tables"; "p"; "d"; "t"; "preview.sql"] := File "-- Preview of table: p.d.t" ]>
    (<[ ["tables"; "p"; "d"; "t"; "ddl.sql"] := File ("CREATE TABLE t (x INT64);" +:+ nl) ]> ∅) in
  read_file m ["tables"; "p"; "d"; "t"; "ddl.sql"]
    = Some ("CREATE TABLE t (x INT64);" +:+ nl) /\
  "CREATE TABLE t (x INT64);" +:+ nl <> "CREATE TABLE t (x INT64);" /\
  should_update_preview m ["tables"; "p"; "d"; "t"; "ddl.sql"]
    ["tables"; "p"; "d"; "t"; "preview.sql"] "CREATE TABLE t (x INT64);" = false.
Proof. intros m. split; [reflexivity|]. split; [discriminate|]. reflexivity. Qed.



(** C2, as amended.  For every catalogue entry that the loop
    processes, [ddl.sql] is written with the entry's definition text
    stripped of leading and trailing white space; it equals the
    definition text character for character when that text has no such
    white space. *)
Theorem ddl_file_holds_stripped_definition base enable st row c s t w d :
  table_catalog row = Some c -> table_schema row = Some s ->
  table_name row = Some t -> wildcard_table_name row = Some w ->
  ddl row = Some d ->
  created_tables (process_row base enable st row) = S (created_tables st) ->
  read_file (st_fs (process_row base enable st row))
    (ddl_path_of (table_dir_of base (strip c) (strip s) (strip w)))
    = Some (strip d) /\
  (strip d = d ->
   read_file (st_fs (process_row base enable st row))
     (ddl_path_of (table_dir_of base (strip c) (strip s) (strip w)))
     = Some d).
Proof.
  intros Hc Hs Ht Hw Hd. unfold process_row.
  rewrite Hc, Hs, Ht, Hw, Hd. cbv zeta.
  destruct (mkdir_parents _ _) as [m1|] eqn:Hmk; [|lia].
  destruct (write_file m1 _ _) as [m2|] eqn:Hwr; cbn [created_tables st_fs]; [|lia].
  intros _.
  assert (read_file m2 (ddl_path_of (table_dir_of base (strip c) (strip s) (strip w)))
          = Some (strip d)) as H.
  { apply read_file_lookup. eapply write_file_lookup_eq, Hwr. }
  split; [exact H|]. intros Heq. by rewrite Heq in H.
Qed.

Lemma ddl_file_holds_stripped_definition_witness :
  let row := {| table_catalog := Some "p"; table_schema := Some "d";
                table_name := Some "t"; wildcard_table_name := Some "t";
                ddl := Some "  CREATE TABLE t (x INT64);" |} in
  let st := {| st_fs := ∅; preview_tasks := []; created_tables := 0 |} in
  created_tables (process_row ["tables"] true st row) = S (created_tables st) /\
  read_file (st_fs (process_row ["tables"] true st row))
    ["tables"; "p"; "d"; "t"; "ddl.sql"] = Some "CREATE TABLE t (x INT64);".
Proof.
  intros row st.
  assert (created_tables (process_row ["tables"] true st row)
          = S (created_tables st)) as H by reflexivity.
  split; [exact H|].
  exact (proj1 (ddl_file_holds_stripped_definition ["tables"] true st row
                  "p" "d" "t" "t" "  CREATE TABLE t (x INT64);"
                  eq_refl eq_refl eq_refl eq_refl eq_refl H)).
Defined.

(** C2, as stated, fails: a definition text that ends with a line feed
    is written without it. *)
Lemma ddl_file_differs_from_definition_text :
  let definition_text := "CREATE TABLE t (x INT64);" +:+ nl in
  let row := {| table_catalog := Some "p"; table_schema := Some "d";
                table_name := Some "t"; wildcard_table_name := Some "t";
                ddl := Some definition_text |} in
  let st := sync_rows ["tables"] true ∅ [row] in
  created_tables st = 1%nat /\
  read_file (st_fs st) ["tables"; "p"; "d"; "t"; "ddl.sql"]
    = Some "CREATE TABLE t (x INT64);" /\
  read_file (st_fs st) ["tables"; "p"; "d"; "t"; "ddl.sql"]
    <> Some definition_text.
Proof.
  intros definition_text row st.
  split; [reflexivity|]. split; [reflexivity|].
  vm_compute. discriminate.
Qed.

(** C1: the code at the failing input.  The schema file holds an older
    definition and the preview is a good one; [should_update_preview]
    asked before the schema file is written answers [True], yet the run
    writes the schema file first and queues nothing. *)
Lemma schema_change_is_not_detected :
  let m : gmap path node :=
    <[ ["tables"; "p"; "d"; "t"; "preview.sql"] := File "-- Preview of table: p.d.t" ]>
    (<[ ["tables"; "p"; "d"; "t"; "ddl.sql"] := File "CREATE TABLE t (x INT64);" ]>
    (<[ ["tables"; "p"; "d"; "t"] := Dir ]>
    (<[ ["tables"; "p"; "d"] := Dir ]>
    (<[ ["tables"; "p"] := Dir ]>
    (<[ ["tables"] := Dir ]> ∅))))) in
  let row := {| table_catalog := Some "p"; table_schema := Some "d";
                table_name := Some "t"; wildcard_table_name := Some "t";
                ddl := Some "CREATE TABLE t (x INT64, y STRING);" |} in
  should_update_preview m ["tables"; "p"; "d"; "t"; "ddl.sql"]
    ["tables"; "p"; "d"; "t"; "preview.sql"]
    "CREATE TABLE t (x INT64, y STRING);" = true /\
  preview_tasks (sync_rows ["tables"] true m [row]) = [] /\
  read_file (st_fs (sync_rows ["tables"] true m [row]))
    ["tables"; "p"; "d"; "t"; "ddl.sql"]
    = Some "CREATE TABLE t (x INT64, y STRING);".
Proof. intros m row. split; [reflexivity|]. split; reflexivity. Qed.

(** C4: the code at the failing input.  When the query on the
    catalogue raises, [create_table_structure] returns without touching
    the filesystem and [main] ends with status 0. *)
Lemma catalog_fetch_failure_exits_zero (c : bq_client) m (a : args) :
  main {| env_project_id := Some "billing-project";
          information_schema_tables := None;
          client := c |} m a = (0, m).
Proof. reflexivity. Qed.

(** The sibling entry point reports a failing query with status 1. *)
Lemma usage_fetch_failure_exits_one m (tables_dir : path) :
  AddUsageData.main
    {| AddUsageData.env_project_id := Some "billing-project";
       AddUsageData.jobs := None |} m None tables_dir = (1, m).
Proof. reflexivity. Qed.

End MirrorClaims.

(** ** The second run *)

Section SecondRun.
Import PyStr FS CreateTableStructure Vocabulary.
Implicit Types (m : gmap path node) (st : sync_state).





End SecondRun.

(** ** The preview artifact *)

Section PreviewClaims.
Import PyStr FS CreateTableStructure Vocabulary.

Lemma substring_is_prefix (n : nat) (s : string) :
  String.prefix (String.substring 0 n s) s = true.
Proof.
  revert n. induction s as [|c s IH]; intros [|n]; simpl; try done.
  destruct (ascii_dec c c); [apply IH|done].
Qed.

Lemma substring_length_le (n : nat) (s : string) :
  (String.length (String.substring 0 n s) <= n)%nat.
Proof.
  revert n. induction s as [|c s IH]; intros [|n]; simpl; try lia.
  specialize (IH n). lia.
Qed.

Lemma format_row_inr row field_types vs :
  format_row row field_types = inr vs ->
  length row = length field_types /\
  vs = zip_with (fun v ty => _format_preview_value v ty default_max_length)
         row field_types.
Proof.
  revert field_types vs.
  induction row as [|v row IH]; intros [|ty tys] vs; simpl; try done.
  - by intros [= <-].
  - destruct (format_row row tys) as [e|vs'] eqn:E; [done|].
    intros [= <-]. destruct (IH _ _ E) as [-> ->]. done.
Qed.

Lemma format_row_same_length row field_types :
  length row = length field_types ->
  format_row row field_types
  = inr (zip_with (fun v ty => _format_preview_value v ty default_max_length)
           row field_types).
Proof.
  revert field_types.
  induction row as [|v row IH]; intros [|ty tys] Hlen; simpl in *; try done.
  rewrite IH by lia. done.
Qed.

Lemma format_rows_same_length rs field_types :
  Forall (fun row => length row = length field_types) rs ->
  format_rows rs field_types = inr (map (render_row field_types) rs).
Proof.
  induction 1 as [|row rs Hrow _ IH]; simpl; [done|].
  rewrite format_row_same_length by done. by rewrite IH.
Qed.

(** C7, as amended.  A field value other than [None] whose string form
    is longer than the cap, or whose declared type is GEOGRAPHY or
    GEOMETRY, is rendered as a prefix of at most the cap length
    followed by the truncation marker; and a preview artifact has one
    body line for each sampled row, the number its header declares,
    whatever is truncated. *)
Theorem preview_truncation_keeps_row_count :
  (forall value field_type max_length,
     value <> VNone -> 0 <= max_length ->
     is_geo field_type = true \/
       max_length < Z.of_nat (String.length (py_str value)) ->
     exists pre,
       _format_preview_value value field_type max_length
         = pre +:+ truncation_marker /\
       String.prefix pre (py_str value) = true /\
       Z.of_nat (String.length pre) <= max_length) /\
  (forall (c : bq_client) table_id max_results t,
     c table_id max_results = inr t -> rows t <> [] ->
     Forall (fun row => length row = length (schema t)) (rows t) ->
     exists body,
       get_table_preview c table_id max_results
         = join nl (preview_header table_id t ++ body) +:+ nl /\
       body = map (render_row (map field_type (schema t))) (rows t) /\
       length body = length (rows t) /\
       preview_header table_id t !! 2%nat
         = Some ("-- Showing first " +:+ pretty (length body) +:+ " rows")).
Proof.
  split.
  - intros value field_type max_length Hv Hmax Hcase.
    exists (slice_to (py_str value) max_length).
    assert (is_geo field_type
            || (max_length <? Z.of_nat (String.length (py_str value))) = true) as Hb.
    { apply orb_true_iff. destruct Hcase as [?|?]; [by left|right].
      by apply Z.ltb_lt. }
    split; [|split].
    + unfold _format_preview_value. destruct value; try done; by rewrite Hb.
    + unfold slice_to. destruct (0 <=? max_length); apply substring_is_prefix.
    + unfold slice_to. destruct (0 <=? max_length) eqn:E; [|lia].
      pose proof (substring_length_le (Z.to_nat max_length) (py_str value)). lia.
  - intros c table_id max_results t Hc Hrows Hall.
    exists (map (render_row (map field_type (schema t))) (rows t)).
    split; [|split; [done|split]].
    + unfold get_table_preview, preview_lines. rewrite Hc.
      destruct (rows t) as [|row rs] eqn:E; [done|].
      rewrite format_rows_same_length; [done|].
      by rewrite length_map.
    + by rewrite length_map.
    + by rewrite length_map.
Qed.

Lemma preview_truncation_keeps_row_count_witness :
  let t := {| num_rows := Some 2;
              schema := [ {| field_name := "id"; field_type := "INT64" |};
                          {| field_name := "area"; field_type := "GEOGRAPHY" |} ];
              rows := [ [VInt 1; VStr "POINT(2.35 48.85)"];
                        [VInt 2; VStr "POLYGON((0 0, 1 0, 1 1, 0 0))"] ] |} in
  (exists pre,
     _format_preview_value (VStr "POINT(2.35 48.85)") "GEOGRAPHY" 100
       = pre +:+ truncation_marker /\
     String.prefix pre "POINT(2.35 48.85)" = true /\
     Z.of_nat (String.length pre) <= 100) /\
  (exists body,
     get_table_preview (fun _ _ => inr t) "p.d.t" 10
       = join nl (preview_header "p.d.t" t ++ body) +:+ nl /\
     length body = 2%nat).
Proof.
  intros t.
  destruct preview_truncation_keeps_row_count as [H1 H2]. split.
  - apply (H1 (VStr "POINT(2.35 48.85)") "GEOGRAPHY" 100); [done|lia|by left].
  - destruct (H2 (fun _ _ => inr t) "p.d.t" 10 t) as (body & Hb & _ & Hlen & _).
    + reflexivity.
    + done.
    + repeat constructor.
    + exists body. split; [exact Hb|exact Hlen].
Defined.

(** C7, as stated, fails: a [None] in a GEOGRAPHY column is rendered as
    [NULL], with no prefix and no truncation marker. *)
Lemma null_geography_is_not_truncated :
  is_geo "GEOGRAPHY" = true /\
  _format_preview_value VNone "GEOGRAPHY" default_max_length = "NULL" /\
  ~ (exists pre, _format_preview_value VNone "GEOGRAPHY" default_max_length
                 = pre +:+ truncation_marker).
Proof.
  split; [reflexivity|]. split; [reflexivity|].
  intros [pre H]. simpl in H.
  assert (String.length "NULL" = String.length (pre +:+ truncation_marker)) as Hlen
    by (by rewrite <- H).
  revert Hlen. clear H.
  assert (forall s u, String.length (s +:+ u) = (String.length s + String.length u)%nat) as Happ.
  { induction s as [|a s IH]; intros u; [done|].
    rewrite append_cons. simpl. by rewrite IH. }
  rewrite Happ. simpl. lia.
Qed.

End PreviewClaims.

(** ** The usage leaderboard *)

Section UsageClaims.
Import PyStr FS AddUsageData Vocabulary.
Implicit Types (a b c : table_info) (l : list table_info).

Lemma ranks_before_spec a b :
  ranks_before a b <->
  ti_total_queries b < ti_total_queries a \/
  (ti_total_queries a = ti_total_queries b /\
   String.leb (full_table_name a) (full_table_name b) = true).
Proof.
  unfold ranks_before, key_leb, sort_key. simpl.
  rewrite orb_true_iff, andb_true_iff, Z.ltb_lt, Z.eqb_eq. intuition lia.
Qed.

Lemma ranks_before_total a b : ranks_before a b \/ ranks_before b a.
Proof.
  rewrite !ranks_before_spec.
  destruct (Z.lt_trichotomy (ti_total_queries a) (ti_total_queries b)) as [?|[?|?]];
    [auto|..|auto].
  destruct (String.leb_total (full_table_name a) (full_table_name b)); auto.
Qed.



Lemma insert_sorted_perm x l : Permutation (insert_sorted x l) (x :: l).
Proof.
  induction l as [|y l IH]; simpl; [done|].
  destruct (key_leb _ _); [done|].
  rewrite IH. apply perm_swap.
Qed.

Lemma sort_by_key_perm l : Permutation (sort_by_key l) l.
Proof.
  induction l as [|x l IH]; simpl; [done|].
  by rewrite insert_sorted_perm, IH.
Qed.



(** The sort is stable: entries with the same key keep the order in
    which they come.  With the two lemmas above this fixes the result
    of [list.sort]. *)
Lemma insert_sorted_stable (k : Z * string) x l :
  filter (fun y => sort_key y = k) (insert_sorted x l)
  = filter (fun y => sort_key y = k) (x :: l).
Proof.
  induction l as [|y l IH]; simpl; [done|].
  destruct (key_leb (sort_key x) (sort_key y)) eqn:E; [done|].
  rewrite filter_cons, IH, !filter_cons.
  destruct (decide (sort_key y = k)) as [Hy|Hy],
           (decide (sort_key x = k)) as [Hx|Hx]; try done.
  exfalso. rewrite Hx, Hy in E.
  destruct (ranks_before_total x x) as [H|H];
    unfold ranks_before in H; rewrite Hx in H; congruence.
Qed.

Lemma sort_by_key_stable (k : Z * string) l :
  filter (fun y => sort_key y = k) (sort_by_key l)
  = filter (fun y => sort_key y = k) l.
Proof.
  induction l as [|x l IH]; simpl; [done|].
  by rewrite insert_sorted_stable, !filter_cons, IH.
Qed.



Example leaderboard_of_two_tables :
  map full_table_name
    (create_high_usage_tables_list
       [ {| table_catalog := Some "p"; table_schema := Some "d";
            table_name := Some "b"; top_queries := Some ["SELECT 2"];
            total_queries := Some 1 |};
         {| table_catalog := Some "p"; table_schema := Some "d";
            table_name := Some "a"; top_queries := Some ["SELECT 1"];
            total_queries := Some 2 |} ])
  = ["p.d.a"; "p.d.b"].
Proof. reflexivity. Qed.



(** *** Which records the leaderboard holds *)

Lemma usage_path_ne_leaderboard_path (dir dir' : path) :
  dir ++ ["usage.sql"] <> dir' ++ ["HIGH_USAGE_TABLES.md"].
Proof. intros H. apply app_inj_tail in H as [_ H]. discriminate. Qed.

Lemma process_record_keeps_leaderboard base st record dir :
  us_fs (process_record base st record) !! (dir ++ ["HIGH_USAGE_TABLES.md"])
  = us_fs st !! (dir ++ ["HIGH_USAGE_TABLES.md"]).
Proof.
  unfold process_record.
  destruct (table_catalog record); [|done].
  destruct (table_schema record); [|done].
  destruct (table_name record); [|done].
  cbv zeta. destruct (negb _); [done|].
  destruct (write_file _ _ _) as [m'|] eqn:Hwr; [|done].
  cbn [us_fs]. eapply write_file_lookup_ne; [exact Hwr|].
  intros H. symmetry in H. by apply usage_path_ne_leaderboard_path in H.
Qed.

Lemma foldl_process_record_keeps_leaderboard base data st dir :
  us_fs (foldl (process_record base) st data) !! (dir ++ ["HIGH_USAGE_TABLES.md"])
  = us_fs st !! (dir ++ ["HIGH_USAGE_TABLES.md"]).
Proof.
  revert st. induction data as [|record data IH]; intros st; [done|].
  simpl. by rewrite IH, process_record_keeps_leaderboard.
Qed.

(** C3, as amended.  The list of high usage tables holds exactly the
    usage records that carry a [total_queries] value, whether or not
    their table directory exists on disk; the leaderboard document is
    rendered from that list and is the same whatever table directories
    exist. *)
Theorem leaderboard_ignores_table_directories :
  (forall data,
     Permutation (create_high_usage_tables_list data) (omap table_info_of data)) /\
  (forall m data tables_dir,
     is_dir m tables_dir = true ->
     is_dir m (tables_dir ++ ["HIGH_USAGE_TABLES.md"]) = false ->
     read_file (us_fs (process_usage_data m data tables_dir))
       (tables_dir ++ ["HIGH_USAGE_TABLES.md"])
     = Some (join nl (markdown_lines (create_high_usage_tables_list data)))).
Proof.
  split.
  - intros data. apply sort_by_key_perm.
  - intros m data tables_dir Hdir Hmd.
    apply read_file_lookup. unfold process_usage_data. cbv zeta.
    assert (md_file_name "HIGH_USAGE_TABLES.md" = "HIGH_USAGE_TABLES.md") as Hname
      by reflexivity.
    assert (save_high_usage_tables_list m (create_high_usage_tables_list data)
              tables_dir "HIGH_USAGE_TABLES.md"
              !! (tables_dir ++ ["HIGH_USAGE_TABLES.md"])
            = Some (File (join nl (markdown_lines (create_high_usage_tables_list data)))))
      as Hsave.
    { unfold save_high_usage_tables_list. rewrite Hname.
      destruct (write_file _ _ _) as [m'|] eqn:Hwr.
      - eapply write_file_lookup_eq, Hwr.
      - exfalso. revert Hwr. unfold write_file, parent.
        rewrite removelast_last, Hdir, Hmd. by destruct tables_dir. }
    destruct (negb _); [exact Hsave|].
    by rewrite foldl_process_record_keeps_leaderboard.
Qed.

Lemma leaderboard_ignores_table_directories_witness :
  let a := {| table_catalog := Some "p"; table_schema := Some "d";
              table_name := Some "a"; top_queries := Some ["SELECT 1"];
              total_queries := Some 2 |} in
  let m : gmap path node :=
    <[ ["tables"; "p"; "d"; "a"] := Dir ]>
    (<[ ["tables"; "p"; "d"] := Dir ]>
    (<[ ["tables"; "p"] := Dir ]>
    (<[ ["tables"] := Dir ]> ∅))) in
  is_dir m ["tables"] = true /\
  is_dir m ["tables"; "HIGH_USAGE_TABLES.md"] = false /\
  read_file (us_fs (process_usage_data m [a] ["tables"]))
    ["tables"; "HIGH_USAGE_TABLES.md"]
  = Some (join nl (markdown_lines (create_high_usage_tables_list [a]))).
Proof.
  intros a m.
  assert (is_dir m ["tables"] = true) as H1 by reflexivity.
  assert (is_dir m ["tables"; "HIGH_USAGE_TABLES.md"] = false) as H2 by reflexivity.
  split; [exact H1|]. split; [exact H2|].
  exact (proj2 leaderboard_ignores_table_directories m [a] ["tables"] H1 H2).
Defined.

(** C3, as stated, fails: a record whose table directory is absent is
    listed in the leaderboard document. *)
Lemma leaderboard_lists_table_without_directory :
  let a := {| table_catalog := Some "p"; table_schema := Some "d";
              table_name := Some "a"; top_queries := Some ["SELECT 1"];
              total_queries := Some 5 |} in
  let m : gmap path node := <[ ["tables"] := Dir ]> ∅ in
  exists_ m ["tables"; "p"; "d"; "a"] = false /\
  read_file (us_fs (process_usage_data m [a] ["tables"]))
    ["tables"; "HIGH_USAGE_TABLES.md"]
  = Some (join nl
            [ "# High Usage Tables - Query Analysis"; EmptyString;
              "## Top 200 Most Used Tables"; EmptyString;
              " 1. **p.d.a** - 5 queries"; EmptyString ]).
Proof. intros a m. split; reflexivity. Qed.

End UsageClaims.

(** ** The cost gate of the query runner *)

Section QueryClaims.
Import PyStr RunQuery.

(** The estimate exceeds 100 GB exactly when the dry run reports more
    than [100 * 1024^3] bytes. *)
Lemma exceeds_threshold_bytes (bytes_processed : Z) :
  exceeds_threshold (gb_of_bytes bytes_processed) = true <->
  100 * 1024 ^ 3 < bytes_processed.
Proof.
  unfold exceeds_threshold, gb_of_bytes.
  rewrite negb_true_iff, <- not_true_iff_false, QArith_base.Qle_bool_iff.
  unfold QArith_base.Qle. simpl. lia.
Qed.

Lemma perform_dry_run_gb (w : world) b gb :
  perform_dry_run w = Ret (b, gb) -> gb = gb_of_bytes b.
Proof.
  unfold perform_dry_run.
  destruct (dry_run_job w) as [[b'|]|]; [| |done]; by intros [= <- <-].
Qed.

Lemma execute_and_persist_no_prompt (w : world) (a : args) :
  ~ In EvPrompt (snd (execute_and_persist w a)).
Proof.
  unfold execute_and_persist.
  destruct (negb (query_ok w)); simpl; [intuition discriminate|].
  destruct (output_file a) as [[|c s]|]; simpl;
    destruct (save_results_ok w), (save_stats_ok w); simpl;
    intuition discriminate.
Qed.

(** C9.  With gating enabled the user is asked for confirmation
    exactly when the dry run estimates more than 100 GB; when the user
    declines, the run ends with exit status 0 after the dry run and the
    question: the query is not executed and neither the results file
    nor the diagnostics file is written. *)
Theorem cost_gate (w : world) (a : args) (q : string) (b : Z) gb :
  sql_file w = Some q -> client_ok w = true -> force a = false ->
  perform_dry_run w = Ret (b, gb) ->
  (In EvPrompt (snd (main w a)) <-> 100 * 1024 ^ 3 < b) /\
  (100 * 1024 ^ 3 < b -> confirmation_loop (stdin w) = Some false ->
   main w a = (0, [EvDryRun; EvPrompt]) /\
   ~ In EvExecute (snd (main w a)) /\
   ~ In EvSaveResults (snd (main w a)) /\
   ~ In EvSaveStats (snd (main w a))).
Proof.
  intros Hsql Hcl Hforce Hdry.
  pose proof (perform_dry_run_gb _ _ _ Hdry) as ->.
  assert (forall P : Z * list event -> Prop,
            P (match ask_user_confirmation (gb_of_bytes b) (stdin w) with
               | (None, evs) => (1, EvDryRun :: evs)
               | (Some false, evs) => (0, EvDryRun :: evs)
               | (Some true, evs) =>
                   let '(status, evs') := execute_and_persist w a in
                   (status, EvDryRun :: evs ++ evs')
               end) -> P (main w a)) as Hmain.
  { intros P HP. unfold main. by rewrite Hsql, Hcl, Hforce, Hdry. }
  split; [split|].
  - intros Hin. apply exceeds_threshold_bytes.
    destruct (exceeds_threshold (gb_of_bytes b)) eqn:E; [done|exfalso].
    revert Hin. apply Hmain. unfold ask_user_confirmation. rewrite E.
    pose proof (execute_and_persist_no_prompt w a) as Hno.
    destruct (execute_and_persist w a) as [status evs']. simpl in *.
    intros [?|?]; [discriminate|done].
  - intros Hlt. apply exceeds_threshold_bytes in Hlt.
    apply Hmain. unfold ask_user_confirmation. rewrite Hlt.
    destruct (confirmation_loop (stdin w)) as [[|]|]; simpl; [|auto..].
    destruct (execute_and_persist w a) as [status evs']. simpl. auto.
  - intros Hlt Hno. apply exceeds_threshold_bytes in Hlt.
    assert (main w a = (0, [EvDryRun; EvPrompt])) as ->.
    { apply Hmain. unfold ask_user_confirmation. by rewrite Hlt, Hno. }
    simpl. intuition discriminate.
Qed.

Lemma cost_gate_witness :
  let w := {| sql_file := Some "SELECT * FROM t";
              client_ok := true;
              dry_run_job := Some (Some (150 * 1024 ^ 3));
              stdin := ["maybe"; " N "];
              query_ok := true;
              save_results_ok := true;
              save_stats_ok := true |} in
  let a := {| output_file := Some "out.csv"; force := false |} in
  100 * 1024 ^ 3 < 150 * 1024 ^ 3 /\
  confirmation_loop (stdin w) = Some false /\
  main w a = (0, [EvDryRun; EvPrompt]).
Proof.
  intros w a.
  assert (100 * 1024 ^ 3 < 150 * 1024 ^ 3) as Hlt by lia.
  assert (confirmation_loop (stdin w) = Some false) as Hno by reflexivity.
  split; [exact Hlt|]. split; [exact Hno|].
  exact (proj1 (proj2 (cost_gate w a "SELECT * FROM t" (150 * 1024 ^ 3)
                         (gb_of_bytes (150 * 1024 ^ 3))
                         eq_refl eq_refl eq_refl eq_refl) Hlt Hno)).
Defined.

End QueryClaims.

(** * Further properties *)

(** ** The mirror build *)

Section MirrorFrame.
Import PyStr FS CreateTableStructure Vocabulary.
Implicit Types (m : gmap path node) (p q : path) (st : sync_state).

(** Creating directories changes the content of no file and creates
    none. *)
Lemma mkdir_parents_read m m' q p :
  mkdir_parents m q = Some m' -> read_file m' p = read_file m p.
Proof.
  unfold mkdir_parents. destruct (existsb _ _); [done|]. intros [= <-].
  unfold read_file. destruct (m !! p) as [x|] eqn:E.
  - by rewrite (foldl_ensure_dir_lookup_some _ _ _ _ E).
  - destruct (foldl ensure_dir m (prefixes q) !! p) as [x|] eqn:E'; [|done].
    apply foldl_ensure_dir_lookup_inv in E' as [E'|[-> _]]; [congruence|done].
Qed.

Lemma mkdir_read m m' q p : mkdir m q = Some m' -> read_file m' p = read_file m p.
Proof.
  unfold mkdir, read_file.
  destruct (m !! q) as [[|c]|] eqn:Hq; [by intros [= <-]|done|].
  destruct q as [|a q]; [by intros [= <-]|].
  destruct (is_dir _ _); [|done]. intros [= <-].
  destruct (decide (a :: q = p)) as [<-|Hne].
  - by rewrite lookup_insert_eq, Hq.
  - by rewrite lookup_insert_ne.
Qed.

Lemma process_row_read base enable st row p :
  (forall dir, p <> ddl_path_of dir) ->
  read_file (st_fs (process_row base enable st row)) p = read_file (st_fs st) p.
Proof.
  intros Hp. unfold process_row. row_cells row ltac:(done). cbv zeta.
  destruct (mkdir_parents _ _) as [m1|] eqn:Hmk; [|done].
  destruct (write_file m1 _ _) as [m2|] eqn:Hwr; cbn [st_fs].
  - rewrite (write_file_read _ _ _ _ _ Hwr).
    destruct (decide _) as [->|_]; [by destruct (Hp _ eq_refl)|].
    by apply mkdir_parents_read with (q := table_dir_of base (strip c) (strip s) (strip w)).
  - by apply mkdir_parents_read with (q := table_dir_of base (strip c) (strip s) (strip w)).
Qed.

Lemma foldl_process_row_read base enable df st p :
  (forall dir, p <> ddl_path_of dir) ->
  read_file (st_fs (foldl (process_row base enable) st df)) p = read_file (st_fs st) p.
Proof.
  intros Hp. revert st. induction df as [|row df IH]; intros st; [done|].
  simpl. by rewrite IH, process_row_read.
Qed.

(** The queue holds preview paths only. *)
Lemma process_row_queue_paths base enable st row :
  Forall (fun task => exists dir, snd task = preview_path_of dir) (preview_tasks st) ->
  Forall (fun task => exists dir, snd task = preview_path_of dir)
    (preview_tasks (process_row base enable st row)).
Proof.
  intros H. unfold process_row. row_cells row ltac:(done). cbv zeta.
  destruct (mkdir_parents _ _); [|done].
  destruct (write_file _ _ _); [|done].
  cbn [preview_tasks]. destruct (_ && _); [|done].
  apply Forall_app. split; [done|]. constructor; [|done]. simpl. eauto.
Qed.

Lemma foldl_process_row_queue_paths base enable df st :
  Forall (fun task => exists dir, snd task = preview_path_of dir) (preview_tasks st) ->
  Forall (fun task => exists dir, snd task = preview_path_of dir)
    (preview_tasks (foldl (process_row base enable) st df)).
Proof.
  revert st. induction df as [|row df IH]; intros st H; [done|].
  simpl. by apply IH, process_row_queue_paths.
Qed.

(** The pool changes the files of its tasks only. *)
Lemma run_pool_read_other (c : bq_client) max_rows tasks m p :
  (forall task, task ∈ tasks -> snd task <> p) ->
  read_file (run_pool c max_rows m tasks) p = read_file m p.
Proof.
  revert m. induction tasks as [|[id q] tasks IH]; intros m H; [done|].
  simpl. rewrite IH.
  - unfold fetch_and_save_preview.
    destruct (write_file m q _) as [m'|] eqn:Hwr; simpl; [|done].
    rewrite (write_file_read _ _ _ _ _ Hwr).
    destruct (decide (p = q)) as [->|]; [|done].
    destruct (H (id, q)); [by left|done].
  - intros task Hin. apply H. by right.
Qed.

Lemma last_ne_ddl_path p :
  last p <> Some "ddl.sql" -> forall dir, p <> ddl_path_of dir.
Proof. intros H dir ->. apply H. unfold ddl_path_of. apply last_snoc. Qed.

Lemma last_ne_preview_path p :
  last p <> Some "preview.sql" -> forall dir, p <> preview_path_of dir.
Proof. intros H dir ->. apply H. unfold preview_path_of. apply last_snoc. Qed.

Lemma synchronize_kinds_kept (r : remote) m output_dir enable :
  kinds_kept m (st_fs (snd (synchronize r m output_dir enable))).
Proof.
  unfold synchronize.
  destruct (get_billing_project r); [|apply kinds_kept_refl].
  destruct (fetch_tables_from_bigquery r) as [[|row df]|];
    try apply kinds_kept_refl.
  destruct (mkdir m output_dir) as [m0|] eqn:Hmk; [|apply kinds_kept_refl].
  cbn [snd]. eapply kinds_kept_trans; [eapply mkdir_kinds_kept, Hmk|].
  unfold sync_rows.
  apply (foldl_process_row_kinds_kept output_dir enable (row :: df)
           {| st_fs := m0; preview_tasks := []; created_tables := 0 |}).
Qed.

Lemma synchronize_read (r : remote) m output_dir enable p :
  last p <> Some "ddl.sql" ->
  read_file (st_fs (snd (synchronize r m output_dir enable))) p = read_file m p.
Proof.
  intros Hp. unfold synchronize.
  destruct (get_billing_project r); [|done].
  destruct (fetch_tables_from_bigquery r) as [[|row df]|]; try done.
  destruct (mkdir m output_dir) as [m0|] eqn:Hmk; [|done].
  cbn [snd]. unfold sync_rows.
  rewrite foldl_process_row_read by (by apply last_ne_ddl_path).
  by apply mkdir_read with (q := output_dir).
Qed.

Lemma synchronize_queue_paths (r : remote) m output_dir enable :
  Forall (fun task => exists dir, snd task = preview_path_of dir)
    (preview_tasks (snd (synchronize r m output_dir enable))).
Proof.
  unfold synchronize.
  destruct (get_billing_project r); [|by constructor].
  destruct (fetch_tables_from_bigquery r) as [[|row df]|]; try by constructor.
  destruct (mkdir m output_dir) as [m0|]; [|by constructor].
  cbn [snd]. unfold sync_rows. apply foldl_process_row_queue_paths. constructor.
Qed.

(** X1.  A run of the mirror build removes nothing and turns no file
    into a directory or directory into a file, and the only files
    whose content it changes or that it creates are named [ddl.sql] or
    [preview.sql]. *)
Theorem run_changes_only_its_artifacts (r : remote) m (output_dir : path)
    (enable : bool) (max_rows : Z) (p : path) :
  last p <> Some "ddl.sql" -> last p <> Some "preview.sql" ->
  kinds_kept m (snd (create_table_structure r m output_dir enable max_rows)) /\
  read_file (snd (create_table_structure r m output_dir enable max_rows)) p
  = read_file m p.
Proof.
  intros Hddl Hprev. unfold create_table_structure.
  pose proof (synchronize_kinds_kept r m output_dir enable) as Hk.
  pose proof (synchronize_read r m output_dir enable p Hddl) as Hr.
  pose proof (synchronize_queue_paths r m output_dir enable) as Hq.
  destruct (synchronize r m output_dir enable) as [c st]. cbn [snd] in *.
  split.
  - eapply kinds_kept_trans; [exact Hk|apply run_pool_kinds_kept].
  - rewrite run_pool_read_other; [done|].
    intros task Hin. rewrite Forall_forall in Hq.
    destruct (Hq _ Hin) as [dir ->]. intros <-.
    by apply (last_ne_preview_path _ Hprev dir).
Qed.

Lemma run_changes_only_its_artifacts_witness :
  let r := {| env_project_id := Some "billing-project";
              information_schema_tables :=
                Some [ {| is_table_catalog := Some "p"; is_table_schema := Some "d";
                          is_table_name := Some "a"; is_ddl := Some "D_A" |} ];
              client := fun _ _ => inl "timeout" |} in
  let m : gmap path node :=
    <[ ["tables"; "p"; "d"; "a"; "usage.sql"] := File "SELECT 1" ]>
    (<[ ["tables"; "p"; "d"; "a"] := Dir ]>
    (<[ ["tables"; "p"; "d"] := Dir ]>
    (<[ ["tables"; "p"] := Dir ]>
    (<[ ["tables"] := Dir ]> ∅)))) in
  last ["tables"; "p"; "d"; "a"; "usage.sql"] <> Some "ddl.sql" /\
  last ["tables"; "p"; "d"; "a"; "usage.sql"] <> Some "preview.sql" /\
  read_file (snd (create_table_structure r m ["tables"] true 10))
    ["tables"; "p"; "d"; "a"; "usage.sql"] = Some "SELECT 1".
Proof.
  intros r m.
  assert (last ["tables"; "p"; "d"; "a"; "usage.sql"] <> Some "ddl.sql") as H1
    by (vm_compute; discriminate).
  assert (last ["tables"; "p"; "d"; "a"; "usage.sql"] <> Some "preview.sql") as H2
    by (vm_compute; discriminate).
  split; [exact H1|]. split; [exact H2|].
  etransitivity;
    [exact (proj2 (run_changes_only_its_artifacts r m ["tables"] true 10
                     ["tables"; "p"; "d"; "a"; "usage.sql"] H1 H2))|reflexivity].
Defined.

(** X2.  With previews disabled the loop queues nothing, and the run
    leaves every file that is not named [ddl.sql] as it was: no
    preview is written, replaced or created. *)
Theorem skip_preview_touches_no_preview (r : remote) m (output_dir : path)
    (max_rows : Z) (p : path) :
  last p <> Some "ddl.sql" ->
  preview_tasks (snd (synchronize r m output_dir false)) = [] /\
  read_file (snd (create_table_structure r m output_dir false max_rows)) p
  = read_file m p.
Proof.
  intros Hddl.
  assert (forall l st, preview_tasks (foldl (process_row output_dir false) st l)
                       = preview_tasks st) as Hfold.
  { induction l as [|x l IH]; intros st; [done|]. simpl. rewrite IH.
    unfold process_row. row_cells x ltac:(done). cbv zeta.
    destruct (mkdir_parents _ _); [|done]. by destruct (write_file _ _ _). }
  assert (preview_tasks (snd (synchronize r m output_dir false)) = []) as Hq.
  { unfold synchronize.
    destruct (get_billing_project r); [|done].
    destruct (fetch_tables_from_bigquery r) as [[|row df]|]; try done.
    destruct (mkdir m output_dir) as [m0|]; [|done].
    cbn [snd]. unfold sync_rows. by rewrite Hfold. }
  split; [exact Hq|].
  unfold create_table_structure.
  pose proof (synchronize_read r m output_dir false p Hddl) as Hr.
  destruct (synchronize r m output_dir false) as [c st]. cbn [snd] in *.
  by rewrite Hq.
Qed.

Lemma skip_preview_touches_no_preview_witness :
  let r := {| env_project_id := Some "billing-project";
              information_schema_tables :=
                Some [ {| is_table_catalog := Some "p"; is_table_schema := Some "d";
                          is_table_name := Some "a"; is_ddl := Some "D_A" |} ];
              client := fun _ _ => inl "timeout" |} in
  let m : gmap path node :=
    <[ ["tables"; "p"; "d"; "a"; "preview.sql"] :=
         File "-- Error retrieving preview for p.d.a: quota" ]>
    (<[ ["tables"; "p"; "d"; "a"] := Dir ]>
    (<[ ["tables"; "p"; "d"] := Dir ]>
    (<[ ["tables"; "p"] := Dir ]>
    (<[ ["tables"] := Dir ]> ∅)))) in
  last ["tables"; "p"; "d"; "a"; "preview.sql"] <> Some "ddl.sql" /\
  read_file (snd (create_table_structure r m ["tables"] false 10))
    ["tables"; "p"; "d"; "a"; "preview.sql"]
  = Some "-- Error retrieving preview for p.d.a: quota".
Proof.
  intros r m.
  assert (last ["tables"; "p"; "d"; "a"; "preview.sql"] <> Some "ddl.sql") as H1
    by (vm_compute; discriminate).
  split; [exact H1|].
  etransitivity;
    [exact (proj2 (skip_preview_touches_no_preview r m ["tables"] 10
                     ["tables"; "p"; "d"; "a"; "preview.sql"] H1))|reflexivity].
Defined.

End MirrorFrame.

(** ** The loop and the pool *)

Section MirrorLoop.
Import PyStr FS CreateTableStructure Vocabulary.
Implicit Types (m : gmap path node) (p q : path) (st : sync_state).

(** X3.  The loop counts at most one created table for each row of the
    catalogue and queues at most one preview for each table it counts. *)
Theorem loop_counters_bounded (base : path) (enable : bool) m
    (df : list catalog_row) :
  (length (preview_tasks (sync_rows base enable m df))
   <= created_tables (sync_rows base enable m df))%nat /\
  (created_tables (sync_rows base enable m df) <= length df)%nat.
Proof.
  unfold sync_rows.
  set (st0 := {| st_fs := m; preview_tasks := []; created_tables := 0 |}).
  assert (forall l st,
            (length (preview_tasks st) <= created_tables st)%nat ->
            (length (preview_tasks (foldl (process_row base enable) st l))
             <= created_tables (foldl (process_row base enable) st l))%nat /\
            (created_tables (foldl (process_row base enable) st l)
             <= created_tables st + length l)%nat) as H.
  { induction l as [|row l IH]; intros st Hst; [simpl; lia|].
    simpl.
    assert ((length (preview_tasks (process_row base enable st row))
             <= created_tables (process_row base enable st row))%nat /\
            (created_tables (process_row base enable st row)
             <= S (created_tables st))%nat) as [H1 H2].
    { unfold process_row. row_cells row ltac:(lia). cbv zeta.
      destruct (mkdir_parents _ _); [|lia].
      destruct (write_file _ _ _); cbn [preview_tasks created_tables]; [|lia].
      destruct (_ && _); [rewrite length_app; simpl|]; lia. }
    destruct (IH _ H1) as [H3 H4]. split; [done|lia]. }
  destruct (H df st0) as [H1 H2]; [simpl; lia|]. split; [done|]. simpl in H2. lia.
Qed.

(** X4.  A row with a missing cell is skipped without a trace: the
    loop over a catalogue gives the same filesystem, queue and count
    with the row as without it, so the rows after it are processed as if
    it were not there. *)
Theorem row_with_missing_cell_is_transparent (base : path) (enable : bool) m
    (before after : list catalog_row) (row : catalog_row) :
  table_catalog row = None \/ table_schema row = None \/ table_name row = None \/
    wildcard_table_name row = None \/ ddl row = None ->
  sync_rows base enable m (before ++ row :: after)
  = sync_rows base enable m (before ++ after).
Proof.
  intros Hmiss. unfold sync_rows. rewrite !foldl_app. simpl. f_equal.
  unfold process_row.
  destruct (table_catalog row), (table_schema row), (table_name row),
    (wildcard_table_name row), (ddl row); try done;
    destruct Hmiss as [?|[?|[?|[?|?]]]]; done.
Qed.

Lemma row_with_missing_cell_is_transparent_witness :
  let a := {| table_catalog := Some "p"; table_schema := Some "d";
              table_name := Some "a"; wildcard_table_name := Some "a";
              ddl := Some "D_A" |} in
  let bad := {| table_catalog := Some "p"; table_schema := Some "d";
                table_name := Some "x"; wildcard_table_name := Some "x";
                ddl := None |} in
  let b := {| table_catalog := Some "p"; table_schema := Some "d";
              table_name := Some "b"; wildcard_table_name := Some "b";
              ddl := Some "D_B" |} in
  ddl bad = None /\
  sync_rows ["tables"] true ∅ ([a] ++ bad :: [b])
  = sync_rows ["tables"] true ∅ ([a] ++ [b]).
Proof.
  intros a bad b.
  assert (ddl bad = None) as H by reflexivity.
  split; [exact H|].
  apply row_with_missing_cell_is_transparent. do 4 right. exact H.
Defined.

(** *** What the pool leaves *)

Lemma run_pool_lookup_dir_inv (c : bq_client) max_rows tasks m p :
  run_pool c max_rows m tasks !! p = Some Dir -> m !! p = Some Dir.
Proof.
  revert m. induction tasks as [|[id q] tasks IH]; intros m H; [done|].
  simpl in H. apply IH in H. revert H. unfold fetch_and_save_preview.
  destruct (write_file m q _) as [m'|] eqn:Hwr; simpl; [|done].
  destruct (decide (p = q)) as [->|Hne].
  - by rewrite (write_file_lookup_eq _ _ _ _ Hwr).
  - by rewrite (write_file_lookup_ne _ _ _ _ _ Hwr Hne).
Qed.

Lemma run_pool_app (c : bq_client) max_rows tasks tasks' m :
  run_pool c max_rows m (tasks ++ tasks')
  = run_pool c max_rows (run_pool c max_rows m tasks) tasks'.
Proof. unfold run_pool. apply foldl_app. Qed.

Lemma run_pool_writes_queued (c : bq_client) max_rows tasks m id p :
  (id, p) ∈ tasks -> p <> [] -> is_dir m (parent p) = true ->
  m !! p <> Some Dir ->
  exists id',
    (id', p) ∈ tasks /\
    read_file (run_pool c max_rows m tasks) p
    = Some (get_table_preview c id' max_rows).
Proof.
  intros Hin Hp Hpar Hnd. revert id Hin.
  induction tasks as [|[id1 q] tasks IH] using rev_ind; intros id Hin.
  - by apply elem_of_nil in Hin.
  - rewrite run_pool_app. simpl.
    set (m1 := run_pool c max_rows m tasks).
    assert (is_dir m1 (parent p) = true) as Hpar1.
    { destruct (parent p) as [|a pp] eqn:E; [done|].
      apply is_dir_lookup. apply (run_pool_kinds_kept c max_rows tasks m).
      unfold is_dir in Hpar. by destruct (m !! _) as [[|?]|]. }
    assert (m1 !! p <> Some Dir) as Hnd1.
    { intros H. by apply run_pool_lookup_dir_inv in H. }
    destruct (decide (q = p)) as [->|Hne].
    + exists id1. split; [apply elem_of_app; right; by left|].
      unfold fetch_and_save_preview.
      destruct (write_file m1 p _) as [m2|] eqn:Hwr; simpl.
      * rewrite (write_file_read _ _ _ _ _ Hwr). by destruct (decide (p = p)).
      * by apply write_file_fails_iff in Hwr.
    + apply elem_of_app in Hin as [Hin|Hin].
      2: { apply list_elem_of_singleton in Hin. congruence. }
      destruct (IH _ Hin) as (id' & Hin' & Hrd).
      exists id'. split; [apply elem_of_app; by left|].
      unfold fetch_and_save_preview.
      destruct (write_file m1 q _) as [m2|] eqn:Hwr; simpl; [|done].
      rewrite (write_file_read _ _ _ _ _ Hwr). by destruct (decide (p = q)).
Qed.

(** The directory of a queued preview exists. *)
Lemma foldl_process_row_queue_dirs base enable df st :
  Forall (fun task => exists dir, snd task = preview_path_of dir /\
                                  st_fs st !! dir = Some Dir) (preview_tasks st) ->
  Forall (fun task => exists dir, snd task = preview_path_of dir /\
            st_fs (foldl (process_row base enable) st df) !! dir = Some Dir)
    (preview_tasks (foldl (process_row base enable) st df)).
Proof.
  revert st. induction df as [|row df IH]; intros st H; [done|].
  simpl. apply IH.
  pose proof (process_row_kinds_kept base enable st row) as Hk.
  assert (Forall (fun task => exists dir, snd task = preview_path_of dir /\
            st_fs (process_row base enable st row) !! dir = Some Dir)
            (preview_tasks st)) as H'.
  { eapply Forall_impl; [exact H|]. intros task (dir & ? & Hd).
    exists dir. split; [done|]. by apply Hk. }
  clear H. revert H' Hk. unfold process_row. row_cells row ltac:(done). cbv zeta.
  destruct (mkdir_parents _ _) as [m1|] eqn:Hmk; [|done].
  destruct (write_file m1 _ _) as [m2|] eqn:Hwr; [|done].
  cbn [preview_tasks st_fs]. intros H' Hk.
  destruct (_ && _); [|done].
  apply Forall_app. split; [done|]. constructor; [|done]. simpl.
  eexists. split; [done|].
  eapply write_file_kinds_kept; [exact Hwr|].
  by apply (mkdir_parents_is_dir _ _ _ (table_dir_nonempty _ _ _ _) Hmk).
Qed.

(** X5.  Every preview that the loop has queued is written by the
    pool, unless a directory stands at its path: after the run the
    file holds the preview that [get_table_preview] renders for a queued
    task of that path. *)
Theorem queued_previews_are_written (r : remote) m (output_dir : path)
    (max_rows : Z) (id : string) (p : path) :
  (id, p) ∈ preview_tasks (snd (synchronize r m output_dir true)) ->
  st_fs (snd (synchronize r m output_dir true)) !! p <> Some Dir ->
  exists id',
    (id', p) ∈ preview_tasks (snd (synchronize r m output_dir true)) /\
    read_file (snd (create_table_structure r m output_dir true max_rows)) p
    = Some (get_table_preview (client r) id' max_rows).
Proof.
  intros Hin Hnd. unfold create_table_structure.
  assert (Forall (fun task => exists dir, snd task = preview_path_of dir /\
            st_fs (snd (synchronize r m output_dir true)) !! dir = Some Dir)
            (preview_tasks (snd (synchronize r m output_dir true)))) as Hdirs.
  { unfold synchronize.
    destruct (get_billing_project r); [|by constructor].
    destruct (fetch_tables_from_bigquery r) as [[|row df]|]; try by constructor.
    destruct (mkdir m output_dir) as [m0|]; [|by constructor].
    cbn [snd]. unfold sync_rows. apply foldl_process_row_queue_dirs. constructor. }
  destruct (synchronize r m output_dir true) as [c st]. cbn [snd] in *.
  rewrite Forall_forall in Hdirs. destruct (Hdirs _ Hin) as (dir & Hp & Hd).
  simpl in Hp. subst p.
  apply (run_pool_writes_queued (client r) max_rows (preview_tasks st) (st_fs st) id);
    [done|apply preview_path_nonempty| |done].
  rewrite parent_preview_path. by apply is_dir_lookup.
Qed.

Lemma queued_previews_are_written_witness :
  let r := {| env_project_id := Some "billing-project";
              information_schema_tables :=
                Some [ {| is_table_catalog := Some "p"; is_table_schema := Some "d";
                          is_table_name := Some "a"; is_ddl := Some "D_A" |} ];
              client := fun _ _ => inl "quota exceeded" |} in
  let p := ["tables"; "p"; "d"; "a"; "preview.sql"] in
  ("p.d.a", p) ∈ preview_tasks (snd (synchronize r ∅ ["tables"] true)) /\
  st_fs (snd (synchronize r ∅ ["tables"] true)) !! p <> Some Dir /\
  exists id',
    read_file (snd (create_table_structure r ∅ ["tables"] true 10)) p
    = Some (get_table_preview (client r) id' 10).
Proof.
  intros r p.
  assert (("p.d.a", p) ∈ preview_tasks (snd (synchronize r ∅ ["tables"] true))) as H1
    by (vm_compute; by left).
  assert (st_fs (snd (synchronize r ∅ ["tables"] true)) !! p <> Some Dir) as H2
    by (vm_compute; discriminate).
  split; [exact H1|]. split; [exact H2|].
  destruct (queued_previews_are_written r ∅ ["tables"] 10 "p.d.a" p H1 H2)
    as (id' & _ & H).
  by exists id'.
Defined.

End MirrorLoop.

(** ** Failed previews and edge cases of the staleness decision *)

Section MirrorRetry.
Import PyStr FS CreateTableStructure Vocabulary.
Implicit Types (m : gmap path node) (p q : path) (st : sync_state).

Lemma format_row_diff_length row field_types :
  length row <> length field_types ->
  exists e, format_row row field_types = inl e.
Proof.
  revert field_types.
  induction row as [|v row IH]; intros [|ty tys] Hlen; simpl in *; try done; eauto.
  destruct (IH tys) as [e ->]; [lia|]. eauto.
Qed.

Lemma format_rows_diff_length rs field_types :
  Exists (fun row => length row <> length field_types) rs ->
  exists e, format_rows rs field_types = inl e.
Proof.
  induction 1 as [row rs Hrow|row rs _ [e IH]]; simpl.
  - destruct (format_row_diff_length _ _ Hrow) as [e ->]. eauto.
  - destruct (format_row row field_types); [eauto|]. rewrite IH. eauto.
Qed.

Lemma error_preview_startswith_sentinel table_id e :
  startswith (error_preview table_id e) error_sentinel = true.
Proof. unfold startswith, error_preview. apply prefix_app. eauto. Qed.

(** X6.  [get_table_preview] never lets a failure through: when the
    remote call raises, or a sampled row has not as many values as the
    schema has fields, the preview is the error text for the table,
    which begins with the error sentinel. *)
Theorem fetch_failure_gives_sentinel (c : bq_client) (table_id : string)
    (max_results : Z) :
  (exists e, c table_id max_results = inl e) \/
  (exists t, c table_id max_results = inr t /\
             Exists (fun row => length row <> length (schema t)) (rows t)) ->
  (exists e, get_table_preview c table_id max_results = error_preview table_id e) /\
  startswith (get_table_preview c table_id max_results) error_sentinel = true.
Proof.
  intros H.
  assert (exists e, get_table_preview c table_id max_results
                    = error_preview table_id e) as [e He].
  { unfold get_table_preview. destruct H as [[e ->]|(t & -> & Hex)]; [eauto|].
    destruct (rows t) as [|row rs] eqn:E; [by apply Exists_nil in Hex|].
    unfold preview_lines. rewrite E.
    destruct (format_rows_diff_length (row :: rs) (map field_type (schema t)))
      as [e ->]; [|eauto].
    eapply Exists_impl; [exact Hex|]. intros x. by rewrite length_map. }
  split; [eauto|]. rewrite He. apply error_preview_startswith_sentinel.
Qed.

Lemma fetch_failure_gives_sentinel_witness :
  let c : bq_client :=
    fun _ _ => inr {| num_rows := Some 1;
                      schema := [ {| field_name := "id"; field_type := "INT64" |};
                                  {| field_name := "name"; field_type := "STRING" |} ];
                      rows := [ [VInt 1] ] |} in
  startswith (get_table_preview c "p.d.t" 10) error_sentinel = true.
Proof.
  intros c.
  refine (proj2 (fetch_failure_gives_sentinel c "p.d.t" 10 _)).
  right. eexists. split; [reflexivity|]. left. simpl. lia.
Defined.

(** X7.  A table whose preview begins with the error sentinel is queued
    again by the next run that processes its row, whatever its schema
    file holds: the task is appended to the queue with the table id and
    the path of the preview. *)
Theorem sentinel_preview_is_queued_again (base : path) st (row : catalog_row)
    (c s t w d content : string) :
  table_catalog row = Some c -> table_schema row = Some s ->
  table_name row = Some t -> wildcard_table_name row = Some w ->
  ddl row = Some d ->
  read_file (st_fs st)
    (preview_path_of (table_dir_of base (strip c) (strip s) (strip w)))
    = Some content ->
  startswith content error_sentinel = true ->
  created_tables (process_row base true st row) = S (created_tables st) ->
  preview_tasks (process_row base true st row)
  = preview_tasks st
    ++ [(table_id_of (strip c) (strip s) (strip t),
         preview_path_of (table_dir_of base (strip c) (strip s) (strip w)))].
Proof.
  intros Hc Hs Ht Hw Hd Hrd Hst. unfold process_row.
  rewrite Hc, Hs, Ht, Hw, Hd. cbv zeta.
  destruct (mkdir_parents _ _) as [m1|] eqn:Hmk; [|lia].
  destruct (write_file m1 _ _) as [m2|] eqn:Hwr;
    cbn [created_tables preview_tasks]; [|lia].
  intros _.
  match goal with
  | |- context [should_update_preview ?a ?b ?e ?f] =>
      assert (should_update_preview a b e f = true) as ->; [|done]
  end.
  apply not_false_iff_true. intros Hf.
  apply should_update_preview_spec in Hf as (content' & Hrd' & Hst' & _).
  assert (read_file m2 (preview_path_of (table_dir_of base (strip c) (strip s) (strip w)))
          = Some content) as Hrd2.
  { eapply write_ddl_previews_kept; [exact Hwr|].
    eapply mkdir_parents_previews_kept; [exact Hmk|]. exact Hrd. }
  assert (content' = content) as -> by congruence.
  apply sentinel_survives_strip in Hst. congruence.
Qed.

Lemma sentinel_preview_is_queued_again_witness :
  let row := {| table_catalog := Some "p"; table_schema := Some "d";
                table_name := Some "t"; wildcard_table_name := Some "t";
                ddl := Some "CREATE TABLE t (x INT64);" |} in
  let m : gmap path node :=
    <[ ["tables"; "p"; "d"; "t"; "preview.sql"] :=
         File (error_preview "p.d.t" "quota exceeded") ]>
    (<[ ["tables"; "p"; "d"; "t"; "ddl.sql"] := File "CREATE TABLE t (x INT64);" ]>
    (<[ ["tables"; "p"; "d"; "t"] := Dir ]>
    (<[ ["tables"; "p"; "d"] := Dir ]>
    (<[ ["tables"; "p"] := Dir ]>
    (<[ ["tables"] := Dir ]> ∅))))) in
  let st := {| st_fs := m; preview_tasks := []; created_tables := 0 |} in
  created_tables (process_row ["tables"] true st row) = 1%nat /\
  preview_tasks (process_row ["tables"] true st row)
  = [("p.d.t", ["tables"; "p"; "d"; "t"; "preview.sql"])].
Proof.
  intros row m st.
  assert (created_tables (process_row ["tables"] true st row) = 1%nat) as H
    by reflexivity.
  split; [exact H|].
  exact (sentinel_preview_is_queued_again ["tables"] st row "p" "d" "t" "t"
           "CREATE TABLE t (x INT64);" (error_preview "p.d.t" "quota exceeded")
           eq_refl eq_refl eq_refl eq_refl eq_refl eq_refl eq_refl H).
Defined.

(** X8.  Edge cases of [should_update_preview]: a preview path or a
    schema path at which a directory stands cannot be read, and the
    answer is [True]; a good preview beside which the schema file is
    missing is kept, the answer is [False]. *)
Theorem should_update_preview_unreadable_or_missing
    m (ddl_file_path preview_file_path : path) (current_ddl : string) :
  (m !! preview_file_path = Some Dir ->
   should_update_preview m ddl_file_path preview_file_path current_ddl = true) /\
  (m !! ddl_file_path = Some Dir ->
   should_update_preview m ddl_file_path preview_file_path current_ddl = true) /\
  (forall content,
     read_file m preview_file_path = Some content ->
     startswith (strip content) error_sentinel = false ->
     exists_ m ddl_file_path = false ->
     should_update_preview m ddl_file_path preview_file_path current_ddl = false).
Proof.
  split; [|split].
  - intros Hd. apply not_false_iff_true. intros Hf.
    apply should_update_preview_spec in Hf as (content & Hrd & _).
    apply read_file_lookup in Hrd. congruence.
  - intros Hd. apply not_false_iff_true. intros Hf.
    apply should_update_preview_spec in Hf
      as (content & _ & _ & [Hex|(content' & Hrd & _)]).
    + unfold exists_ in Hex. rewrite Hd in Hex. by destruct ddl_file_path.
    + apply read_file_lookup in Hrd. congruence.
  - intros content Hrd Hst Hex. apply should_update_preview_spec. eauto.
Qed.

Lemma should_update_preview_unreadable_or_missing_witness :
  let good : gmap path node :=
    <[ ["t"; "preview.sql"] := File "-- Preview of table: p.d.t" ]> ∅ in
  let dir_at_preview : gmap path node := <[ ["t"; "preview.sql"] := Dir ]> ∅ in
  should_update_preview dir_at_preview ["t"; "ddl.sql"] ["t"; "preview.sql"] "D" = true /\
  exists_ good ["t"; "ddl.sql"] = false /\
  should_update_preview good ["t"; "ddl.sql"] ["t"; "preview.sql"] "D" = false.
Proof.
  intros good dir_at_preview.
  destruct (should_update_preview_unreadable_or_missing dir_at_preview
              ["t"; "ddl.sql"] ["t"; "preview.sql"] "D") as (H1 & _ & _).
  destruct (should_update_preview_unreadable_or_missing good
              ["t"; "ddl.sql"] ["t"; "preview.sql"] "D") as (_ & _ & H3).
  split; [apply H1; reflexivity|]. split; [reflexivity|].
  eapply H3; reflexivity.
Defined.

(** X9.  On a directory tree that holds no preview file, a run with
    previews enabled queues a preview for every table it counts as
    created. *)
Theorem first_run_queues_every_table (base : path) m (df : list catalog_row) :
  (forall dir, read_file m (preview_path_of dir) = None) ->
  length (preview_tasks (sync_rows base true m df))
  = created_tables (sync_rows base true m df).
Proof.
  intros Hnone. unfold sync_rows.
  set (st0 := {| st_fs := m; preview_tasks := []; created_tables := 0 |}).
  assert (forall l st,
            (forall dir, read_file (st_fs st) (preview_path_of dir) = None) ->
            length (preview_tasks st) = created_tables st ->
            length (preview_tasks (foldl (process_row base true) st l))
            = created_tables (foldl (process_row base true) st l)) as H.
  { induction l as [|row l IH]; intros st Hst Hlen; [done|].
    simpl. apply IH.
    - intros dir. rewrite process_row_read; [done|].
      intros dir' Heq. by apply preview_path_ne_ddl_path in Heq.
    - unfold process_row. row_cells row ltac:(done). cbv zeta.
      destruct (mkdir_parents _ _) as [m1|] eqn:Hmk; [|done].
      destruct (write_file m1 _ _) as [m2|] eqn:Hwr;
        cbn [preview_tasks created_tables]; [|done].
      match goal with
      | |- context [should_update_preview ?a ?b ?e ?f] =>
          assert (should_update_preview a b e f = true) as ->
      end.
      { apply not_false_iff_true. intros Hf.
        apply should_update_preview_spec in Hf as (content & Hrd & _).
        rewrite (write_file_read _ _ _ _ _ Hwr) in Hrd.
        destruct (decide _) as [Heq|_];
          [by apply preview_path_ne_ddl_path in Heq|].
        rewrite (mkdir_parents_read _ _ _ _ Hmk), Hst in Hrd. done. }
      simpl. rewrite length_app. simpl. lia. }
  by apply (H df st0).
Qed.

Lemma first_run_queues_every_table_witness :
  let df := [ {| table_catalog := Some "p"; table_schema := Some "d";
                 table_name := Some "a"; wildcard_table_name := Some "a";
                 ddl := Some "D_A" |};
              {| table_catalog := Some "p"; table_schema := Some "d";
                 table_name := Some "b"; wildcard_table_name := Some "b";
                 ddl := Some "D_B" |} ] in
  let m : gmap path node := <[ ["tables"] := Dir ]> ∅ in
  (forall dir, read_file m (preview_path_of dir) = None) /\
  length (preview_tasks (sync_rows ["tables"] true m df)) = 2%nat.
Proof.
  intros df m.
  assert (forall dir, read_file m (preview_path_of dir) = None) as H.
  { intros dir. unfold read_file, m.
    destruct (decide (["tables"] = preview_path_of dir)) as [Heq|Hne].
    - rewrite <- Heq. by rewrite lookup_insert_eq.
    - rewrite lookup_insert_ne by done. by rewrite lookup_empty. }
  split; [exact H|].
  etransitivity; [exact (first_run_queues_every_table ["tables"] m df H)|reflexivity].
Defined.

End MirrorRetry.

(** ** The loop a second time *)

Section MirrorIdempotent.
Import PyStr FS CreateTableStructure Vocabulary.
Implicit Types (m : gmap path node) (p q : path) (st : sync_state).

Lemma mkdir_parents_prefixes_dir m m' q x :
  mkdir_parents m q = Some m' -> In x (prefixes q) -> m' !! x = Some Dir.
Proof.
  unfold mkdir_parents. destruct (existsb _ _) eqn:E; [done|].
  intros [= <-]. by apply foldl_ensure_dir_creates.
Qed.

(** Where every directory of the path exists, [mkdir] changes
    nothing. *)
Lemma mkdir_parents_noop m q :
  (forall x, In x (prefixes q) -> m !! x = Some Dir) ->
  mkdir_parents m q = Some m.
Proof.
  intros H. unfold mkdir_parents.
  assert (existsb (is_file m) (prefixes q) = false) as ->.
  { apply not_true_iff_false. intros E.
    apply existsb_exists in E as (x & Hin & Hx).
    unfold is_file in Hx. by rewrite (H _ Hin) in Hx. }
  f_equal. revert H. generalize (prefixes q). intros qs.
  induction qs as [|x qs IH]; intros H; [done|].
  simpl. unfold ensure_dir at 2. rewrite (H x) by (by left).
  apply IH. intros y Hy. apply H. by right.
Qed.

Lemma mkdir_parents_lookup_cases m m' q p :
  mkdir_parents m q = Some m' ->
  m' !! p = m !! p \/ (m !! p = None /\ m' !! p = Some Dir).
Proof.
  unfold mkdir_parents. destruct (existsb _ _); [done|]. intros [= <-].
  destruct (m !! p) as [x|] eqn:E.
  - left. by apply foldl_ensure_dir_lookup_some.
  - destruct (foldl ensure_dir m (prefixes q) !! p) as [x|] eqn:E'; [|by left].
    apply foldl_ensure_dir_lookup_inv in E' as [E'|[-> _]]; [congruence|by right].
Qed.

(** One turn of the loop in a run and the same turn in a later run. *)
Lemma second_pass_row (base : path) (e1 e2 : bool) st1 st2 (row : catalog_row)
    (target final : gmap path node) :
  kinds_kept (st_fs (process_row base e1 st1 row)) (st_fs st2) ->
  (forall dir, target !! ddl_path_of dir = final !! ddl_path_of dir) ->
  (forall p, st_fs st2 !! p = target !! p \/
             (st_fs st2 !! p = st_fs st1 !! p /\ target !! p = final !! p)) ->
  forall p,
    st_fs (process_row base e2 st2 row) !! p = target !! p \/
    (st_fs (process_row base e2 st2 row) !! p
       = st_fs (process_row base e1 st1 row) !! p /\
     target !! p = final !! p).
Proof.
  intros Hk Hddl Hrel p. revert Hk.
  unfold process_row. row_cells row ltac:(intros _; apply Hrel). cbv zeta.
  set (dir := table_dir_of base (strip c) (strip s) (strip w)).
  destruct (mkdir_parents (st_fs st1) dir) as [k1|] eqn:Hmk1.
  - (* the directories could be created in the first run *)
    assert (forall x, In x (prefixes dir) -> k1 !! x = Some Dir) as Hpre
      by (intros x; by apply mkdir_parents_prefixes_dir with (m := st_fs st1)).
    assert (forall x, x <> ddl_path_of dir ->
              st_fs st2 !! x = target !! x \/
              (st_fs st2 !! x = k1 !! x /\ target !! x = final !! x) \/
              (k1 !! x = Some Dir /\ st_fs st2 !! x = None)) as Hother.
    { intros x _. destruct (Hrel x) as [?|[H1 H2]]; [by left|].
      destruct (mkdir_parents_lookup_cases _ _ _ x Hmk1) as [Hsame|[Hn Hd]].
      - right. left. by rewrite Hsame.
      - right. right. split; [done|]. by rewrite H1. }
    destruct (write_file k1 (ddl_path_of dir) (strip d)) as [w1|] eqn:Hwr1;
      cbn [st_fs]; intros Hk.
    + (* and the schema file written *)
      assert (mkdir_parents (st_fs st2) dir = Some (st_fs st2)) as ->.
      { apply mkdir_parents_noop. intros x Hx. apply Hk.
        eapply write_file_kinds_kept; [exact Hwr1|]. by apply Hpre. }
      assert (exists w2, write_file (st_fs st2) (ddl_path_of dir) (strip d) = Some w2)
        as [w2 Hwr2].
      { destruct (write_file (st_fs st2) (ddl_path_of dir) (strip d)) eqn:E; [eauto|].
        exfalso. apply write_file_fails_iff in E.
        - destruct (Hk (ddl_path_of dir)) as [_ Hf].
          unfold is_file in Hf.
          rewrite (write_file_lookup_eq _ _ _ _ Hwr1), E in Hf. by specialize (Hf eq_refl).
        - unfold ddl_path_of. by destruct dir.
        - rewrite parent_ddl_path. apply is_dir_lookup. apply Hk.
          eapply write_file_kinds_kept; [exact Hwr1|].
          apply Hpre. apply in_prefixes_self. apply table_dir_nonempty. }
      rewrite Hwr2. cbn [st_fs].
      destruct (decide (p = ddl_path_of dir)) as [->|Hne].
      * right. rewrite (write_file_lookup_eq _ _ _ _ Hwr1),
          (write_file_lookup_eq _ _ _ _ Hwr2). split; [done|apply Hddl].
      * rewrite (write_file_lookup_ne _ _ _ _ _ Hwr1 Hne),
          (write_file_lookup_ne _ _ _ _ _ Hwr2 Hne).
        destruct (Hother p Hne) as [?|[?|[Hd Hn]]]; [by left|by right|].
        exfalso. destruct (Hk p) as [Hdir _].
        rewrite (write_file_lookup_ne _ _ _ _ _ Hwr1 Hne) in Hdir.
        rewrite (Hdir Hd) in Hn. done.
    + (* but a directory stands at the path of the schema file *)
      assert (k1 !! ddl_path_of dir = Some Dir) as Hd1.
      { apply write_file_fails_iff in Hwr1; [done| |].
        - unfold ddl_path_of. by destruct dir.
        - rewrite parent_ddl_path. apply is_dir_lookup, Hpre, in_prefixes_self.
          apply table_dir_nonempty. }
      assert (mkdir_parents (st_fs st2) dir = Some (st_fs st2)) as ->.
      { apply mkdir_parents_noop. intros x Hx. by apply Hk, Hpre. }
      assert (write_file (st_fs st2) (ddl_path_of dir) (strip d) = None) as ->.
      { apply write_file_fails_iff; [unfold ddl_path_of; by destruct dir| |by apply Hk].
        rewrite parent_ddl_path. apply is_dir_lookup, Hk, Hpre, in_prefixes_self.
        apply table_dir_nonempty. }
      cbn [st_fs].
      destruct (Hrel p) as [?|[H1 H2]]; [by left|].
      destruct (mkdir_parents_lookup_cases _ _ _ p Hmk1) as [Hsame|[Hn Hd]].
      * right. by rewrite Hsame.
      * exfalso. destruct (Hk p) as [Hdir _]. rewrite (Hdir Hd) in H1. congruence.
  - (* a file stands in the way of the directories *)
    intros Hk.
    assert (mkdir_parents (st_fs st2) dir = None) as ->; [|apply Hrel].
    by apply (mkdir_parents_fails_later (st_fs st1)).
Qed.

(** The rows of a run taken again, from a filesystem [st_fs st2] that
    has kept the kinds of what the run left. *)
Lemma second_pass_rows (base : path) (e1 e2 : bool) (l : list catalog_row) st1 st2
    (target : gmap path node) :
  let final := st_fs (foldl (process_row base e1) st1 l) in
  kinds_kept final (st_fs st2) ->
  (forall dir, target !! ddl_path_of dir = final !! ddl_path_of dir) ->
  (forall p, st_fs st2 !! p = target !! p \/
             (st_fs st2 !! p = st_fs st1 !! p /\ target !! p = final !! p)) ->
  st_fs (foldl (process_row base e2) st2 l) = target.
Proof.
  revert st1 st2. induction l as [|row l IH]; intros st1 st2; cbn zeta.
  - simpl. intros _ _ Hrel. apply map_eq. intros p.
    destruct (Hrel p) as [?|[-> ->]]; done.
  - simpl. intros Hk Hddl Hrel. apply (IH (process_row base e1 st1 row)); cbn zeta.
    + eapply kinds_kept_trans; [exact Hk|apply process_row_kinds_kept].
    + exact Hddl.
    + apply second_pass_row; [|exact Hddl|exact Hrel].
      eapply kinds_kept_trans; [apply foldl_process_row_kinds_kept|exact Hk].
Qed.

(** X10. The loop of [create_table_structure] taken a second time over
    the same rows, from the filesystem that the first pass has left,
    changes nothing on the filesystem: every directory is there, and
    every schema file that can be written is written with the text
    that it holds at the end of the first pass (the text of the last
    row of that table directory).  This holds with previews enabled or
    not in either pass, and from every filesystem. *)
Theorem loop_second_pass_changes_nothing (base : path) (e1 e2 : bool)
    (m : gmap path node) (df : list catalog_row) :
  st_fs (sync_rows base e2 (st_fs (sync_rows base e1 m df)) df)
  = st_fs (sync_rows base e1 m df).
Proof.
  unfold sync_rows at 1.
  apply (second_pass_rows base e1 e2 df
           {| st_fs := m; preview_tasks := []; created_tables := 0 |}); cbn zeta.
  - apply kinds_kept_refl.
  - done.
  - intros p. by left.
Qed.

End MirrorIdempotent.

(** ** A second run against the same catalogue *)

Section MirrorTwice.
Import PyStr FS CreateTableStructure Vocabulary.
Implicit Types (m : gmap path node) (p q : path) (st : sync_state).

(** The pool leaves alone what is not queued. *)
Lemma run_pool_lookup_other (c : bq_client) max_rows tasks m p :
  (forall task, task ∈ tasks -> snd task <> p) ->
  run_pool c max_rows m tasks !! p = m !! p.
Proof.
  revert m. induction tasks as [|[id q] tasks IH]; intros m H; [done|].
  simpl. rewrite IH.
  - unfold fetch_and_save_preview.
    destruct (write_file m q _) as [m'|] eqn:Hwr; simpl; [|done].
    apply (write_file_lookup_ne _ _ _ _ _ Hwr). intros ->.
    destruct (H (id, q)); [by left|done].
  - intros task Hin. apply H. by right.
Qed.

(** A file that the pool leaves is the one it found or the preview
    rendered for a queued task of that path. *)
Lemma run_pool_read_inv (c : bq_client) max_rows tasks m p content :
  read_file (run_pool c max_rows m tasks) p = Some content ->
  read_file m p = Some content \/
  exists id, (id, p) ∈ tasks /\ content = get_table_preview c id max_rows.
Proof.
  revert m. induction tasks as [|[id q] tasks IH]; intros m H; [by left|].
  simpl in H. apply IH in H as [H|(id' & Hin & ->)].
  - revert H. unfold fetch_and_save_preview. simpl.
    destruct (write_file m q _) as [m'|] eqn:Hwr; simpl; [|by left].
    rewrite (write_file_read _ _ _ _ _ Hwr).
    destruct (decide (p = q)) as [->|]; [|by left].
    intros [= <-]. right. exists id. split; [by left|done].
  - right. exists id'. split; [by right|done].
Qed.

(** A pool whose tasks find their preview already written, or a
    directory in its place, changes nothing. *)
Lemma run_pool_noop (c : bq_client) max_rows tasks m :
  (forall id p, (id, p) ∈ tasks ->
     m !! p = Some Dir \/
     m !! p = Some (File (get_table_preview c id max_rows))) ->
  run_pool c max_rows m tasks = m.
Proof.
  induction tasks as [|[id q] tasks IH]; intros H; [done|].
  simpl.
  assert (fst (fetch_and_save_preview c m id q max_rows) = m) as ->.
  { unfold fetch_and_save_preview.
    destruct (write_file m q _) as [m'|] eqn:Hwr; simpl; [|done].
    revert Hwr. unfold write_file. destruct q as [|a q]; [done|].
    destruct (H id (a :: q)) as [Hd|Hf]; [by left| |].
    - unfold is_dir at 2. rewrite Hd. by rewrite andb_false_r.
    - destruct (_ && _); [|done]. intros [= <-]. by apply insert_id. }
  apply IH. intros id' p Hin. apply (H id' p). by right.
Qed.

Lemma preview_path_of_table_dir_inj (base : path) (c s w c' s' w' : string) :
  preview_path_of (table_dir_of base c s w)
  = preview_path_of (table_dir_of base c' s' w') ->
  c = c' /\ s = s' /\ w = w'.
Proof.
  unfold preview_path_of, table_dir_of. intros H.
  apply app_inj_tail in H as [H _]. apply app_inv_head in H.
  by injection H.
Qed.

(** Where a row comes to the queue. *)
Lemma process_row_queues (base : path) (enable : bool) st (row : catalog_row)
    (task : string * path) :
  task ∈ preview_tasks (process_row base enable st row) ->
  task ∈ preview_tasks st \/
  exists c s t w d mk mw,
    table_catalog row = Some c /\ table_schema row = Some s /\
    table_name row = Some t /\ wildcard_table_name row = Some w /\
    ddl row = Some d /\
    mkdir_parents (st_fs st) (table_dir_of base (strip c) (strip s) (strip w))
    = Some mk /\
    write_file mk (ddl_path_of (table_dir_of base (strip c) (strip s) (strip w)))
      (strip d) = Some mw /\
    enable = true /\
    should_update_preview mw
      (ddl_path_of (table_dir_of base (strip c) (strip s) (strip w)))
      (preview_path_of (table_dir_of base (strip c) (strip s) (strip w)))
      (strip d) = true /\
    task = (table_id_of (strip c) (strip s) (strip t),
            preview_path_of (table_dir_of base (strip c) (strip s) (strip w))).
Proof.
  unfold process_row. row_cells row ltac:(by left). cbv zeta.
  destruct (mkdir_parents _ _) as [mk|] eqn:Hmk; [|by left].
  destruct (write_file mk _ _) as [mw|] eqn:Hwr; [|by left].
  cbn [preview_tasks].
  destruct enable; [|by left]. simpl.
  destruct (should_update_preview _ _ _ _) eqn:Hsu; [|by left].
  intros Hin. apply elem_of_app in Hin as [Hin|Hin]; [by left|].
  apply list_elem_of_singleton in Hin. right.
  exists c, s, t, w, d, mk, mw. by repeat split.
Qed.

Lemma foldl_process_row_queues (base : path) (enable : bool)
    (df : list catalog_row) st (task : string * path) :
  task ∈ preview_tasks (foldl (process_row base enable) st df) ->
  task ∈ preview_tasks st \/
  exists l1 row l2 c s t w d mk mw,
    df = l1 ++ row :: l2 /\
    table_catalog row = Some c /\ table_schema row = Some s /\
    table_name row = Some t /\ wildcard_table_name row = Some w /\
    ddl row = Some d /\
    mkdir_parents (st_fs (foldl (process_row base enable) st l1))
      (table_dir_of base (strip c) (strip s) (strip w)) = Some mk /\
    write_file mk (ddl_path_of (table_dir_of base (strip c) (strip s) (strip w)))
      (strip d) = Some mw /\
    enable = true /\
    should_update_preview mw
      (ddl_path_of (table_dir_of base (strip c) (strip s) (strip w)))
      (preview_path_of (table_dir_of base (strip c) (strip s) (strip w)))
      (strip d) = true /\
    task = (table_id_of (strip c) (strip s) (strip t),
            preview_path_of (table_dir_of base (strip c) (strip s) (strip w))).
Proof.
  induction df as [|row df IH] using rev_ind; [by left|].
  rewrite foldl_app. simpl. intros Hin.
  apply process_row_queues in Hin
    as [Hin|(c & s & t & w & d & mk & mw & Hrow)].
  - destruct (IH Hin)
      as [?|(l1 & row' & l2 & c & s & t & w & d & mk & mw & -> & Hrow)];
      [by left|].
    right. exists l1, row', (l2 ++ [row]), c, s, t, w, d, mk, mw.
    split; [by rewrite <- app_assoc|exact Hrow].
  - right. exists df, row, [], c, s, t, w, d, mk, mw. by split.
Qed.

(** With the rows that [fetch_tables_from_bigquery] returns, whose
    [wildcard_table_name] is a copy of [table_name], the path of a
    task gives its table. *)
Lemma foldl_process_row_queue_ids (base : path) (enable : bool)
    (df : list catalog_row) st :
  Forall (fun row => table_name row = wildcard_table_name row) df ->
  Forall (fun task => exists c s w,
            task = (table_id_of c s w, preview_path_of (table_dir_of base c s w)))
    (preview_tasks st) ->
  Forall (fun task => exists c s w,
            task = (table_id_of c s w, preview_path_of (table_dir_of base c s w)))
    (preview_tasks (foldl (process_row base enable) st df)).
Proof.
  revert st. induction df as [|row df IH]; intros st Hw H; [done|].
  apply Forall_cons in Hw as [Hrow Hw]. simpl. apply IH; [done|].
  revert Hrow. unfold process_row. row_cells row ltac:(done). cbv zeta.
  intros [= ->].
  destruct (mkdir_parents _ _); [|done].
  destruct (write_file _ _ _); [|done].
  cbn [preview_tasks]. destruct (_ && _); [|done].
  apply Forall_app. split; [done|]. constructor; [|done]. eauto.
Qed.

Lemma fetched_rows_wildcard (r : remote) (df : list catalog_row) :
  fetch_tables_from_bigquery r = Some df ->
  Forall (fun row => table_name row = wildcard_table_name row) df.
Proof.
  unfold fetch_tables_from_bigquery.
  destruct (information_schema_tables r) as [l|]; [|done]. intros [= <-].
  induction l; by constructor.
Qed.

(** The loop and the pool of a second run, from what the loop and the
    pool of a run have left. *)
Lemma second_pass_pool (c : bq_client) (max_rows : Z) (base : path)
    (e1 e2 : bool) (m0 : gmap path node) (df : list catalog_row) :
  (e2 = true -> e1 = true) ->
  Forall (fun row => table_name row = wildcard_table_name row) df ->
  let end1 := sync_rows base e1 m0 df in
  let m1 := run_pool c max_rows (st_fs end1) (preview_tasks end1) in
  let end2 := sync_rows base e2 m1 df in
  run_pool c max_rows (st_fs end2) (preview_tasks end2) = m1.
Proof.
  intros He Hwild end1 m1 end2.
  set (st0 := {| st_fs := m0; preview_tasks := []; created_tables := 0 |}).
  set (st0' := {| st_fs := m1; preview_tasks := []; created_tables := 0 |}).
  assert (kinds_kept (st_fs end1) m1) as Hk3 by apply run_pool_kinds_kept.
  assert (Forall (fun task => exists dir, snd task = preview_path_of dir)
            (preview_tasks end1)) as Hpaths.
  { unfold end1, sync_rows. apply foldl_process_row_queue_paths. constructor. }
  assert (st_fs end2 = m1) as Hfs.
  { unfold end2, sync_rows.
    apply (second_pass_rows base e1 e2 df st0 st0' m1); cbn zeta.
    - exact Hk3.
    - intros dir. apply run_pool_lookup_other. intros task Hin.
      rewrite Forall_forall in Hpaths. destruct (Hpaths _ Hin) as (dir' & ->).
      apply preview_path_ne_ddl_path.
    - intros p. by left. }
  rewrite Hfs. apply run_pool_noop. intros id p Hin.
  unfold end2, sync_rows in Hin. fold st0' in Hin.
  apply foldl_process_row_queues in Hin
    as [Hin|(l1 & row & l2 & c0 & s & t & w & d & mk' & mw' & Hdf & Hc & Hs & Ht
             & Hw & Hd & Hmk' & Hwr' & -> & Hsu' & [= -> ->])];
    [by apply elem_of_nil in Hin|].
  pose proof (He eq_refl) as He1. clear He. subst e1.
  set (dir := table_dir_of base (strip c0) (strip s) (strip w)) in *.
  set (st1 := foldl (process_row base true) st0 l1).
  set (st2 := foldl (process_row base true) st0' l1) in *.
  assert (end1 = foldl (process_row base true) (process_row base true st1 row) l2)
    as Hend.
  { unfold end1, sync_rows. fold st0. by rewrite Hdf, foldl_app. }
  assert (kinds_kept (st_fs (process_row base true st1 row)) (st_fs end1)) as Hk2.
  { rewrite Hend. apply foldl_process_row_kinds_kept. }
  assert (kinds_kept (st_fs st1) (st_fs st2)) as Hk0.
  { eapply kinds_kept_trans; [apply (process_row_kinds_kept base true _ row)|].
    eapply kinds_kept_trans; [exact Hk2|].
    eapply kinds_kept_trans; [exact Hk3|].
    apply (foldl_process_row_kinds_kept base true l1 st0'). }
  destruct (row_processed_earlier _ _ dir (strip d) _ _ _ Hk0
              (table_dir_nonempty _ _ _ _) Hmk' Hwr') as (mk & mw & Hmk & Hwr).
  assert (process_row base true st1 row =
          {| st_fs := mw;
             preview_tasks :=
               if should_update_preview mw (ddl_path_of dir) (preview_path_of dir) (strip d)
               then preview_tasks st1
                      ++ [(table_id_of (strip c0) (strip s) (strip t), preview_path_of dir)]
               else preview_tasks st1;
             created_tables := S (created_tables st1) |}) as Hrow.
  { unfold process_row. rewrite Hc, Hs, Ht, Hw, Hd. cbv zeta.
    fold dir. by rewrite Hmk, Hwr. }
  rewrite Hrow in Hk2, Hend. cbn [st_fs] in Hk2.
  assert (st_fs end1 !! dir = Some Dir) as Hdir.
  { apply Hk2. eapply write_file_kinds_kept; [exact Hwr|].
    apply (mkdir_parents_is_dir _ _ _ (table_dir_nonempty _ _ _ _) Hmk). }
  destruct (decide (m1 !! preview_path_of dir = Some Dir)) as [Hd1|Hnd]; [by left|].
  right.
  assert (exists id',
            (id', preview_path_of dir) ∈ preview_tasks end1 /\
            read_file m1 (preview_path_of dir)
            = Some (get_table_preview c id' max_rows)) as (id' & Hin' & Hrd').
  { destruct (should_update_preview mw (ddl_path_of dir) (preview_path_of dir) (strip d))
      eqn:Hdec.
    - apply (run_pool_writes_queued c max_rows (preview_tasks end1) (st_fs end1)
               (table_id_of (strip c0) (strip s) (strip t))).
      + rewrite Hend. apply foldl_process_row_queue_grows. cbn [preview_tasks].
        apply elem_of_app. right. by apply list_elem_of_singleton.
      + apply preview_path_nonempty.
      + rewrite parent_preview_path. by apply is_dir_lookup.
      + intros H. apply Hnd. by apply Hk3.
    - apply should_update_preview_spec in Hdec as (content0 & Hrd0 & Hst0 & _).
      assert (read_file (st_fs end1) (preview_path_of dir) = Some content0) as Hrd1.
      { rewrite Hend.
        apply (foldl_process_row_previews_kept base true l2
                 {| st_fs := mw; preview_tasks := preview_tasks st1;
                    created_tables := S (created_tables st1) |}).
        exact Hrd0. }
      assert (exists content1, read_file m1 (preview_path_of dir) = Some content1)
        as (content1 & Hrd).
      { destruct (Hk3 (preview_path_of dir)) as [_ Hf]. unfold is_file in Hf.
        apply read_file_lookup in Hrd1. rewrite Hrd1 in Hf. specialize (Hf eq_refl).
        unfold read_file. destruct (m1 !! preview_path_of dir) as [[|content1]|];
          [done|by eauto|done]. }
      pose proof Hrd as Hrd2.
      apply run_pool_read_inv in Hrd2 as [Hrd2|(id' & Hin' & ->)].
      + exfalso.
        assert (content1 = content0) as -> by congruence.
        assert (should_update_preview mw' (ddl_path_of dir) (preview_path_of dir)
                  (strip d) = false) as Hno; [|congruence].
        apply should_update_preview_spec. exists content0.
        split; [|split; [done|]].
        * eapply write_ddl_previews_kept; [exact Hwr'|].
          eapply mkdir_parents_previews_kept; [exact Hmk'|].
          by apply (foldl_process_row_previews_kept base true l1 st0').
        * right. exists (strip d). split; [|done].
          apply read_file_lookup. eapply write_file_lookup_eq, Hwr'.
      + by exists id'. }
  assert (Forall (fun task => exists c s w,
            task = (table_id_of c s w, preview_path_of (table_dir_of base c s w)))
            (preview_tasks end1)) as Hids.
  { unfold end1, sync_rows. apply foldl_process_row_queue_ids; [done|constructor]. }
  rewrite Forall_forall in Hids.
  destruct (Hids _ Hin') as (c' & s' & w' & [= -> Hp]).
  apply preview_path_of_table_dir_inj in Hp as (<- & <- & <-).
  assert (t = w) as ->.
  { rewrite Forall_forall in Hwild.
    assert (row ∈ df) as Hrin.
    { rewrite Hdf. apply elem_of_app. right. by left. }
    specialize (Hwild _ Hrin). congruence. }
  by apply read_file_lookup.
Qed.

(** What a run leaves on the filesystem. *)
Lemma create_table_structure_fs (r : remote) m (output_dir : path)
    (enable : bool) (max_rows : Z) :
  snd (create_table_structure r m output_dir enable max_rows)
  = match get_billing_project r, fetch_tables_from_bigquery r, mkdir m output_dir with
    | Some _, Some (row :: df), Some m0 =>
        run_pool (client r) max_rows
          (st_fs (sync_rows output_dir enable m0 (row :: df)))
          (preview_tasks (sync_rows output_dir enable m0 (row :: df)))
    | _, _, _ => m
    end.
Proof.
  unfold create_table_structure, synchronize.
  destruct (get_billing_project r); [|done].
  destruct (fetch_tables_from_bigquery r) as [[|row df]|]; [done| |done].
  by destruct (mkdir m output_dir).
Qed.

(** The output directory of a run is there for the next one. *)
Lemma mkdir_again m m0 m1 q :
  mkdir m q = Some m0 -> kinds_kept m0 m1 ->
  read_file m1 [] = read_file m0 [] ->
  mkdir m1 q = Some m1.
Proof.
  intros Hmk Hk Hroot.
  assert (m0 !! q = Some Dir \/ (q = [] /\ m0 !! q = None)) as [Hd|[-> Hn]].
  { revert Hmk. unfold mkdir.
    destruct (m !! q) as [[|c]|] eqn:E; [intros [= <-]; by left|done|].
    destruct q as [|a q]; [intros [= <-]; by right|].
    destruct (is_dir _ _); [|done]. intros [= <-]. left.
    apply lookup_insert_eq. }
  - unfold mkdir. by rewrite (proj1 (Hk q) Hd).
  - revert Hroot. unfold mkdir, read_file. rewrite Hn.
    by destruct (m1 !! _) as [[|c]|].
Qed.

(** X11.  A second run of [create_table_structure] with the same
    output directory, against a catalogue that returns the same rows
    and a sample-row interface that answers as in the first run,
    leaves the filesystem as the first run has left it, provided the
    second run does not enable previews where the first had them
    disabled.  This holds from every filesystem, whether or not some
    previews of the first run are error previews: they are fetched and
    written again, with the same text. *)
Theorem second_run_changes_nothing (r : remote) m (output_dir : path)
    (e1 e2 : bool) (max_rows : Z) :
  (e2 = true -> e1 = true) ->
  snd (create_table_structure r
         (snd (create_table_structure r m output_dir e1 max_rows))
         output_dir e2 max_rows)
  = snd (create_table_structure r m output_dir e1 max_rows).
Proof.
  intros He.
  rewrite (create_table_structure_fs r m output_dir e1).
  destruct (get_billing_project r) as [project|] eqn:Hproj.
  2: { rewrite create_table_structure_fs. by rewrite Hproj. }
  destruct (fetch_tables_from_bigquery r) as [[|row df]|] eqn:Hfetch.
  1, 3: rewrite create_table_structure_fs; by rewrite Hproj, Hfetch.
  destruct (mkdir m output_dir) as [m0|] eqn:Hmk.
  2: { rewrite create_table_structure_fs. by rewrite Hproj, Hfetch, Hmk. }
  set (end1 := sync_rows output_dir e1 m0 (row :: df)).
  set (m1 := run_pool (client r) max_rows (st_fs end1) (preview_tasks end1)).
  rewrite create_table_structure_fs. rewrite Hproj, Hfetch.
  assert (mkdir m1 output_dir = Some m1) as ->.
  { apply (mkdir_again m m0); [done| |].
    - eapply kinds_kept_trans; [|apply run_pool_kinds_kept].
      unfold end1, sync_rows.
      apply (foldl_process_row_kinds_kept output_dir e1 (row :: df)
               {| st_fs := m0; preview_tasks := []; created_tables := 0 |}).
    - unfold m1. rewrite run_pool_read_other.
      + unfold end1, sync_rows. rewrite foldl_process_row_read; [done|].
        intros dir. unfold ddl_path_of. by destruct dir.
      + intros task Hin.
        assert (Forall (fun task => exists dir, snd task = preview_path_of dir)
                  (preview_tasks end1)) as Hpaths.
        { unfold end1, sync_rows. apply foldl_process_row_queue_paths. constructor. }
        rewrite Forall_forall in Hpaths. destruct (Hpaths _ Hin) as (dir & ->).
        apply preview_path_nonempty. }
  apply (second_pass_pool (client r) max_rows output_dir e1 e2 m0 (row :: df) He).
  by apply (fetched_rows_wildcard r).
Qed.

Lemma second_run_changes_nothing_witness :
  let r := {| env_project_id := Some "billing";
              information_schema_tables :=
                Some [ {| is_table_catalog := Some "p"; is_table_schema := Some "d";
                          is_table_name := Some "t";
                          is_ddl := Some "CREATE TABLE t (x INT64);" |} ];
              client := fun _ _ => inl "403 Access Denied" |} in
  (true = true -> true = true) /\
  snd (create_table_structure r
         (snd (create_table_structure r ∅ ["tables"] true 5))
         ["tables"] true 5)
  = snd (create_table_structure r ∅ ["tables"] true 5).
Proof.
  intros r. split; [done|].
  apply (second_run_changes_nothing r ∅ ["tables"] true true 5). done.
Defined.

End MirrorTwice.

(** ** The usage miner *)

Section UsageRun.
Import PyStr FS AddUsageData Vocabulary.
Implicit Types (m : gmap path node) (p q : path) (st : usage_state).

(** Writing a file neither makes nor removes a directory. *)
Lemma write_file_lookup_dir m m' p c q :
  write_file m p c = Some m' -> m' !! q = Some Dir <-> m !! q = Some Dir.
Proof.
  intros H. destruct (decide (q = p)) as [->|Hne].
  - rewrite (write_file_lookup_eq _ _ _ _ H).
    revert H. unfold write_file. destruct p as [|a p]; [done|].
    destruct (is_dir m (parent (a :: p))); [|done]. unfold is_dir.
    destruct (m !! _) as [[|c']|]; simpl; split; done.
  - by rewrite (write_file_lookup_ne _ _ _ _ _ H Hne).
Qed.

Lemma save_high_usage_tables_list_lookup m tables dir output_file p :
  p <> dir ++ [md_file_name output_file] ->
  save_high_usage_tables_list m tables dir output_file !! p = m !! p.
Proof.
  intros Hp. unfold save_high_usage_tables_list.
  destruct (write_file _ _ _) as [m'|] eqn:Hwr; [|done].
  by apply (write_file_lookup_ne _ _ _ _ _ Hwr).
Qed.

Lemma save_high_usage_tables_list_dir m tables dir output_file q :
  save_high_usage_tables_list m tables dir output_file !! q = Some Dir
  <-> m !! q = Some Dir.
Proof.
  unfold save_high_usage_tables_list.
  destruct (write_file _ _ _) as [m'|] eqn:Hwr; [|done].
  by apply (write_file_lookup_dir _ _ _ _ _ Hwr).
Qed.

Lemma process_record_lookup base st (record : usage_record) p :
  last p <> Some "usage.sql" ->
  us_fs (process_record base st record) !! p = us_fs st !! p.
Proof.
  intros Hp. unfold process_record.
  destruct (table_catalog record); [|done].
  destruct (table_schema record); [|done].
  destruct (table_name record); [|done].
  cbv zeta. destruct (negb _); [done|].
  destruct (write_file _ _ _) as [m'|] eqn:Hwr; [|done].
  cbn [us_fs]. apply (write_file_lookup_ne _ _ _ _ _ Hwr).
  intros ->. apply Hp. apply last_snoc.
Qed.

Lemma process_record_dir base st (record : usage_record) q :
  us_fs (process_record base st record) !! q = Some Dir
  <-> us_fs st !! q = Some Dir.
Proof.
  unfold process_record.
  destruct (table_catalog record); [|done].
  destruct (table_schema record); [|done].
  destruct (table_name record); [|done].
  cbv zeta. destruct (negb _); [done|].
  destruct (write_file _ _ _) as [m'|] eqn:Hwr; [|done].
  cbn [us_fs]. by apply (write_file_lookup_dir _ _ _ _ _ Hwr).
Qed.

Lemma foldl_process_record_lookup base (data : list usage_record) st p :
  last p <> Some "usage.sql" ->
  us_fs (foldl (process_record base) st data) !! p = us_fs st !! p.
Proof.
  intros Hp. revert st. induction data as [|record data IH]; intros st; [done|].
  simpl. by rewrite IH, process_record_lookup.
Qed.

Lemma foldl_process_record_dir base (data : list usage_record) st q :
  us_fs (foldl (process_record base) st data) !! q = Some Dir
  <-> us_fs st !! q = Some Dir.
Proof.
  revert st. induction data as [|record data IH]; intros st; [done|].
  simpl. by rewrite IH, process_record_dir.
Qed.

(** X12.  A run of [process_usage_data] touches its own artifacts only:
    every path whose last component is neither [usage.sql] nor
    [HIGH_USAGE_TABLES.md] holds after the run what it held before, and
    the run neither creates nor removes a directory. *)
Theorem usage_run_changes_only_its_artifacts m (data : list usage_record)
    (tables_dir : path) :
  (forall p, last p <> Some "usage.sql" -> last p <> Some "HIGH_USAGE_TABLES.md" ->
             us_fs (process_usage_data m data tables_dir) !! p = m !! p) /\
  (forall q, us_fs (process_usage_data m data tables_dir) !! q = Some Dir
             <-> m !! q = Some Dir).
Proof.
  assert (md_file_name "HIGH_USAGE_TABLES.md" = "HIGH_USAGE_TABLES.md") as Hname
    by reflexivity.
  unfold process_usage_data. cbv zeta. split.
  - intros p Hu Hl.
    assert (save_high_usage_tables_list m (create_high_usage_tables_list data)
              tables_dir "HIGH_USAGE_TABLES.md" !! p = m !! p) as Hsave.
    { apply save_high_usage_tables_list_lookup. rewrite Hname.
      intros ->. apply Hl. apply last_snoc. }
    destruct (negb _); [exact Hsave|].
    by rewrite foldl_process_record_lookup.
  - intros q. destruct (negb _); cbn [us_fs].
    + apply save_high_usage_tables_list_dir.
    + rewrite foldl_process_record_dir. apply save_high_usage_tables_list_dir.
Qed.

Lemma usage_run_changes_only_its_artifacts_witness :
  let a := {| table_catalog := Some "p"; table_schema := Some "d";
              table_name := Some "a"; top_queries := Some ["SELECT 1"];
              total_queries := Some 2 |} in
  let m : gmap path node :=
    <[ ["tables"; "p"; "d"; "a"; "ddl.sql"] := File "CREATE TABLE a (x INT64);" ]>
    (<[ ["tables"; "p"; "d"; "a"] := Dir ]>
    (<[ ["tables"; "p"; "d"] := Dir ]>
    (<[ ["tables"; "p"] := Dir ]>
    (<[ ["tables"] := Dir ]> ∅)))) in
  us_fs (process_usage_data m [a] ["tables"]) !! ["tables"; "p"; "d"; "a"; "ddl.sql"]
  = Some (File "CREATE TABLE a (x INT64);").
Proof.
  intros a m.
  assert (last ["tables"; "p"; "d"; "a"; "ddl.sql"] <> Some "usage.sql") as H1
    by (vm_compute; discriminate).
  assert (last ["tables"; "p"; "d"; "a"; "ddl.sql"] <> Some "HIGH_USAGE_TABLES.md") as H2
    by (vm_compute; discriminate).
  etransitivity;
    [exact (proj1 (usage_run_changes_only_its_artifacts m [a] ["tables"]) _ H1 H2)|
     reflexivity].
Defined.

(** *** The counters *)

Lemma process_record_counters base st (record : usage_record) :
  let st' := process_record base st record in
  (processed_tables st' + skipped_tables st'
   = S (processed_tables st + skipped_tables st))%nat /\
  (updated_tables st' + processed_tables st
   = processed_tables st' + updated_tables st)%nat.
Proof.
  unfold process_record.
  destruct (table_catalog record); [|simpl; lia].
  destruct (table_schema record); [|simpl; lia].
  destruct (table_name record); [|simpl; lia].
  cbv zeta. destruct (negb _); [simpl; lia|].
  destruct (write_file _ _ _); simpl; lia.
Qed.

Lemma foldl_process_record_counters base (data : list usage_record) st :
  let st' := foldl (process_record base) st data in
  (processed_tables st' + skipped_tables st'
   = length data + (processed_tables st + skipped_tables st))%nat /\
  (updated_tables st' + processed_tables st
   = processed_tables st' + updated_tables st)%nat.
Proof.
  revert st. induction data as [|record data IH]; intros st; [simpl; lia|].
  cbn zeta. simpl foldl.
  destruct (IH (process_record base st record)) as [H1 H2].
  destruct (process_record_counters base st record) as [H3 H4].
  cbn zeta in *. simpl length. lia.
Qed.

(** The leaderboard is a file beside the table directories: saving it
    does not make the directory of the tables appear or disappear. *)
Lemma save_high_usage_tables_list_exists m tables dir output_file :
  exists_ (save_high_usage_tables_list m tables dir output_file) dir = exists_ m dir.
Proof.
  unfold exists_. destruct dir as [|a dir]; [done|].
  rewrite save_high_usage_tables_list_lookup; [done|].
  intros H. apply (f_equal length) in H. rewrite length_app in H. simpl in H. lia.
Qed.

Lemma save_high_usage_tables_list_no_dir m tables dir output_file :
  exists_ m dir = false ->
  save_high_usage_tables_list m tables dir output_file = m.
Proof.
  intros H. unfold save_high_usage_tables_list, write_file, parent.
  rewrite removelast_last.
  assert (is_dir m dir = false) as ->.
  { revert H. unfold exists_, is_dir. destruct dir; [done|].
    by destruct (m !! _) as [[|c]|]. }
  by destruct (dir ++ _).
Qed.

(** X13.  [process_usage_data] accounts for every record: when the
    directory of the tables exists, each record is counted once, as
    processed or as skipped, and the count of updated files is the
    count of processed tables; when it does not exist, nothing is
    counted and nothing is written, not even the leaderboard. *)
Theorem usage_counters_account_for_every_record m (data : list usage_record)
    (tables_dir : path) :
  let st := process_usage_data m data tables_dir in
  updated_tables st = processed_tables st /\
  (exists_ m tables_dir = true ->
   (processed_tables st + skipped_tables st)%nat = length data) /\
  (exists_ m tables_dir = false ->
   processed_tables st = 0%nat /\ skipped_tables st = 0%nat /\ us_fs st = m).
Proof.
  unfold process_usage_data. cbv zeta.
  rewrite save_high_usage_tables_list_exists.
  destruct (exists_ m tables_dir) eqn:Hex; simpl negb; cbv iota.
  - match goal with
    | |- context [foldl (process_record ?b) ?s ?d] =>
        destruct (foldl_process_record_counters b d s) as [H1 H2]
    end.
    cbn zeta in *. simpl in H1, H2. split; [lia|]. split; [lia|done].
  - simpl. split; [done|]. split; [done|]. intros _.
    split; [done|]. split; [done|]. by apply save_high_usage_tables_list_no_dir.
Qed.

Lemma usage_counters_account_for_every_record_witness :
  let a := {| table_catalog := Some "p"; table_schema := Some "d";
              table_name := Some "a"; top_queries := Some ["SELECT 1"];
              total_queries := Some 2 |} in
  let b := {| table_catalog := Some "p"; table_schema := Some "d";
              table_name := Some "gone"; top_queries := Some ["SELECT 2"];
              total_queries := Some 1 |} in
  let m : gmap path node :=
    <[ ["tables"; "p"; "d"; "a"] := Dir ]>
    (<[ ["tables"; "p"; "d"] := Dir ]>
    (<[ ["tables"; "p"] := Dir ]>
    (<[ ["tables"] := Dir ]> ∅))) in
  exists_ m ["tables"] = true /\
  (processed_tables (process_usage_data m [a; b] ["tables"])
   + skipped_tables (process_usage_data m [a; b] ["tables"]) = 2)%nat /\
  exists_ (∅ : gmap path node) ["tables"] = false /\
  us_fs (process_usage_data ∅ [a; b] ["tables"]) = ∅.
Proof.
  intros a b m.
  assert (exists_ m ["tables"] = true) as H1 by reflexivity.
  assert (exists_ (∅ : gmap path node) ["tables"] = false) as H2 by reflexivity.
  split; [exact H1|]. split.
  - exact (proj1 (proj2 (usage_counters_account_for_every_record m [a; b] ["tables"])) H1).
  - split; [exact H2|].
    exact (proj2 (proj2 (proj2 (proj2
             (usage_counters_account_for_every_record ∅ [a; b] ["tables"])) H2))).
Defined.

(** X14.  A missing directory of the tables is reported, not failed
    on: with a project and an audit log that answers, [main] ends with
    status 0 and leaves the filesystem as it was. *)
Theorem usage_main_without_tables_dir (r : remote) m
    (arg_project_id : option string) (tables_dir : path)
    (data : list usage_record) (c : ascii) (s : string) :
  arg_project_id = Some (String c s) \/ env_project_id r = Some (String c s) ->
  jobs r = Some data ->
  exists_ m tables_dir = false ->
  main r m arg_project_id tables_dir = (0, m).
Proof.
  intros Hproj Hjobs Hex. unfold main. rewrite Hjobs.
  assert (us_fs (process_usage_data m data tables_dir) = m) as ->.
  { unfold process_usage_data. cbv zeta.
    rewrite save_high_usage_tables_list_exists, Hex. simpl.
    by apply save_high_usage_tables_list_no_dir. }
  destruct Hproj as [->|Henv]; [done|].
  rewrite Henv. by destruct arg_project_id as [[|? ?]|].
Qed.

Lemma usage_main_without_tables_dir_witness :
  let r := {| env_project_id := Some "billing"; jobs := Some [] |} in
  main r ∅ None ["tables"] = (0, ∅).
Proof.
  intros r.
  apply (usage_main_without_tables_dir r ∅ None ["tables"] [] "b" "illing");
    [by right|reflexivity|reflexivity].
Defined.

End UsageRun.

(** ** The text of the usage artifacts *)

Section UsageArtifact.
Import PyStr FS AddUsageData.
Implicit Types (m : gmap path node) (p : path) (st : usage_state).

Lemma append_nil_r (s : string) : s +:+ EmptyString = s.
Proof. induction s as [|a s IH]; [done|]. by rewrite append_cons, IH. Qed.

Lemma rev_append (s t : string) :
  String.rev (s +:+ t) = String.rev t +:+ String.rev s.
Proof.
  induction s as [|a s IH].
  - by rewrite append_nil_l, append_nil_r.
  - by rewrite append_cons, !rev_cons, IH, append_assoc.
Qed.

Lemma prefix_append (p r : string) : String.prefix p (p +:+ r) = true.
Proof. apply prefix_app. by exists r. Qed.

Lemma endswith_append (s p : string) : endswith (s +:+ p) p = true.
Proof. unfold endswith. rewrite rev_append. apply prefix_append. Qed.

(** A name does not end with both extensions. *)
Lemma endswith_md_not_json (s : string) :
  endswith s ".md" = true -> endswith s ".json" = false.
Proof.
  unfold endswith. destruct (String.rev s) as [|a r]; [done|].
  change (String.rev ".md") with "dm."%string.
  change (String.rev ".json") with "nosj."%string.
  cbn [String.prefix].
  destruct (ascii_dec "d" a) as [<-|]; [|done]. intros _.
  by destruct (ascii_dec "n" "d").
Qed.

(** X15.  The leaderboard is always saved under a name that ends with
    [.md], and a name that [save_high_usage_tables_list] has rewritten
    is not rewritten again. *)
Theorem leaderboard_name_ends_with_md (output_file : string) :
  endswith (md_file_name output_file) ".md" = true /\
  md_file_name (md_file_name output_file) = md_file_name output_file.
Proof.
  assert (endswith (md_file_name output_file) ".md" = true) as H.
  { unfold md_file_name. cbv zeta.
    destruct (endswith (if endswith output_file ".json" then _ else _) ".md") eqn:E;
      [exact E|apply endswith_append]. }
  split; [exact H|].
  unfold md_file_name at 1. cbv zeta.
  by rewrite (endswith_md_not_json _ H), H.
Qed.

(** *** Replacing the header line *)

Lemma replace_go_skip (old new x tail : string) :
  replace_go old new (String.length x) (x +:+ tail) = replace_go old new 0 tail.
Proof.
  induction x as [|a x IH]; [done|].
  rewrite append_cons. exact IH.
Qed.

Lemma replace_match (old new tail : string) :
  old <> EmptyString ->
  replace old new (old +:+ tail) = new +:+ replace old new tail.
Proof.
  destruct old as [|a o]; [done|]. intros _. unfold replace.
  rewrite append_cons. cbn [replace_go].
  rewrite <- append_cons, prefix_append.
  cbn [String.length]. rewrite Nat.sub_succ, Nat.sub_0_r.
  by rewrite replace_go_skip.
Qed.

Lemma replace_skip (old new : string) (c : ascii) (s : string) :
  String.prefix old (String c s) = false ->
  replace old new (String c s) = String c (replace old new s).
Proof. unfold replace. cbn [replace_go]. by intros ->. Qed.

Lemma lookup_dir_exists m p : m !! p = Some Dir -> exists_ m p = true.
Proof. unfold exists_. intros ->. by destruct p. Qed.

(** The content that [process_usage_data] writes for a record. *)
Lemma process_record_writes base st (record : usage_record) (c s t : string) :
  table_catalog record = Some c -> table_schema record = Some s ->
  table_name record = Some t ->
  us_fs st !! (base ++ [strip c; strip s; strip t]) = Some Dir ->
  us_fs st !! ((base ++ [strip c; strip s; strip t]) ++ ["usage.sql"]) <> Some Dir ->
  let queries := match top_queries record with Some qs => qs | None => [] end in
  let total := match total_queries record with
               | Some n => n
               | None => Z.of_nat (length queries)
               end in
  read_file (us_fs (process_record base st record))
    ((base ++ [strip c; strip s; strip t]) ++ ["usage.sql"])
  = Some (if total =? 0 then format_usage_queries queries
          else replace
                 ("-- Total queries found: " +:+ pretty (length queries))
                 ("-- Total queries found: " +:+ pretty total +:+
                  " (showing top " +:+ pretty (length queries) +:+ ")")
                 (format_usage_queries queries)).
Proof.
  intros Hc Hs Ht Hdir Hfile. cbv zeta.
  unfold process_record. rewrite Hc, Hs, Ht. cbv zeta.
  set (table_dir := base ++ [strip c; strip s; strip t]) in *.
  assert (exists_ (us_fs st) table_dir = true) as -> by (by apply lookup_dir_exists).
  simpl negb. cbv iota.
  destruct (write_file _ _ _) as [m'|] eqn:Hwr.
  - cbn [us_fs]. apply read_file_lookup. eapply write_file_lookup_eq, Hwr.
  - exfalso. apply write_file_fails_iff in Hwr; [done| |].
    + by destruct table_dir.
    + unfold parent. rewrite removelast_last. by apply is_dir_lookup.
Qed.

(** X16.  A record without queries gets the fixed text of
    [format_usage_queries], whatever its [total_queries] says: the
    header line that would carry the total is not in that text. *)
Theorem record_without_queries_gets_fixed_text base st (record : usage_record)
    (c s t : string) :
  table_catalog record = Some c -> table_schema record = Some s ->
  table_name record = Some t ->
  top_queries record = None \/ top_queries record = Some [] ->
  us_fs st !! (base ++ [strip c; strip s; strip t]) = Some Dir ->
  us_fs st !! ((base ++ [strip c; strip s; strip t]) ++ ["usage.sql"]) <> Some Dir ->
  read_file (us_fs (process_record base st record))
    ((base ++ [strip c; strip s; strip t]) ++ ["usage.sql"])
  = Some ("-- No usage queries found for this table" +:+ nl).
Proof.
  intros Hc Hs Ht Hq Hdir Hfile.
  rewrite (process_record_writes base st record c s t Hc Hs Ht Hdir Hfile).
  assert (match top_queries record with Some qs => qs | None => [] end = [])
    as -> by (by destruct Hq as [->| ->]).
  destruct (_ =? 0); reflexivity.
Qed.

Lemma record_without_queries_gets_fixed_text_witness :
  let a := {| table_catalog := Some "p"; table_schema := Some "d";
              table_name := Some "a"; top_queries := Some [];
              total_queries := Some 7 |} in
  let st := {| us_fs := <[ ["tables"; "p"; "d"; "a"] := Dir ]> ∅;
               processed_tables := 0; skipped_tables := 0; updated_tables := 0 |} in
  read_file (us_fs (process_record ["tables"] st a))
    ["tables"; "p"; "d"; "a"; "usage.sql"]
  = Some ("-- No usage queries found for this table" +:+ nl).
Proof.
  intros a st.
  apply (record_without_queries_gets_fixed_text ["tables"] st a "p" "d" "a");
    [reflexivity|reflexivity|reflexivity|by right|reflexivity|by vm_compute].
Defined.

(** X17.  For a record with queries and a total that is not zero, the
    usage artifact begins with the title line and the header line
    rewritten to carry the total and the number of queries shown. *)
Theorem usage_header_shows_total base st (record : usage_record)
    (c s t q : string) (qs : list string) (total : Z) :
  table_catalog record = Some c -> table_schema record = Some s ->
  table_name record = Some t ->
  top_queries record = Some (q :: qs) ->
  total_queries record = Some total -> total <> 0 ->
  us_fs st !! (base ++ [strip c; strip s; strip t]) = Some Dir ->
  us_fs st !! ((base ++ [strip c; strip s; strip t]) ++ ["usage.sql"]) <> Some Dir ->
  exists content,
    read_file (us_fs (process_record base st record))
      ((base ++ [strip c; strip s; strip t]) ++ ["usage.sql"]) = Some content /\
    startswith content
      ("-- Usage queries for this table" +:+ nl +:+
       "-- Total queries found: " +:+ pretty total +:+
       " (showing top " +:+ pretty (length (q :: qs)) +:+ ")" +:+ nl) = true.
Proof.
  intros Hc Hs Ht Hq Htot Hnz Hdir Hfile.
  rewrite (process_record_writes base st record c s t Hc Hs Ht Hdir Hfile).
  rewrite Hq, Htot. apply Z.eqb_neq in Hnz. rewrite Hnz.
  eexists. split; [reflexivity|].
  set (old := "-- Total queries found: " +:+ pretty (length (q :: qs))).
  set (new := "-- Total queries found: " +:+ pretty total +:+
              " (showing top " +:+ pretty (length (q :: qs)) +:+ ")").
  set (rest := String.concat nl
                 (EmptyString :: concat (imap (fun i q0 => usage_query_lines (S i) q0)
                                           (q :: qs)))).
  assert (format_usage_queries (q :: qs)
          = "-- Usage queries for this table" +:+ nl +:+ (old +:+ (nl +:+ rest))) as ->
    by reflexivity.
  assert (replace old new
            ("-- Usage queries for this table" +:+ nl +:+ (old +:+ (nl +:+ rest)))
          = "-- Usage queries for this table" +:+ nl +:+
            (new +:+ (nl +:+ replace old new rest))) as ->.
  { unfold nl at 1 3. rewrite !append_cons, !append_nil_l.
    do 32 (rewrite replace_skip by reflexivity).
    rewrite replace_match by done.
    unfold nl. rewrite !append_cons, !append_nil_l.
    by rewrite replace_skip by reflexivity. }
  unfold startswith. apply prefix_app. exists (replace old new rest).
  unfold new. by rewrite !append_assoc.
Qed.

Lemma usage_header_shows_total_witness :
  let a := {| table_catalog := Some "p"; table_schema := Some "d";
              table_name := Some "a"; top_queries := Some ["SELECT 1"];
              total_queries := Some 12 |} in
  let st := {| us_fs := <[ ["tables"; "p"; "d"; "a"] := Dir ]> ∅;
               processed_tables := 0; skipped_tables := 0; updated_tables := 0 |} in
  exists content,
    read_file (us_fs (process_record ["tables"] st a))
      ["tables"; "p"; "d"; "a"; "usage.sql"] = Some content /\
    startswith content
      ("-- Usage queries for this table" +:+ nl +:+
       "-- Total queries found: 12 (showing top 1)" +:+ nl) = true.
Proof.
  intros a st.
  apply (usage_header_shows_total ["tables"] st a "p" "d" "a" "SELECT 1" [] 12);
    [reflexivity|reflexivity|reflexivity|reflexivity|reflexivity|done|reflexivity|
     by vm_compute].
Defined.

End UsageArtifact.

(** ** The usage miner a second time *)

Section UsageTwice.
Import PyStr FS AddUsageData.
Implicit Types (m : gmap path node) (p q : path) (st : usage_state).

(** Writing a file goes through exactly when the parent is a directory
    and the path is not one. *)
Lemma write_file_same_dirs m1 m2 p c :
  (forall q, is_dir m2 q = is_dir m1 q) ->
  match write_file m1 p c, write_file m2 p c with
  | Some _, Some _ | None, None => True
  | _, _ => False
  end.
Proof.
  intros H. unfold write_file. destruct p as [|a p]; [done|].
  rewrite !H. by destruct (_ && _).
Qed.

Lemma write_file_exists m m' p c q :
  write_file m p c = Some m' -> exists_ m q = true -> exists_ m' q = true.
Proof.
  intros H. unfold exists_. destruct q as [|a q]; [done|].
  destruct (decide (a :: q = p)) as [<-|Hne].
  - by rewrite (write_file_lookup_eq _ _ _ _ H).
  - by rewrite (write_file_lookup_ne _ _ _ _ _ H Hne).
Qed.

(** One record in two runs whose filesystems have the same
    directories: the same file is written in both, or none in either. *)
Lemma process_record_same_write base st1 st2 (record : usage_record) :
  (forall q, is_dir (us_fs st2) q = is_dir (us_fs st1) q) ->
  (us_fs (process_record base st1 record) = us_fs st1 /\
   us_fs (process_record base st2 record) = us_fs st2) \/
  exists p c m1' m2',
    write_file (us_fs st1) p c = Some m1' /\
    write_file (us_fs st2) p c = Some m2' /\
    us_fs (process_record base st1 record) = m1' /\
    us_fs (process_record base st2 record) = m2'.
Proof.
  intros Hdirs. unfold process_record.
  destruct (table_catalog record) as [c|]; [|by left].
  destruct (table_schema record) as [s|]; [|by left].
  destruct (table_name record) as [t|]; [|by left].
  cbv zeta.
  set (table_dir := base ++ [strip c; strip s; strip t]).
  match goal with
  | |- context [write_file (us_fs st1) ?u ?x] =>
      pose proof (write_file_same_dirs (us_fs st1) (us_fs st2) u x Hdirs) as Hsame;
      set (usage_file_path := u) in *; set (usage_content := x) in *
  end.
  assert (forall m, exists_ m table_dir = false ->
                    write_file m usage_file_path usage_content = None) as Hnone.
  { intros m Hex. unfold write_file, usage_file_path, parent.
    rewrite removelast_last.
    assert (is_dir m table_dir = false) as ->.
    { revert Hex. unfold exists_, is_dir, table_dir. destruct (base ++ _); [done|].
      by destruct (m !! _) as [[|?]|]. }
    by destruct (table_dir ++ _). }
  destruct (write_file (us_fs st1) usage_file_path usage_content) as [m1'|] eqn:Hw1,
           (write_file (us_fs st2) usage_file_path usage_content) as [m2'|] eqn:Hw2;
    try done.
  - right. exists usage_file_path, usage_content, m1', m2'.
    destruct (exists_ (us_fs st1) table_dir) eqn:E1.
    2: { apply Hnone in E1. congruence. }
    destruct (exists_ (us_fs st2) table_dir) eqn:E2.
    2: { apply Hnone in E2. congruence. }
    done.
  - left. by destruct (negb _), (negb _).
Qed.

Lemma process_record_is_dir base st (record : usage_record) q :
  is_dir (us_fs (process_record base st record)) q = is_dir (us_fs st) q.
Proof.
  unfold process_record.
  destruct (table_catalog record); [|done].
  destruct (table_schema record); [|done].
  destruct (table_name record); [|done].
  cbv zeta. destruct (negb _); [done|].
  destruct (write_file _ _ _) as [m'|] eqn:Hwr; [|done].
  cbn [us_fs]. by apply (write_file_is_dir _ _ _ _ _ Hwr).
Qed.

Lemma foldl_process_record_is_dir base (data : list usage_record) st q :
  is_dir (us_fs (foldl (process_record base) st data)) q = is_dir (us_fs st) q.
Proof.
  revert st. induction data as [|record data IH]; intros st; [done|].
  simpl. by rewrite IH, process_record_is_dir.
Qed.

Lemma foldl_process_record_exists base (data : list usage_record) st q :
  exists_ (us_fs st) q = true ->
  exists_ (us_fs (foldl (process_record base) st data)) q = true.
Proof.
  revert st. induction data as [|record data IH]; intros st H; [done|].
  simpl. apply IH. revert H. unfold process_record.
  destruct (table_catalog record); [|done].
  destruct (table_schema record); [|done].
  destruct (table_name record); [|done].
  cbv zeta. destruct (negb _); [done|].
  destruct (write_file _ _ _) as [m'|] eqn:Hwr; [|done].
  cbn [us_fs]. by apply (write_file_exists _ _ _ _ _ Hwr).
Qed.

(** The records of a run taken again, from a filesystem with the same
    directories. *)
Lemma second_usage_pass base (data : list usage_record) st1 st2 :
  (forall q, is_dir (us_fs st2) q = is_dir (us_fs st1) q) ->
  (forall p, us_fs st2 !! p = us_fs (foldl (process_record base) st1 data) !! p \/
             us_fs st2 !! p = us_fs st1 !! p) ->
  us_fs (foldl (process_record base) st2 data)
  = us_fs (foldl (process_record base) st1 data).
Proof.
  revert st1 st2. induction data as [|record data IH]; intros st1 st2 Hdirs Hrel.
  - simpl in *. apply map_eq. intros p. by destruct (Hrel p).
  - simpl in *. apply IH.
    + intros q. by rewrite !process_record_is_dir.
    + intros p.
      destruct (process_record_same_write base st1 st2 record Hdirs)
        as [[-> ->]|(u & x & m1' & m2' & Hw1 & Hw2 & -> & ->)]; [apply Hrel|].
      destruct (decide (p = u)) as [->|Hne].
      * right. by rewrite (write_file_lookup_eq _ _ _ _ Hw1),
                 (write_file_lookup_eq _ _ _ _ Hw2).
      * rewrite (write_file_lookup_ne _ _ _ _ _ Hw1 Hne),
          (write_file_lookup_ne _ _ _ _ _ Hw2 Hne).
        apply Hrel.
Qed.

Lemma save_high_usage_tables_list_is_dir m tables (dir : path) output_file q :
  is_dir (save_high_usage_tables_list m tables dir output_file) q = is_dir m q.
Proof.
  unfold save_high_usage_tables_list.
  destruct (write_file _ _ _) as [m'|] eqn:Hwr; [|done].
  by apply (write_file_is_dir _ _ _ _ _ Hwr).
Qed.

Lemma write_file_insert m m' p c : write_file m p c = Some m' -> m' = <[p := File c]> m.
Proof.
  unfold write_file. destruct p as [|a p]; [done|].
  destruct (_ && _); [|done]. by intros [= <-].
Qed.

(** Saving the leaderboard where it has been saved changes nothing. *)
Lemma save_high_usage_tables_list_again m m2 tables (dir : path) output_file :
  (forall q, is_dir m2 q
             = is_dir (save_high_usage_tables_list m tables dir output_file) q) ->
  m2 !! (dir ++ [md_file_name output_file])
  = save_high_usage_tables_list m tables dir output_file
      !! (dir ++ [md_file_name output_file]) ->
  save_high_usage_tables_list m2 tables dir output_file = m2.
Proof.
  intros Hdirs Hboard.
  assert (forall q, is_dir m2 q = is_dir m q) as Hdirs'.
  { intros q. by rewrite Hdirs, save_high_usage_tables_list_is_dir. }
  revert Hboard. unfold save_high_usage_tables_list.
  match goal with
  | |- context [write_file m ?u ?x] =>
      pose proof (write_file_same_dirs m m2 u x Hdirs') as Hsame;
      destruct (write_file m u x) as [m'|] eqn:Hw,
               (write_file m2 u x) as [m''|] eqn:Hw2; try done
  end.
  intros Hboard. rewrite (write_file_insert _ _ _ _ Hw2). apply insert_id.
  etransitivity; [exact Hboard|]. exact (write_file_lookup_eq _ _ _ _ Hw).
Qed.

(** X18.  [process_usage_data] run a second time on the same records
    leaves the filesystem as the first run has left it: the same
    leaderboard and the same usage files are written again, with the same
    text, and a record skipped in the first run is skipped in the
    second. *)
Theorem usage_second_run_changes_nothing m (data : list usage_record)
    (tables_dir : path) :
  us_fs (process_usage_data (us_fs (process_usage_data m data tables_dir))
           data tables_dir)
  = us_fs (process_usage_data m data tables_dir).
Proof.
  unfold process_usage_data. cbv zeta.
  set (tables := create_high_usage_tables_list data).
  set (m1 := save_high_usage_tables_list m tables tables_dir "HIGH_USAGE_TABLES.md").
  set (st0 := {| us_fs := m1; processed_tables := 0; skipped_tables := 0;
                 updated_tables := 0 |}).
  set (final := us_fs (if negb (exists_ m1 tables_dir) then st0
                       else foldl (process_record tables_dir) st0 data)).
  assert (forall q, is_dir final q = is_dir m1 q) as Hdirs.
  { intros q. unfold final. destruct (negb _); [done|].
    apply foldl_process_record_is_dir. }
  assert (save_high_usage_tables_list final tables tables_dir "HIGH_USAGE_TABLES.md"
          = final) as ->.
  { apply (save_high_usage_tables_list_again m); [exact Hdirs|].
    change (md_file_name "HIGH_USAGE_TABLES.md") with "HIGH_USAGE_TABLES.md"%string.
    unfold final. destruct (negb _); [done|].
    apply foldl_process_record_keeps_leaderboard. }
  unfold final.
  destruct (exists_ m1 tables_dir) eqn:Hex; simpl negb; cbv iota.
  - rewrite (foldl_process_record_exists tables_dir data st0 tables_dir Hex).
    simpl negb. cbv iota.
    apply (second_usage_pass tables_dir data st0
             {| us_fs := us_fs (foldl (process_record tables_dir) st0 data);
                processed_tables := 0; skipped_tables := 0; updated_tables := 0 |}).
    + intros q. apply foldl_process_record_is_dir.
    + intros p. by left.
  - cbn [us_fs]. by rewrite Hex.
Qed.

End UsageTwice.

(** ** The query runner *)

Section QueryRun.
Import PyStr RunQuery.

(** The loop reads one line and, when the line does not decide, goes
    on with the lines that follow. *)
Lemma confirmation_loop_cons (line : string) (lines : list string) :
  confirmation_loop (line :: lines)
  = match confirmation_loop [line] with
    | Some answer => Some answer
    | None => confirmation_loop lines
    end.
Proof.
  cbn [confirmation_loop]. cbv zeta.
  destruct (_ || _); [done|]. by destruct (_ || _).
Qed.

(** X19.  [ask_user_confirmation] reads the answer from the first line
    that decides: after a line that is neither a yes nor a no the
    question is put again, and the lines after the deciding one are not
    read.  A blank line decides, for no. *)
Theorem first_decisive_line_decides (before : list string) (line : string)
    (after : list string) :
  (Forall (fun l => confirmation_loop [l] = None) before ->
   confirmation_loop [line] <> None ->
   confirmation_loop (before ++ line :: after) = confirmation_loop [line]) /\
  (strip line = EmptyString -> confirmation_loop [line] = Some false).
Proof.
  split.
  - intros Hbefore Hline.
    induction Hbefore as [|l before Hl _ IH]; simpl app.
    + rewrite confirmation_loop_cons. by destruct (confirmation_loop [line]).
    + by rewrite confirmation_loop_cons, Hl.
  - intros Hblank. cbn [confirmation_loop]. cbv zeta. by rewrite Hblank.
Qed.

Lemma first_decisive_line_decides_witness :
  confirmation_loop (["maybe"; "what?"] ++ " YES " :: ["n"]) = Some true /\
  confirmation_loop ["   "] = Some false.
Proof.
  destruct (first_decisive_line_decides ["maybe"; "what?"] " YES " ["n"])
    as [H1 _].
  destruct (first_decisive_line_decides [] "   " []) as [_ H2].
  split.
  - etransitivity; [apply H1|reflexivity].
    + repeat constructor.
    + by vm_compute.
  - apply H2. reflexivity.
Defined.

(** The events of a run come in the order of the source. *)
Lemma execute_and_persist_events (w : world) (a : args) :
  snd (execute_and_persist w a) `sublist_of` [EvExecute; EvSaveResults; EvSaveStats] /\
  In EvExecute (snd (execute_and_persist w a)) /\
  (In EvSaveResults (snd (execute_and_persist w a)) \/
   In EvSaveStats (snd (execute_and_persist w a)) ->
   fst (execute_and_persist w a) = 0).
Proof.
  unfold execute_and_persist.
  destruct (query_ok w); simpl.
  2: { split; [|split; [by left|intros [[?|[]]|[?|[]]]; done]].
       apply sublist_skip, sublist_nil_l. }
  destruct (output_file a) as [[|c s]|]; simpl;
    destruct (save_results_ok w), (save_stats_ok w); simpl;
    (split; [repeat first [apply sublist_nil | apply sublist_skip | apply sublist_cons]
            |split; [by left|]]);
    try done; intros [H|H]; repeat (destruct H as [H|H]; try done).
Qed.

(** X20.  In every run of the query runner the events occur at most
    once each and in the order dry run, question, query, results
    file, diagnostics file; a results file or a diagnostics file is
    written only when the query has been executed and the run ends with
    status 0; and without [--force] the query is executed only after
    the dry run. *)
Theorem events_are_ordered (w : world) (a : args) :
  snd (main w a)
    `sublist_of` [EvDryRun; EvPrompt; EvExecute; EvSaveResults; EvSaveStats] /\
  (In EvSaveResults (snd (main w a)) \/ In EvSaveStats (snd (main w a)) ->
   In EvExecute (snd (main w a)) /\ fst (main w a) = 0) /\
  (force a = false -> In EvExecute (snd (main w a)) ->
   head (snd (main w a)) = Some EvDryRun).
Proof.
  destruct (execute_and_persist_events w a) as (Hsub & Hex & Hok).
  unfold main.
  destruct (sql_file w); simpl.
  2: { split; [apply sublist_nil_l|]. split; [intros [[]|[]]|intros _ []]. }
  destruct (client_ok w); simpl.
  2: { split; [apply sublist_nil_l|]. split; [intros [[]|[]]|intros _ []]. }
  destruct (force a); simpl.
  { split; [by do 2 apply sublist_cons|]. split; [by auto|done]. }
  destruct (perform_dry_run w) as [[b gb]|status]; simpl.
  2: { split; [apply sublist_skip, sublist_nil_l|].
       split; [intros [[?|[]]|[?|[]]]; done|done]. }
  unfold ask_user_confirmation.
  destruct (execute_and_persist w a) as [status evs] eqn:E. simpl in *.
  destruct (exceeds_threshold gb); [destruct (confirmation_loop (stdin w)) as [[|]|]|];
    simpl.
  - split; [by do 2 apply sublist_skip|]. split; [|done].
    intros [[?|[?|H]]|[?|[?|H]]]; try done; split; auto.
  - split; [apply sublist_skip, sublist_skip, sublist_nil_l|].
    split; [|done]. intros [[?|[?|[]]]|[?|[?|[]]]]; done.
  - split; [apply sublist_skip, sublist_skip, sublist_nil_l|].
    split; [|done]. intros [[?|[?|[]]]|[?|[?|[]]]]; done.
  - split; [by apply sublist_skip, sublist_cons|]. split; [|done].
    intros [[?|H]|[?|H]]; try done; split; auto.
Qed.

Lemma events_are_ordered_witness :
  let w := {| sql_file := Some "SELECT 1"; client_ok := true;
              dry_run_job := Some (Some 5); stdin := [];
              query_ok := true; save_results_ok := true; save_stats_ok := true |} in
  let a := {| output_file := Some "out.csv"; force := false |} in
  In EvExecute (snd (main w a)) /\ fst (main w a) = 0 /\
  head (snd (main w a)) = Some EvDryRun.
Proof.
  intros w a.
  destruct (events_are_ordered w a) as (_ & H2 & H3).
  assert (In EvSaveResults (snd (main w a))) as Hin by (vm_compute; tauto).
  destruct (H2 (or_introl Hin)) as [He Hs].
  split; [exact He|]. split; [exact Hs|]. by apply H3.
Defined.

(** X21.  With [--force] neither the dry run nor the question takes
    place, and the run does not depend on what the dry run would have
    reported or on what the user would have answered. *)
Theorem force_skips_validation (w : world) (a : args) :
  force a = true ->
  ~ In EvDryRun (snd (main w a)) /\ ~ In EvPrompt (snd (main w a)) /\
  forall job lines,
    main {| sql_file := sql_file w; client_ok := client_ok w;
            dry_run_job := job; stdin := lines;
            query_ok := query_ok w; save_results_ok := save_results_ok w;
            save_stats_ok := save_stats_ok w |} a
    = main w a.
Proof.
  intros Hforce.
  destruct (execute_and_persist_events w a) as (Hsub & _ & _).
  unfold main. rewrite Hforce. simpl.
  destruct (sql_file w); simpl; [|by auto].
  destruct (client_ok w); simpl; [|by auto].
  assert (forall e, In e (snd (execute_and_persist w a)) ->
                    e = EvExecute \/ e = EvSaveResults \/ e = EvSaveStats) as Hin.
  { intros e He. apply list_elem_of_In in He.
    apply (sublist_subseteq _ _ Hsub) in He.
    apply list_elem_of_In in He. simpl in He. intuition. }
  split; [intros H; by destruct (Hin _ H) as [?|[?|?]]|].
  split; [intros H; by destruct (Hin _ H) as [?|[?|?]]|done].
Qed.

Lemma force_skips_validation_witness :
  let w := {| sql_file := Some "SELECT 1"; client_ok := true;
              dry_run_job := None; stdin := [];
              query_ok := true; save_results_ok := true; save_stats_ok := true |} in
  let a := {| output_file := None; force := true |} in
  ~ In EvDryRun (snd (main w a)) /\ main w a = (0, [EvExecute; EvSaveStats]).
Proof.
  intros w a.
  destruct (force_skips_validation w a eq_refl) as (H1 & _ & _).
  split; [exact H1|reflexivity].
Defined.

(** X22.  A failure to write the diagnostics file changes nothing but
    that file: the exit status and the other events of the run are the
    same. *)
Theorem diagnostics_failure_is_harmless (w : world) (a : args) (b : bool) :
  let w' := {| sql_file := sql_file w; client_ok := client_ok w;
               dry_run_job := dry_run_job w; stdin := stdin w;
               query_ok := query_ok w; save_results_ok := save_results_ok w;
               save_stats_ok := b |} in
  fst (main w' a) = fst (main w a) /\
  filter (fun e => e <> EvSaveStats) (snd (main w' a))
  = filter (fun e => e <> EvSaveStats) (snd (main w a)).
Proof.
  cbv zeta. unfold main, perform_dry_run, ask_user_confirmation, execute_and_persist.
  simpl.
  destruct (sql_file w) as [q|]; [|done].
  destruct (client_ok w); [|done]. simpl.
  destruct (force a), (query_ok w), (output_file a) as [[|c0 s0]|],
    (save_results_ok w), (save_stats_ok w), b; simpl; try done;
    destruct (dry_run_job w) as [[z|]|]; simpl; try done;
    destruct (exceeds_threshold _); simpl; try done;
    destruct (confirmation_loop (stdin w)) as [[|]|]; done.
Qed.

End QueryRun.

(** ** The entry point of the mirror, the preview columns and the filters *)

Section EntryPoints.
Import PyStr FS CreateTableStructure.
Implicit Types (m : gmap path node) (p : path).

Lemma run_pool_nil (c : bq_client) (max_rows : Z) m : run_pool c max_rows m [] = m.
Proof. reflexivity. Qed.



(** *** The width of the preview columns *)

Lemma length_append (s t : string) :
  String.length (s +:+ t) = (String.length s + String.length t)%nat.
Proof. induction s as [|a s IH]; [done|]. rewrite append_cons. simpl. by rewrite IH. Qed.

Lemma length_repeat_char (c : ascii) (n : nat) : String.length (repeat_char c n) = n.
Proof. induction n as [|n IH]; [done|]. simpl. by rewrite IH. Qed.

Lemma length_ljust (w : nat) (s : string) :
  String.length (ljust w s) = (String.length s `max` w)%nat.
Proof. unfold ljust. rewrite length_append, length_repeat_char. lia. Qed.

Lemma format_fields_cons (v : string) (values : list string) :
  format_fields (v :: values) = (ljust 20 v +:+ " ") +:+ format_fields values.
Proof.
  unfold format_fields. simpl map.
  destruct (map _ values) as [|x xs] eqn:E; simpl.
  - by rewrite append_nil_r.
  - by rewrite append_nil_l.
Qed.

(** X24.  The line of values that [get_table_preview] formats gives
    each value a column of 21 characters at least: a value longer than
    20 characters is not cut and widens its column.  When no value is
    longer than 20 characters, the line is exactly 21 characters for
    each value, one more for each than the line of dashes under the
    column names. *)
Theorem preview_columns_width (values : list string) :
  (21 * length values <= String.length (format_fields values))%nat /\
  (Forall (fun v => (String.length v <= 20)%nat) values ->
   String.length (format_fields values) = (21 * length values)%nat /\
   String.length (format_fields values)
   = (String.length (repeat_char "-" (20 * length values)) + length values)%nat).
Proof.
  assert (forall vs : list string,
            String.length (format_fields vs)
            = (length vs + list_sum (map (fun v => String.length v `max` 20)%nat vs))%nat)
    as Hlen.
  { induction vs as [|v vs IH]; [done|].
    rewrite format_fields_cons, !length_append, length_ljust, IH. simpl. lia. }
  split.
  - rewrite Hlen. induction values as [|v values IH]; simpl in *; lia.
  - intros Hshort. rewrite length_repeat_char.
    enough (String.length (format_fields values) = (21 * length values)%nat) by lia.
    rewrite Hlen. induction Hshort as [|v values Hv _ IH]; simpl in *; lia.
Qed.

Lemma preview_columns_width_witness :
  String.length (format_fields ["id"; "name"]) = 42%nat /\
  (42 < String.length (format_fields ["id"; "a name of more than twenty characters"]))%nat.
Proof.
  destruct (preview_columns_width ["id"; "name"]) as [_ H].
  destruct H as [H _]; [repeat constructor; simpl; lia|].
  split; [exact H|vm_compute; lia].
Defined.

End EntryPoints.

(** ** The filters and the region of the queries *)

Section Filters.
Import PyStr Config.

Lemma truthy_spec (v : option string) :
  truthy v = false <-> v = None \/ v = Some EmptyString.
Proof.
  destruct v as [[|c s]|]; simpl.
  - split; [by right|done].
  - split; [done|]. by intros [?|?].
  - split; [by left|done].
Qed.

Lemma filter_of_env_none (regex : option string) :
  filter_of_env regex = None <->
  regex = None \/ exists s, regex = Some s /\ strip s = EmptyString.
Proof.
  unfold filter_of_env. destruct regex as [s|].
  2: { split; [by left|done]. }
  destruct s as [|c s]; simpl.
  { split; [|done]. intros _. right. by exists EmptyString. }
  destruct (strip (String c s)) as [|c' s'] eqn:E; simpl.
  - split; [|done]. intros _. right. by exists (String c s).
  - split; [done|]. intros [?|(s0 & [= <-] & Hs)]; [done|]. congruence.
Qed.

Lemma filter_of_env_truthy (regex : option string) :
  truthy (filter_of_env regex) = false <-> filter_of_env regex = None.
Proof.
  unfold filter_of_env. destruct regex as [s|]; [|done].
  destruct s as [|c s]; simpl; [done|].
  by destruct (strip (String c s)).
Qed.

Lemma py_or_truthy (a b : option string) :
  truthy (py_or a b) = truthy a || truthy b.
Proof. unfold py_or. by destruct (truthy a) eqn:E; rewrite ?E. Qed.

Lemma where_clause_empty (d t : option string) :
  where_clause d t = EmptyString <-> truthy d = false /\ truthy t = false.
Proof.
  unfold where_clause, where_conditions.
  destruct (truthy d), (truthy t); simpl; split; try done; by intros [? ?].
Qed.

(** X25.  The catalogue query of [fetch_tables_from_bigquery] has no
    [WHERE] clause exactly when neither filter is given on the command
    line, or is given empty, and each of the two variables of the
    environment is unset or holds white space only. *)
Theorem unfiltered_query (a : filter_args) (e : environ) :
  where_clause (dataset_filter_regex_of a e) (table_filter_regex_of a e) = EmptyString
  <->
  (truthy (dataset_filter a) = false /\
   (env_dataset_filter_regex e = None \/
    exists s, env_dataset_filter_regex e = Some s /\ strip s = EmptyString)) /\
  (truthy (table_filter a) = false /\
   (env_table_filter_regex e = None \/
    exists s, env_table_filter_regex e = Some s /\ strip s = EmptyString)).
Proof.
  rewrite where_clause_empty.
  unfold dataset_filter_regex_of, table_filter_regex_of,
    get_dataset_filter_regex, get_table_filter_regex.
  rewrite !py_or_truthy, !orb_false_iff, !filter_of_env_truthy, !filter_of_env_none.
  done.
Qed.

(** X26.  A filter of the command line that is not empty is used as it
    is, whatever the environment holds, and its condition is the first
    of the [WHERE] clause; white space only makes such a filter on the
    command line, while the same text in the environment is no
    filter. *)
Theorem command_line_filter_wins (a : filter_args) (e : environ) (f : string) :
  dataset_filter a = Some f -> f <> EmptyString ->
  dataset_filter_regex_of a e = Some f /\
  startswith (where_clause (dataset_filter_regex_of a e) (table_filter_regex_of a e))
    ("WHERE REGEXP_CONTAINS(table_schema, r'" +:+ f +:+ "')") = true /\
  (strip f = EmptyString ->
   get_dataset_filter_regex
     {| env_bq_region := env_bq_region e;
        env_dataset_filter_regex := Some f;
        env_table_filter_regex := env_table_filter_regex e |} = None).
Proof.
  intros Ha Hf.
  assert (dataset_filter_regex_of a e = Some f) as Heq.
  { unfold dataset_filter_regex_of, py_or. rewrite Ha. by destruct f. }
  split; [exact Heq|]. split.
  - rewrite Heq. unfold where_clause, where_conditions, startswith.
    assert (truthy (Some f) = true) as -> by (by destruct f).
    cbn [default app].
    destruct (truthy (table_filter_regex_of a e)); cbn [app join String.concat].
    + change ("WHERE " +:+ ?x +:+ ?y) with ("WHERE " +:+ (x +:+ y)).
      rewrite <- !append_assoc. apply prefix_app. eexists.
      by rewrite !append_assoc.
    + apply prefix_app. exists EmptyString. by rewrite append_nil_r.
  - intros Hblank. unfold get_dataset_filter_regex, filter_of_env. cbn.
    rewrite Hblank. by destruct f.
Qed.

Lemma command_line_filter_wins_witness :
  let a := {| dataset_filter := Some "^prod_"; table_filter := None |} in
  let e := {| env_bq_region := None; env_dataset_filter_regex := Some "^staging_";
              env_table_filter_regex := Some "^fact_" |} in
  dataset_filter_regex_of a e = Some "^prod_" /\
  where_clause (dataset_filter_regex_of a e) (table_filter_regex_of a e)
  = "WHERE REGEXP_CONTAINS(table_schema, r'^prod_') AND REGEXP_CONTAINS(table_name, r'^fact_')".
Proof.
  intros a e.
  destruct (command_line_filter_wins a e "^prod_" eq_refl) as (H & _ & _); [done|].
  split; [exact H|reflexivity].
Defined.

(** *** The region *)

Lemma lower_char_idempotent (c : ascii) : lower_char (lower_char c) = lower_char c.
Proof. by destruct c as [[] [] [] [] [] [] [] []]. Qed.

Lemma lower_idempotent (s : string) : lower (lower s) = lower s.
Proof.
  induction s as [|c s IH]; [done|]. simpl. by rewrite lower_char_idempotent, IH.
Qed.

Lemma lower_append (s t : string) : lower (s +:+ t) = lower s +:+ lower t.
Proof. induction s as [|c s IH]; [done|]. rewrite append_cons. simpl. by rewrite IH. Qed.

(** X27.  The region that the catalogue query names is in lower case
    whatever [BQ_REGION] holds, and it is [region-eu] when the variable
    is not set; without a [--region] option, or with an empty one, the
    usage query names the same region. *)
Theorem regions_agree (e : environ) (arg_region : option string) :
  lower (tables_region e) = tables_region e /\
  (env_bq_region e = None -> tables_region e = "region-eu") /\
  (truthy arg_region = false -> jobs_region arg_region e = tables_region e).
Proof.
  split; [|split].
  - unfold tables_region. by rewrite lower_append, lower_idempotent.
  - unfold tables_region, get_bq_region. by intros ->.
  - unfold jobs_region, usage_region, tables_region.
    by destruct arg_region as [[|c s]|].
Qed.

Lemma regions_agree_witness :
  let e := {| env_bq_region := None; env_dataset_filter_regex := None;
              env_table_filter_regex := None |} in
  tables_region e = "region-eu" /\ jobs_region (Some EmptyString) e = "region-eu".
Proof.
  intros e.
  destruct (regions_agree e (Some EmptyString)) as (_ & H1 & H2).
  split; [by apply H1|]. etransitivity; [by apply H2|by apply H1].
Defined.

End Filters.
